(** * world-data-insight: the cleaning pipeline of [src/cleaning.py]

    A shallow embedding of [_to_numeric_safe], [_imputation_groupwise_median],
    [_choose_row_with_more_non_nulls] and [clean_world_data], followed by the
    properties of the pipeline.

    Modelling conventions.
    - A float64 cell is [option num]: [None] is NaN (pandas' null), [Some x]
      is a finite value (an exact rational) or one of the two infinities.
      Rounding is not modelled; the special values are, because NaN is what
      "null" means for a numeric column.
    - A table is kept row by row ([list Row]) together with the names of the
      columns it has; reading a column that is not there raises [KeyError],
      as [df[col]] does.
    - Exceptions are values of [result]; the pipeline is written in the
      error monad.
    - The row index of the default [RangeIndex] is carried in each row, since
      [idxmax] and [.loc] of the deduplication step go through it. *)

From Stdlib Require Import QArith Qreduction Lqa.
From stdpp Require Import gmap strings list fin_maps.

Set Default Proof Using "Type".
Local Open Scope Q_scope.
Local Open Scope string_scope.

(* ================================================================== *)
(** ** Numbers: float64 without rounding *)
(* ================================================================== *)

Module Float.

(** A non-NaN float64 value. *)
Inductive num : Type :=
| Fin (q : Q)
| PInf
| NInf.

(** [x <= y] on non-NaN values. *)
Definition leb (x y : num) : bool :=
  match x, y with
  | NInf, _ => true
  | _, PInf => true
  | Fin a, Fin b => Qle_bool a b
  | _, _ => false
  end.

(** [x < y] on non-NaN values. *)
Definition ltb (x y : num) : bool := negb (leb y x).

Definition zero : num := Fin 0.
Definition of_Z (z : Z) : num := Fin (inject_Z z).

(** Comparisons of cells: any comparison with NaN is [False]. *)
Definition cell_le (c : option num) (y : num) : bool :=
  match c with Some x => leb x y | None => false end.
Definition cell_ge (c : option num) (y : num) : bool :=
  match c with Some x => leb y x | None => false end.
Definition cell_gt (c : option num) (y : num) : bool :=
  match c with Some x => ltb y x | None => false end.
Definition cell_lt (c : option num) (y : num) : bool :=
  match c with Some x => ltb x y | None => false end.

(** IEEE addition; [inf + -inf] is NaN. *)
Definition add (x y : num) : option num :=
  match x, y with
  | Fin a, Fin b => Some (Fin (Qred (a + b)))
  | PInf, NInf | NInf, PInf => None
  | PInf, _ | _, PInf => Some PInf
  | NInf, _ | _, NInf => Some NInf
  end.

(** IEEE division; [inf / inf] and [0 / 0] are NaN.  The sign of a zero
    divisor is taken to be positive. *)
Definition div (x y : num) : option num :=
  match x, y with
  | Fin a, Fin b =>
      if Qeq_bool b 0 then
        if Qeq_bool a 0 then None
        else if Qle_bool a 0 then Some NInf else Some PInf
      else Some (Fin (Qred (a / b)))
  | Fin _, _ => Some (Fin 0)
  | PInf, Fin b => if Qle_bool 0 b then Some PInf else Some NInf
  | NInf, Fin b => if Qle_bool 0 b then Some NInf else Some PInf
  | _, _ => None
  end.

(** Division of two cells (NaN propagates). *)
Definition cell_div (c d : option num) : option num :=
  match c, d with
  | Some x, Some y => div x y
  | _, _ => None
  end.

(** Halving, as in the mean of the two middle elements of a median. *)
Definition half (x : num) : num :=
  match x with
  | Fin a => Fin (Qred (a / 2))
  | PInf => PInf
  | NInf => NInf
  end.

End Float.

Export Float.

(* ================================================================== *)
(** ** Sorting and the median *)
(* ================================================================== *)

Section Sort.
Context {A : Type} (le : A -> A -> bool).

Fixpoint insert_sorted (x : A) (l : list A) : list A :=
  match l with
  | [] => [x]
  | y :: l' => if le x y then x :: y :: l' else y :: insert_sorted x l'
  end.

Fixpoint sort (l : list A) : list A :=
  match l with
  | [] => []
  | x :: l' => insert_sorted x (sort l')
  end.
End Sort.

(** Median of the non-null values of a column ([skipna]): the middle element
    of the sorted values, or the mean of the two middle ones; NaN when there
    is no value. *)
Definition median (xs : list num) : option num :=
  let s := sort Float.leb xs in
  let n := length s in
  match n with
  | O => None
  | _ =>
      if Nat.odd n then s !! (n / 2)%nat
      else
        match s !! (n / 2 - 1)%nat, s !! (n / 2)%nat with
        | Some a, Some b => Float.half <$> Float.add a b
        | _, _ => None
        end
  end.

(** The non-null values of a column. *)
Definition dropna_values (s : list (option num)) : list num := omap id s.

(* ================================================================== *)
(** ** Text cells and numeric coercion *)
(* ================================================================== *)

(** A Python [str]: a sequence of Unicode code points. *)
Definition text : Type := list N.

Definition text_of_string (s : string) : text :=
  map Ascii.N_of_ascii (String.list_ascii_of_string s).

(** U+00A0 NO-BREAK SPACE. *)
Definition NBSP : N := 160%N.
Definition SPACE : N := 32%N.
Definition COMMA : N := 44%N.

(** [str.isspace] on one code point: what [str.strip()] removes. *)
Definition is_space (c : N) : bool :=
  ((9 <=? c) && (c <=? 13) || (28 <=? c) && (c <=? 32)
   || (c =? 133) || (c =? 160) || (c =? 5760)
   || (8192 <=? c) && (c <=? 8202)
   || (c =? 8232) || (c =? 8233) || (c =? 8239) || (c =? 8287)
   || (c =? 12288))%N.

Fixpoint lstrip (s : text) : text :=
  match s with
  | c :: s' => if is_space c then lstrip s' else s
  | [] => []
  end.

Definition rstrip (s : text) : text := rev (lstrip (rev s)).

(** [str.strip()] *)
Definition strip (s : text) : text := rstrip (lstrip s).

(** [str.replace(old, new)] for a one-character [old]. *)
Definition str_replace (old : N) (new : text) (s : text) : text :=
  flat_map (fun c => if (c =? old)%N then new else [c]) s.

(** A cell of an object-dtype column: a string, a number, or NaN. *)
Inductive Cell : Type :=
| Text (s : text)
| Number (x : num)
| Missing.

(** [dtype.kind in "biufc"] or not. *)
Inductive dtype : Type := numeric_kind | object_kind.

Record Series : Type := mkSeries {
  dtype_of : dtype;
  values : list Cell
}.

(** The value a cell of a numeric column holds (such a column has no
    strings). *)
Definition numeric_value (c : Cell) : option num :=
  match c with
  | Number x => Some x
  | Missing => None
  | Text _ => None
  end.

Section Coercion.
(** [str(x)] of a float, and the parser of [pd.to_numeric]: both belong to
    Python and pandas, not to this repository. *)
Variable py_str : num -> text.
Variable parse_float : text -> option num.

(** [s.astype(str)] on one cell. *)
Definition astype_str (c : Cell) : text :=
  match c with
  | Text s => s
  | Number x => py_str x
  | Missing => text_of_string "nan"
  end.

(** The chain of [.str] calls of [_to_numeric_safe]. *)
Definition clean_text (s : text) : text :=
  strip (str_replace COMMA [] (str_replace NBSP [SPACE] s)).

(** [cleaned.replace({"": nan, "nan": nan, "Nan": nan})] *)
Definition replace_nan (s : text) : option text :=
  if decide (s = text_of_string "") then None
  else if decide (s = text_of_string "nan") then None
  else if decide (s = text_of_string "Nan") then None
  else Some s.

(** [pd.to_numeric(_, errors="coerce")] on one cell. *)
Definition to_numeric_coerce (c : option text) : option num :=
  c ≫= parse_float.

Definition _to_numeric_safe (s : Series) : list (option num) :=
  match dtype_of s with
  | numeric_kind => map numeric_value (values s)
  | object_kind =>
      map (fun c => to_numeric_coerce (replace_nan (clean_text (astype_str c))))
          (values s)
  end.
End Coercion.

(* ================================================================== *)
(** ** Exceptions *)
(* ================================================================== *)

Inductive exn : Type :=
| KeyError (cols : list string)
| ValueError
| TypeError.

Inductive result (A : Type) : Type :=
| Ok (a : A)
| Raise (e : exn).
Arguments Ok {A} a.
Arguments Raise {A} e.

#[global] Instance result_ret : MRet result := fun _ a => Ok a.
#[global] Instance result_bind : MBind result := fun _ _ f m =>
  match m with
  | Ok a => f a
  | Raise e => Raise e
  end.

(* ================================================================== *)
(** ** Tables *)
(* ================================================================== *)

Definition NUMERIC_COLS : list string := ["area_km2"; "pop"; "lifeExp"; "gdpPercap"].
Definition IDENTIFIER_COLS : list string := ["iso_a2"; "name_long"].
Definition GROUP_COLS : list string := ["continent"; "subregion"].

(** One record of the raw table.  The cells of a column the table does not
    have are never read. *)
Record RawRow : Type := mkRawRow {
  raw_iso_a2 : option string;
  raw_name_long : option string;
  raw_continent : option string;
  raw_subregion : option string;
  raw_area_km2 : Cell;
  raw_pop : Cell;
  raw_lifeExp : Cell;
  raw_gdpPercap : Cell
}.

(** The raw table: its column names, the dtype of each column, its rows. *)
Record RawFrame : Type := mkRawFrame {
  raw_columns : list string;
  raw_dtype : string -> dtype;
  raw_rows : list RawRow
}.

(** One record after numeric coercion, with its index label. *)
Record Row : Type := mkRow {
  index : nat;
  iso_a2 : option string;
  name_long : option string;
  continent : option string;
  subregion : option string;
  area_km2 : option num;
  pop : option num;
  lifeExp : option num;
  gdpPercap : option num;
  pop_density : option num
}.

Record DataFrame : Type := mkDataFrame {
  columns : list string;
  rows : list Row
}.

Definition has_column (cols : list string) (col : string) : bool :=
  bool_decide (col ∈ cols).

(** [df[col]] raises [KeyError] when the column is absent. *)
Definition require (cols : list string) (col : string) : result unit :=
  if has_column cols col then Ok () else Raise (KeyError [col]).

(** The numeric column [col] of a row. *)
Definition numeric_field (col : string) (r : Row) : option num :=
  if String.eqb col "area_km2" then area_km2 r
  else if String.eqb col "pop" then pop r
  else if String.eqb col "lifeExp" then lifeExp r
  else if String.eqb col "gdpPercap" then gdpPercap r
  else if String.eqb col "pop_density" then pop_density r
  else None.

Definition set_numeric_field (col : string) (r : Row) (v : option num) : Row :=
  if String.eqb col "area_km2" then
    mkRow (index r) (iso_a2 r) (name_long r) (continent r) (subregion r)
          v (pop r) (lifeExp r) (gdpPercap r) (pop_density r)
  else if String.eqb col "pop" then
    mkRow (index r) (iso_a2 r) (name_long r) (continent r) (subregion r)
          (area_km2 r) v (lifeExp r) (gdpPercap r) (pop_density r)
  else if String.eqb col "lifeExp" then
    mkRow (index r) (iso_a2 r) (name_long r) (continent r) (subregion r)
          (area_km2 r) (pop r) v (gdpPercap r) (pop_density r)
  else if String.eqb col "gdpPercap" then
    mkRow (index r) (iso_a2 r) (name_long r) (continent r) (subregion r)
          (area_km2 r) (pop r) (lifeExp r) v (pop_density r)
  else if String.eqb col "pop_density" then
    mkRow (index r) (iso_a2 r) (name_long r) (continent r) (subregion r)
          (area_km2 r) (pop r) (lifeExp r) (gdpPercap r) v
  else r.

(** The categorical column [col] of a row. *)
Definition group_field (col : string) (r : Row) : option string :=
  if String.eqb col "subregion" then subregion r
  else if String.eqb col "continent" then continent r
  else if String.eqb col "iso_a2" then iso_a2 r
  else if String.eqb col "name_long" then name_long r
  else None.

(** [df[col] = s]: the column is written position by position. *)
Definition assign_column (col : string) (rs : list Row) (s : list (option num)) : list Row :=
  zip_with (set_numeric_field col) rs s.

(** Boolean masks. *)
Definition is_null {A} (c : option A) : bool :=
  match c with Some _ => false | None => true end.
Definition not_null {A} (c : option A) : bool := negb (is_null c).
Definition isna {A} (s : list (option A)) : list bool := map is_null s.
Definition notna {A} (s : list (option A)) : list bool := map not_null s.
Definition mask_any (m : list bool) : bool := existsb id m.
Definition mask_sum (m : list bool) : nat := length (List.filter id m).
Definition mask_and (m1 m2 : list bool) : list bool := zip_with andb m1 m2.

(** [s.loc[idx] = v]: positions where the mask holds take the value of [v]. *)
Definition loc_assign {A} (s : list A) (idx : list bool) (v : list A) : list A :=
  zip_with (fun '(old, b) new => if b : bool then new else old) (zip s idx) v.

(** [df.loc[mask]] *)
Definition loc_rows {A} (rs : list A) (mask : list bool) : list A :=
  map fst (List.filter snd (zip rs mask)).

(* ================================================================== *)
(** ** Group-wise median imputation *)
(* ================================================================== *)

Record ImputeCounts : Type := mkImputeCounts {
  by_subregion : nat;
  by_continent : nat;
  by_global : nat
}.

(** The rows of one group. *)
Definition group_rows (key : Row -> option string) (k : string) (rs : list Row) : list Row :=
  List.filter (fun r => bool_decide (key r = Some k)) rs.

(** [df.groupby(g)[col].median()]: a Series indexed by the non-null keys of
    [g]; the median of a group without values is NaN. *)
Definition groupby_median (key : Row -> option string) (col : Row -> option num)
    (rs : list Row) : gmap string (option num) :=
  list_to_map
    (omap (fun r => k ← key r;
                    Some (k, median (dropna_values (map col (group_rows key k rs)))))
          rs).

(** [keys.isin(med.index)] and [keys.map(med)] on one key. *)
Definition isin_index (med : gmap string (option num)) (k : option string) : bool :=
  match k with
  | Some k => bool_decide (is_Some (med !! k))
  | None => false
  end.
Definition map_series (med : gmap string (option num)) (k : option string) : option num :=
  match k with
  | Some k => default None (med !! k)
  | None => None
  end.

(** One group tier of [_imputation_groupwise_median]: the state is the
    filled column and the mask of what is still missing. *)
Definition impute_tier (df : DataFrame) (col g : string)
    (filled : list (option num)) (missing_idx : list bool)
    : result (list (option num) * nat * list bool) :=
  _ ← require (columns df) g;
  let med := groupby_median (group_field g) (numeric_field col) (rows df) in
  let keys := map (group_field g) (rows df) in
  let idx := mask_and (mask_and missing_idx (notna keys)) (map (isin_index med) keys) in
  let filled := loc_assign filled idx (map (map_series med) keys) in
  Ok (filled, mask_sum idx, isna filled).

Definition _imputation_groupwise_median (df : DataFrame) (col : string)
    (groups_priority : list string) : result (list (option num) * ImputeCounts) :=
  _ ← require (columns df) col;
  let filled := map (numeric_field col) (rows df) in
  let missing_idx := isna filled in
  if negb (mask_any missing_idx) then Ok (filled, mkImputeCounts 0 0 0)
  else
    (* subregion *)
    '(filled, n_sub, missing_idx) ←
      (if bool_decide ("subregion" ∈ groups_priority)
       then impute_tier df col "subregion" filled missing_idx
       else Ok (filled, 0%nat, missing_idx));
    (* continent *)
    '(filled, n_cont, missing_idx) ←
      (if bool_decide ("continent" ∈ groups_priority) && mask_any missing_idx
       then impute_tier df col "continent" filled missing_idx
       else Ok (filled, 0%nat, missing_idx));
    (* global *)
    if mask_any missing_idx then
      let global_med := median (dropna_values (map (numeric_field col) (rows df))) in
      let filled := loc_assign filled missing_idx (map (fun _ => global_med) (rows df)) in
      Ok (filled, mkImputeCounts n_sub n_cont (mask_sum missing_idx))
    else Ok (filled, mkImputeCounts n_sub n_cont 0).

(* ================================================================== *)
(** ** Choice among duplicated rows *)
(* ================================================================== *)

(** [rows[important_cols].notna().sum(axis=1)] on one row. *)
Definition non_null_count (important_cols : list string) (r : Row) : nat :=
  length (List.filter (fun c => not_null (numeric_field c r)) important_cols).

(** [counts.idxmax()]: the label of the first maximum; nothing on an empty
    Series. *)
Fixpoint idxmax (counts : list (nat * nat)) : option (nat * nat) :=
  match counts with
  | [] => None
  | (i, n) :: rest =>
      match idxmax rest with
      | Some (j, m) => if (m <=? n)%nat then Some (i, n) else Some (j, m)
      | None => Some (i, n)
      end
  end.

(** [rows.loc[label]] *)
Definition loc_label (rs : list Row) (label : nat) : option Row :=
  List.find (fun r => (index r =? label)%nat) rs.

Definition _choose_row_with_more_non_nulls (rs : list Row) (important_cols : list string)
    : result Row :=
  let counts := map (fun r => (index r, non_null_count important_cols r)) rs in
  match idxmax counts with
  | None => Raise ValueError
  | Some (best_idx, _) =>
      match loc_label rs best_idx with
      | Some r => Ok r
      | None => Raise (KeyError [])
      end
  end.

(* ================================================================== *)
(** ** The cleaning pipeline *)
(* ================================================================== *)

(** The cleaning report.  The list of step descriptions, the non-null ratios
    and the descriptive statistics are text and floating-point summaries
    of the final table and are left out. *)
Record Report : Type := mkReport {
  dropped_missing_identifiers : nat;
  dropped_invalid_nonpositive : nat;
  lifeExp_out_of_range_set_nan : option nat;
  impute_lifeExp : option ImputeCounts;
  impute_gdpPercap : option ImputeCounts;
  dropped_missing_area_or_pop : nat;
  deduplicated_rows : nat;
  row_count : option nat
}.

(** The names of [subset] that are not columns: what [dropna] puts in its
    [KeyError]. *)
Definition absent_columns (cols subset : list string) : list string :=
  List.filter (fun c => negb (has_column cols c)) subset.

(** [df_raw.copy()] with the labels of its [RangeIndex]. *)
Definition with_index (rs : list RawRow) : list (nat * RawRow) :=
  zip (seq 0 (length rs)) rs.

(** Step A: [df.dropna(subset=IDENTIFIER_COLS, how="any")]. *)
Definition step_A (df_raw : RawFrame) : result (list (nat * RawRow)) :=
  match absent_columns (raw_columns df_raw) IDENTIFIER_COLS with
  | [] =>
      Ok (List.filter
            (fun ir => not_null (raw_iso_a2 ir.2) && not_null (raw_name_long ir.2))
            (with_index (raw_rows df_raw)))
  | missing => Raise (KeyError missing)
  end.

Section Pipeline.
Variable py_str : num -> text.
Variable parse_float : text -> option num.

(** One iteration of the loop of step B: the converted column, or nothing
    to read when the table has no such column. *)
Definition convert_column (df_raw : RawFrame) (col : string) (cells : list Cell)
    : list (option num) :=
  if has_column (raw_columns df_raw) col
  then _to_numeric_safe py_str parse_float (mkSeries (raw_dtype df_raw col) cells)
  else map (fun _ => None) cells.

(** Step B: numeric conversion of the four numeric columns. *)
Definition step_B (df_raw : RawFrame) (rs : list (nat * RawRow)) : DataFrame :=
  let area := convert_column df_raw "area_km2" (map (fun ir => raw_area_km2 ir.2) rs) in
  let pop_ := convert_column df_raw "pop" (map (fun ir => raw_pop ir.2) rs) in
  let life := convert_column df_raw "lifeExp" (map (fun ir => raw_lifeExp ir.2) rs) in
  let gdp := convert_column df_raw "gdpPercap" (map (fun ir => raw_gdpPercap ir.2) rs) in
  mkDataFrame (raw_columns df_raw)
    (zip_with
       (fun '(ir, a, p) '(l, g) =>
          mkRow ir.1 (raw_iso_a2 ir.2) (raw_name_long ir.2)
                (raw_continent ir.2) (raw_subregion ir.2) a p l g None)
       (zip (zip rs area) pop_) (zip life gdp)).
End Pipeline.

(** [x <= 0] on a cell. *)
Definition nonpositive (c : option num) : bool := cell_le c Float.zero.

(** The mask of step C:
    [(df["pop"] <= 0) | (df["area_km2"] <= 0) | (df["gdpPercap"] <= 0)]. *)
Definition invalid_mask (r : Row) : bool :=
  nonpositive (pop r) || nonpositive (area_km2 r) || nonpositive (gdpPercap r).

(** Step C, first half: rows with a non-positive [pop], [area_km2] or
    [gdpPercap] are dropped. *)
Definition step_C_drop (df : DataFrame) : result DataFrame :=
  _ ← require (columns df) "pop";
  _ ← require (columns df) "area_km2";
  _ ← require (columns df) "gdpPercap";
  Ok (mkDataFrame (columns df) (loc_rows (rows df) (map (fun r => negb (invalid_mask r)) (rows df)))).

(** [(df["lifeExp"] <= 0) | (df["lifeExp"] >= 120)] *)
Definition out_of_range (r : Row) : bool :=
  cell_le (lifeExp r) Float.zero || cell_ge (lifeExp r) (Float.of_Z 120).

(** Step C, second half: an out-of-range [lifeExp] is set to NaN and the
    counter is written when there is at least one. *)
Definition step_C_bound (df : DataFrame) : result (DataFrame * option nat) :=
  _ ← require (columns df) "lifeExp";
  let mask := map out_of_range (rows df) in
  if mask_any mask then
    Ok (mkDataFrame (columns df)
          (assign_column "lifeExp" (rows df)
             (loc_assign (map lifeExp (rows df)) mask (map (fun _ => None) (rows df)))),
        Some (mask_sum mask))
  else Ok (df, None).

(** One iteration of the loop of step D. *)
Definition impute_column (df : DataFrame) (col : string)
    : result (DataFrame * option ImputeCounts) :=
  if has_column (columns df) col then
    '(filled, counts) ← _imputation_groupwise_median df col ["subregion"; "continent"];
    Ok (mkDataFrame (columns df) (assign_column col (rows df) filled), Some counts)
  else Ok (df, None).

(** Step E: [df.dropna(subset=["area_km2", "pop"])]. *)
Definition step_E (df : DataFrame) : result DataFrame :=
  match absent_columns (columns df) ["area_km2"; "pop"] with
  | [] =>
      Ok (mkDataFrame (columns df)
            (List.filter (fun r => not_null (area_km2 r) && not_null (pop r)) (rows df)))
  | missing => Raise (KeyError missing)
  end.

(** Order of the group keys: strings by code point, NaN last. *)
Definition key_leb (a b : option string) : bool :=
  match a, b with
  | Some x, Some y => String.leb x y
  | _, None => true
  | None, Some _ => false
  end.

(** The keys of [df.groupby("iso_a2", dropna=False)], in iteration order. *)
Definition group_keys (rs : list Row) : list (option string) :=
  sort key_leb (remove_dups (map iso_a2 rs)).

(** The rows of the group of key [k], in table order. *)
Definition iso_group (k : option string) (rs : list Row) : list Row :=
  List.filter (fun r => bool_decide (iso_a2 r = k)) rs.

(** The row [r] under the index label [i]. *)
Definition set_index (i : nat) (r : Row) : Row :=
  mkRow i (iso_a2 r) (name_long r) (continent r) (subregion r)
        (area_km2 r) (pop r) (lifeExp r) (gdpPercap r) (pop_density r).

(** [reset_index(drop=True)] *)
Definition reset_index (rs : list Row) : list Row := imap set_index rs.

(** The row kept for one group. *)
Definition keep_row (group : list Row) : result Row :=
  match group with
  | [r] => Ok r
  | _ => _choose_row_with_more_non_nulls group NUMERIC_COLS
  end.

(** The rows kept by step F before the index is reset. *)
Definition kept_rows (rs : list Row) : result (list Row) :=
  mapM (fun k => keep_row (iso_group k rs)) (group_keys rs).

(** Step F: one row per [iso_a2]. *)
Definition step_F (df : DataFrame) : result DataFrame :=
  _ ← require (columns df) "iso_a2";
  if negb (bool_decide (NoDup (map iso_a2 (rows df)))) then
    kept ← kept_rows (rows df);
    Ok (mkDataFrame (columns df) (reset_index kept))
  else Ok df.

(** Step G: [df["pop_density"] = df["pop"] / df["area_km2"]]. *)
Definition step_G (df : DataFrame) : result DataFrame :=
  _ ← require (columns df) "pop";
  _ ← require (columns df) "area_km2";
  Ok (mkDataFrame
        (if has_column (columns df) "pop_density" then columns df
         else columns df ++ ["pop_density"])
        (assign_column "pop_density" (rows df)
           (zip_with Float.cell_div (map pop (rows df)) (map area_km2 (rows df))))).

Section Main.
Variable py_str : num -> text.
Variable parse_float : text -> option num.

Definition clean_world_data (df_raw : RawFrame) (generate_report : bool)
    : result (DataFrame * Report) :=
  (* Step A *)
  let before := length (raw_rows df_raw) in
  rsA ← step_A df_raw;
  let n_ident := (before - length rsA)%nat in
  (* Step B *)
  let df := step_B py_str parse_float df_raw rsA in
  (* Step C *)
  let before := length (rows df) in
  df ← step_C_drop df;
  let n_invalid := (before - length (rows df))%nat in
  '(df, n_range) ← step_C_bound df;
  (* Step D *)
  '(df, imp_life) ← impute_column df "lifeExp";
  '(df, imp_gdp) ← impute_column df "gdpPercap";
  (* Step E *)
  let before := length (rows df) in
  df ← step_E df;
  let n_missing := (before - length (rows df))%nat in
  (* Step F *)
  let before := length (rows df) in
  df ← step_F df;
  let n_dedup := (before - length (rows df))%nat in
  (* Step G *)
  df ← step_G df;
  (* Step H *)
  Ok (df, mkReport n_ident n_invalid n_range imp_life imp_gdp n_missing n_dedup
            (if generate_report then Some (length (rows df)) else None)).
End Main.

(* ================================================================== *)
(** * Closed forms and predicates used in the statements *)
(* ================================================================== *)

(** ** The imputation, row by row *)

(** The median of the values column [col] has in the group [k] of the
    grouping column [g], and over the whole table. *)
Definition group_median (g col : string) (rs : list Row) (k : string) : option num :=
  median (dropna_values (map (numeric_field col) (group_rows (group_field g) k rs))).

Definition global_median (col : string) (rs : list Row) : option num :=
  median (dropna_values (map (numeric_field col) rs)).

(** What a group tier makes of the value [v] of row [r]: a null value of a
    row with a group takes the median of that group. *)
Definition tier_value (g col : string) (rs : list Row) (r : Row) (v : option num) : option num :=
  match v, group_field g r with
  | None, Some k => group_median g col rs k
  | _, _ => v
  end.

Definition after_subregion (col : string) (rs : list Row) (r : Row) : option num :=
  tier_value "subregion" col rs r (numeric_field col r).

Definition after_continent (col : string) (rs : list Row) (r : Row) : option num :=
  tier_value "continent" col rs r (after_subregion col rs r).

(** The imputed value of row [r]: its own value, else the subregion median,
    else the continent median, else the global median, every median being
    taken over the column of [rs] as it is before any filling. *)
Definition impute_value (col : string) (rs : list Row) (r : Row) : option num :=
  match after_continent col rs r with
  | Some v => Some v
  | None => global_median col rs
  end.

(** The rows a group tier counts: still null, with a group. *)
Definition tier_counted (g : string) (v : Row -> option num) (r : Row) : bool :=
  is_null (v r) && not_null (group_field g r).

Definition impute_counts (col : string) (rs : list Row) : ImputeCounts :=
  mkImputeCounts
    (length (List.filter (tier_counted "subregion" (numeric_field col)) rs))
    (length (List.filter (tier_counted "continent" (after_subregion col rs)) rs))
    (length (List.filter (fun r => is_null (after_continent col rs r)) rs)).

(** [x > 0] and [0 < x < 120] as propositions. *)
Definition positive (x : num) : Prop :=
  match x with Fin q => 0 < q | PInf => True | NInf => False end.

Definition in_life_range (x : num) : Prop :=
  match x with Fin q => 0 < q /\ q < 120 | _ => False end.

(** ** The table after each step, as a function of the raw table *)

(** The columns [clean_world_data] reads. *)
Definition REQUIRED_COLS : list string := IDENTIFIER_COLS ++ NUMERIC_COLS ++ GROUP_COLS.

Definition has_required_columns (df_raw : RawFrame) : bool :=
  forallb (has_column (raw_columns df_raw)) REQUIRED_COLS.

(** Step G on one row. *)
Definition with_density (r : Row) : Row :=
  set_numeric_field "pop_density" r (Float.cell_div (pop r) (area_km2 r)).

(** The counter of step C, second half: written only when a value was
    nulled. *)
Definition range_counter (rs : list Row) : option nat :=
  if existsb out_of_range rs then Some (length (List.filter out_of_range rs)) else None.

(** The columns of the output table. *)
Definition output_columns (cols : list string) : list string :=
  if has_column cols "pop_density" then cols else cols ++ ["pop_density"].

Section Stages.
Variable py_str : num -> text.
Variable parse_float : text -> option num.

(** Step B on one cell of column [col]. *)
Definition coerce_cell (df_raw : RawFrame) (col : string) (c : Cell) : option num :=
  if has_column (raw_columns df_raw) col then
    match raw_dtype df_raw col with
    | numeric_kind => numeric_value c
    | object_kind =>
        to_numeric_coerce parse_float (replace_nan (clean_text (astype_str py_str c)))
    end
  else None.

(** Step B on one row. *)
Definition coerce_row (df_raw : RawFrame) (ir : nat * RawRow) : Row :=
  mkRow ir.1 (raw_iso_a2 ir.2) (raw_name_long ir.2) (raw_continent ir.2) (raw_subregion ir.2)
        (coerce_cell df_raw "area_km2" (raw_area_km2 ir.2))
        (coerce_cell df_raw "pop" (raw_pop ir.2))
        (coerce_cell df_raw "lifeExp" (raw_lifeExp ir.2))
        (coerce_cell df_raw "gdpPercap" (raw_gdpPercap ir.2))
        None.

Definition has_identifiers (ir : nat * RawRow) : bool :=
  not_null (raw_iso_a2 ir.2) && not_null (raw_name_long ir.2).

(** After identifier validation. *)
Definition rows_A (df_raw : RawFrame) : list (nat * RawRow) :=
  List.filter has_identifiers (with_index (raw_rows df_raw)).

(** After numeric coercion. *)
Definition rows_B (df_raw : RawFrame) : list Row :=
  map (coerce_row df_raw) (rows_A df_raw).

(** After the drop of non-positive rows. *)
Definition rows_C_drop (df_raw : RawFrame) : list Row :=
  List.filter (fun r => negb (invalid_mask r)) (rows_B df_raw).

(** The soft null of step C on one row. *)
Definition bound_lifeExp (r : Row) : Row :=
  if out_of_range r then set_numeric_field "lifeExp" r None else r.

(** After range filtering: the table imputation starts from. *)
Definition rows_C (df_raw : RawFrame) : list Row :=
  map bound_lifeExp (rows_C_drop df_raw).

(** The table with column [col] imputed. *)
Definition impute_rows (col : string) (rs : list Row) : list Row :=
  map (fun r => set_numeric_field col r (impute_value col rs r)) rs.

(** After imputation. *)
Definition rows_D (df_raw : RawFrame) : list Row :=
  impute_rows "gdpPercap" (impute_rows "lifeExp" (rows_C df_raw)).

Definition has_area_and_pop (r : Row) : bool :=
  not_null (area_km2 r) && not_null (pop r).

(** After the drop of rows without [area_km2] or [pop]: the table
    deduplication starts from. *)
Definition rows_E (df_raw : RawFrame) : list Row :=
  List.filter has_area_and_pop (rows_D df_raw).

(** The report of a run that kept the rows [kept]. *)
Definition report_of (df_raw : RawFrame) (generate_report : bool) (kept : list Row) : Report :=
  mkReport
    (length (raw_rows df_raw) - length (rows_A df_raw))
    (length (rows_B df_raw) - length (rows_C_drop df_raw))
    (range_counter (rows_C_drop df_raw))
    (Some (impute_counts "lifeExp" (rows_C df_raw)))
    (Some (impute_counts "gdpPercap" (impute_rows "lifeExp" (rows_C df_raw))))
    (length (rows_D df_raw) - length (rows_E df_raw))
    (length (rows_E df_raw) - length kept)
    (if generate_report then Some (length kept) else None).

End Stages.

(** ** Row invariants *)

(** A cell that is null or satisfies [P]. *)
Definition null_or (P : num -> Prop) (c : option num) : Prop :=
  forall x, c = Some x -> P x.

(** What holds of every row from range filtering on. *)
Record filtered_row (r : Row) : Prop := mkFilteredRow {
  fr_iso_a2 : is_Some (iso_a2 r);
  fr_name_long : is_Some (name_long r);
  fr_area_km2 : null_or positive (area_km2 r);
  fr_pop : null_or positive (pop r);
  fr_gdpPercap : null_or positive (gdpPercap r);
  fr_lifeExp : null_or in_life_range (lifeExp r)
}.

(** What holds of every row of the output. *)
Record clean_row (r : Row) : Prop := mkCleanRow {
  cr_iso_a2 : is_Some (iso_a2 r);
  cr_name_long : is_Some (name_long r);
  cr_area_km2 : Float.cell_gt (area_km2 r) Float.zero = true;
  cr_pop : Float.cell_gt (pop r) Float.zero = true;
  cr_gdpPercap : null_or positive (gdpPercap r);
  cr_lifeExp : null_or in_life_range (lifeExp r);
  cr_pop_density : pop_density r = Float.cell_div (pop r) (area_km2 r)
}.

(** [x <= 0] as a proposition, and a cell holding such a value. *)
Definition le_zero (x : num) : Prop :=
  match x with Fin q => (q <= 0)%Q | NInf => True | PInf => False end.

Definition nonpositive_value (c : option num) : Prop :=
  exists x, c = Some x /\ le_zero x.

(** A cell holding a value outside the open interval (0, 120). *)
Definition out_of_life_range (c : option num) : Prop :=
  exists x, c = Some x /\ ~ in_life_range x.

(** ** Records of the input that reach imputation *)

Section Survivors.
Variable py_str : num -> text.
Variable parse_float : text -> option num.

(** The record has both identifiers and, once coerced, no non-positive
    [pop], [area_km2] or [gdpPercap]: steps A and C keep it. *)
Definition survives_filters (df_raw : RawFrame) (ir : nat * RawRow) : Prop :=
  has_identifiers ir = true
  /\ invalid_mask (coerce_row py_str parse_float df_raw ir) = false.

(** Such a record with a [lifeExp] strictly inside (0, 120). *)
Definition offers_lifeExp (df_raw : RawFrame) (ir : nat * RawRow) : Prop :=
  survives_filters df_raw ir
  /\ exists x, lifeExp (coerce_row py_str parse_float df_raw ir) = Some x /\ in_life_range x.

(** Such a record with a [gdpPercap]. *)
Definition offers_gdpPercap (df_raw : RawFrame) (ir : nat * RawRow) : Prop :=
  survives_filters df_raw ir
  /\ is_Some (gdpPercap (coerce_row py_str parse_float df_raw ir)).
End Survivors.

(** ** The choice among duplicates *)

(** Among the rows of its group, the kept row is the first of those with
    the most non-null numeric fields. *)
Definition first_most_complete (group : list Row) (r : Row) : Prop :=
  exists pre post,
    group = (pre ++ r :: post)%list
    /\ Forall (fun x => non_null_count NUMERIC_COLS x < non_null_count NUMERIC_COLS r)%nat pre
    /\ Forall (fun x => non_null_count NUMERIC_COLS x <= non_null_count NUMERIC_COLS r)%nat post.

(* ================================================================== *)
(** * Example tables *)
(* ================================================================== *)

(** Stand-ins for the two library functions, enough for the examples: the
    parser reads unsigned decimal integers; [str] is not exercised (no
    example has a number in an object column). *)
Fixpoint parse_digits (acc : N) (s : text) : option N :=
  match s with
  | [] => Some acc
  | c :: s' =>
      if ((48 <=? c) && (c <=? 57))%N then parse_digits (acc * 10 + (c - 48))%N s'
      else None
  end.

Definition example_parse (s : text) : option num :=
  match s with
  | [] => None
  | _ => (fun n => Fin (inject_Z (Z.of_N n))) <$> parse_digits 0%N s
  end.

Definition example_str (x : num) : text := text_of_string "?".

(** The columns of [worldData.csv]. *)
Definition world_columns : list string :=
  ["iso_a2"; "name_long"; "continent"; "region_un"; "subregion"; "type";
   "area_km2"; "pop"; "lifeExp"; "gdpPercap"].

Definition all_numeric : string -> dtype := fun _ => numeric_kind.

Definition int_cell (z : Z) : Cell := Number (Float.of_Z z).

(** The fixture [raw_df_for_cleaning] of [tests/conftest.py]. *)
Definition raw_df_for_cleaning : RawFrame :=
  mkRawFrame world_columns all_numeric
    [ mkRawRow (Some "AA") (Some "Alfa") (Some "Europe") (Some "Western Europe")
        (int_cell 1000) (int_cell 1000000) (int_cell 80) (int_cell 50000);
      mkRawRow (Some "AA") (Some "Alfa") (Some "Europe") (Some "Western Europe")
        (int_cell 1000) (int_cell 1000000) Missing (int_cell 50000);
      mkRawRow (Some "BB") (Some "Bravo") (Some "Asia") (Some "Eastern Asia")
        (int_cell 0) (int_cell 2000000) (int_cell 76) (int_cell 30000);
      mkRawRow (Some "CC") (Some "Charlie") (Some "Africa") (Some "Eastern Africa")
        (int_cell 3000) (int_cell (-10)) (int_cell 60) (int_cell 2000);
      mkRawRow (Some "DD") (Some "Delta") (Some "Africa") (Some "Western Africa")
        (int_cell 4000) (int_cell 500000) (int_cell 140) (int_cell 1800);
      mkRawRow (Some "EE") None (Some "Oceania") (Some "Australia and New Zealand")
        (int_cell 7700) (int_cell 25000000) (int_cell 83) (int_cell 45000);
      mkRawRow None (Some "Foxtrot") (Some "Americas") (Some "South America")
        (int_cell 8000) (int_cell 44000000) (int_cell 75) (int_cell 12000) ].

(** One complete record but for its [gdpPercap]. *)
Definition table_without_gdp : RawFrame :=
  mkRawFrame world_columns all_numeric
    [ mkRawRow (Some "AA") (Some "Alfa") (Some "Europe") (Some "Western Europe")
        (int_cell 1000) (int_cell 1000000) (int_cell 80) Missing ].

(** The only [lifeExp] of the table is out of range. *)
Definition table_lifeExp_140 : RawFrame :=
  mkRawFrame world_columns all_numeric
    [ mkRawRow (Some "AA") (Some "Alfa") (Some "Europe") (Some "Western Europe")
        (int_cell 1000) (int_cell 1000000) (int_cell 140) (int_cell 50000);
      mkRawRow (Some "BB") (Some "Bravo") (Some "Asia") (Some "Eastern Asia")
        (int_cell 2000) (int_cell 2000000) Missing (int_cell 30000) ].

(** The only [gdpPercap] of the table sits in a row that is dropped. *)
Definition table_gdp_dropped : RawFrame :=
  mkRawFrame world_columns all_numeric
    [ mkRawRow (Some "AA") (Some "Alfa") (Some "Europe") (Some "Western Europe")
        (int_cell 1000) (int_cell (-10)) (int_cell 80) (int_cell 50000);
      mkRawRow (Some "BB") (Some "Bravo") (Some "Asia") (Some "Eastern Asia")
        (int_cell 2000) (int_cell 2000000) (int_cell 76) Missing ].

(** Two records for [AA], the incomplete one first, and a neighbour of the
    same subregion. *)
Definition table_duplicate_incomplete_first : RawFrame :=
  mkRawFrame world_columns all_numeric
    [ mkRawRow (Some "AA") (Some "Alfa") (Some "Europe") (Some "Western Europe")
        (int_cell 1000) (int_cell 1000000) Missing (int_cell 50000);
      mkRawRow (Some "AA") (Some "Alfa") (Some "Europe") (Some "Western Europe")
        (int_cell 1000) (int_cell 1000000) (int_cell 80) (int_cell 50000);
      mkRawRow (Some "BB") (Some "Bravo") (Some "Europe") (Some "Western Europe")
        (int_cell 2000) (int_cell 2000000) (int_cell 60) (int_cell 30000) ].

(** One null [lifeExp], alone in its subregion and in its continent. *)
Definition table_lonely_null : RawFrame :=
  mkRawFrame world_columns all_numeric
    [ mkRawRow (Some "AA") (Some "Alfa") (Some "Europe") (Some "Western Europe")
        (int_cell 1000) (int_cell 1000000) Missing (int_cell 50000);
      mkRawRow (Some "BB") (Some "Bravo") (Some "Asia") (Some "Eastern Asia")
        (int_cell 2000) (int_cell 2000000) (int_cell 70) (int_cell 30000) ].

(** Infinite [pop] and [area_km2]. *)
Definition table_infinite : RawFrame :=
  mkRawFrame world_columns all_numeric
    [ mkRawRow (Some "AA") (Some "Alfa") (Some "Europe") (Some "Western Europe")
        (Number PInf) (Number PInf) (int_cell 80) (int_cell 50000) ].

(** ["5 678"]: a no-break space as thousands separator. *)
Definition text_5_nbsp_678 : text :=
  (text_of_string "5" ++ [NBSP] ++ text_of_string "678")%list.




(** All the required columns; no record has a [subregion], and the only
    record without a [lifeExp] is one of them. *)
Definition table_without_any_subregion : RawFrame :=
  mkRawFrame world_columns all_numeric
    [ mkRawRow (Some "AA") (Some "Alfa") (Some "Europe") None
        (int_cell 1000) (int_cell 1000000) Missing (int_cell 50000);
      mkRawRow (Some "BB") (Some "Bravo") (Some "Europe") None
        (int_cell 2000) (int_cell 2000000) (int_cell 70) (int_cell 30000) ].

(** A coerced table with one continent and three subregions: the second
    record is null and has a neighbour in its subregion, the third is null
    and alone in its subregion. *)
Definition frame_two_tiers : DataFrame :=
  mkDataFrame world_columns
    [ mkRow 0 (Some "AA") (Some "Alfa") (Some "Europe") (Some "Western Europe")
        (Some (Float.of_Z 1000)) (Some (Float.of_Z 1000000)) (Some (Float.of_Z 10))
        (Some (Float.of_Z 50000)) None;
      mkRow 1 (Some "BB") (Some "Bravo") (Some "Europe") (Some "Western Europe")
        (Some (Float.of_Z 1000)) (Some (Float.of_Z 1000000)) None
        (Some (Float.of_Z 50000)) None;
      mkRow 2 (Some "CC") (Some "Charlie") (Some "Europe") (Some "Northern Europe")
        (Some (Float.of_Z 1000)) (Some (Float.of_Z 1000000)) None
        (Some (Float.of_Z 50000)) None;
      mkRow 3 (Some "DD") (Some "Delta") (Some "Europe") (Some "Southern Europe")
        (Some (Float.of_Z 1000)) (Some (Float.of_Z 1000000)) (Some (Float.of_Z 40))
        (Some (Float.of_Z 50000)) None ].

(* ================================================================== *)
(** * [src/cleaning.py] under pandas 3 *)
(* ================================================================== *)

(** What the two assignments [filled.loc[idx] = df.loc[idx, g].map(med)] of
    [_imputation_groupwise_median] (lines 59 and 67) do when [idx] selects
    no row depends on the version of pandas.  The right-hand side is then
    an empty Series.  pandas 2 assigns nothing and goes on: that is
    [impute_tier] above, and the pipeline built on it.  Under pandas 3 the
    empty Series keeps the dtype of the column of keys; where that is
    [str], a float64 column does not take it and the assignment raises
    [TypeError]. *)
Inductive pandas_version : Type := pandas_2 | pandas_3.

(** The key of a record of the raw table in the grouping column [g]. *)
Definition raw_key (g : string) (r : RawRow) : option string :=
  if String.eqb g "subregion" then raw_subregion r
  else if String.eqb g "continent" then raw_continent r
  else None.

(** Whether pandas 3 gives the grouping column [g] of the table the [str]
    dtype: it does when the column holds a string; a column of nulls only
    is read as float64 or object.  The steps before imputation drop rows,
    which keeps the dtype of a column. *)
Definition str_dtype (df_raw : RawFrame) (g : string) : bool :=
  existsb (fun r => not_null (raw_key g r)) (raw_rows df_raw).

(** Whether an assignment through a mask that selects no row raises, for
    the keys of column [g]. *)
Definition refuses_empty_selection (pd : pandas_version) (df_raw : RawFrame)
    (g : string) : bool :=
  match pd with
  | pandas_2 => false
  | pandas_3 => str_dtype df_raw g
  end.

(** One group tier of [_imputation_groupwise_median]; [refuses] says
    whether the assignment raises when [idx] selects no row. *)
Definition impute_tier_under (refuses : bool) (df : DataFrame) (col g : string)
    (filled : list (option num)) (missing_idx : list bool)
    : result (list (option num) * nat * list bool) :=
  _ ← require (columns df) g;
  let med := groupby_median (group_field g) (numeric_field col) (rows df) in
  let keys := map (group_field g) (rows df) in
  let idx := mask_and (mask_and missing_idx (notna keys)) (map (isin_index med) keys) in
  if refuses && negb (mask_any idx) then Raise TypeError
  else
    let filled := loc_assign filled idx (map (map_series med) keys) in
    Ok (filled, mask_sum idx, isna filled).

Definition _imputation_groupwise_median_under (refuses : string -> bool) (df : DataFrame)
    (col : string) (groups_priority : list string)
    : result (list (option num) * ImputeCounts) :=
  _ ← require (columns df) col;
  let filled := map (numeric_field col) (rows df) in
  let missing_idx := isna filled in
  if negb (mask_any missing_idx) then Ok (filled, mkImputeCounts 0 0 0)
  else
    (* subregion *)
    '(filled, n_sub, missing_idx) ←
      (if bool_decide ("subregion" ∈ groups_priority)
       then impute_tier_under (refuses "subregion") df col "subregion" filled missing_idx
       else Ok (filled, 0%nat, missing_idx));
    (* continent *)
    '(filled, n_cont, missing_idx) ←
      (if bool_decide ("continent" ∈ groups_priority) && mask_any missing_idx
       then impute_tier_under (refuses "continent") df col "continent" filled missing_idx
       else Ok (filled, 0%nat, missing_idx));
    (* global *)
    if mask_any missing_idx then
      let global_med := median (dropna_values (map (numeric_field col) (rows df))) in
      let filled := loc_assign filled missing_idx (map (fun _ => global_med) (rows df)) in
      Ok (filled, mkImputeCounts n_sub n_cont (mask_sum missing_idx))
    else Ok (filled, mkImputeCounts n_sub n_cont 0).

(** One iteration of the loop of step D. *)
Definition impute_column_under (refuses : string -> bool) (df : DataFrame) (col : string)
    : result (DataFrame * option ImputeCounts) :=
  if has_column (columns df) col then
    '(filled, counts) ←
      _imputation_groupwise_median_under refuses df col ["subregion"; "continent"];
    Ok (mkDataFrame (columns df) (assign_column col (rows df) filled), Some counts)
  else Ok (df, None).

Section MainUnder.
Variable pd : pandas_version.
Variable py_str : num -> text.
Variable parse_float : text -> option num.

Definition clean_world_data_under (df_raw : RawFrame) (generate_report : bool)
    : result (DataFrame * Report) :=
  let refuses := refuses_empty_selection pd df_raw in
  (* Step A *)
  let before := length (raw_rows df_raw) in
  rsA ← step_A df_raw;
  let n_ident := (before - length rsA)%nat in
  (* Step B *)
  let df := step_B py_str parse_float df_raw rsA in
  (* Step C *)
  let before := length (rows df) in
  df ← step_C_drop df;
  let n_invalid := (before - length (rows df))%nat in
  '(df, n_range) ← step_C_bound df;
  (* Step D *)
  '(df, imp_life) ← impute_column_under refuses df "lifeExp";
  '(df, imp_gdp) ← impute_column_under refuses df "gdpPercap";
  (* Step E *)
  let before := length (rows df) in
  df ← step_E df;
  let n_missing := (before - length (rows df))%nat in
  (* Step F *)
  let before := length (rows df) in
  df ← step_F df;
  let n_dedup := (before - length (rows df))%nat in
  (* Step G *)
  df ← step_G df;
  (* Step H *)
  Ok (df, mkReport n_ident n_invalid n_range imp_life imp_gdp n_missing n_dedup
            (if generate_report then Some (length (rows df)) else None)).
End MainUnder.




(* ================================================================== *)
(** * The rest of the program: [src/main.py], [src/analysis.py],
      [src/io_utils.py] *)
(* ================================================================== *)

(** ** Predicates used in the statements *)

(** A list in ascending order for [le]: an earlier element is below every
    later one. *)
Definition ascending {A} (le : A -> A -> bool) (l : list A) : Prop :=
  forall i j a b, (i < j)%nat -> l !! i = Some a -> l !! j = Some b -> le a b = true.

(** A finite value of the closed interval [[lo, hi]]. *)
Definition between (lo hi : Q) (x : num) : Prop :=
  match x with Fin q => (lo <= q)%Q /\ (q <= hi)%Q | _ => False end.

(** [2^1022]: the sum of two float64 values of at most this magnitude is
    finite (the largest finite float64 is just below [2^1024]). *)
Definition FLOAT64_SAFE : Q := inject_Z (2 ^ 1022).

(** [x >= 0] as a proposition. *)
Definition nonnegative (x : num) : Prop :=
  match x with Fin q => (0 <= q)%Q | PInf => True | NInf => False end.

(** A text without white space at either end. *)
Definition trimmed (s : text) : Prop :=
  (forall c t, s = c :: t -> is_space c = false)
  /\ (forall c t, s = (t ++ [c])%list -> is_space c = false).

(* ================================================================== *)
(** ** [src/main.py]: file-name slugs *)
(* ================================================================== *)

Definition UNDERSCORE : N := 95%N.
Definition HYPHEN : N := 45%N.
Definition SLASH : N := 47%N.
Definition BACKSLASH : N := 92%N.

(** [_slug]: [None] and the empty string are falsy. *)
Definition _slug (s : option text) : text :=
  match s with
  | None | Some [] => text_of_string "all"
  | Some s =>
      str_replace BACKSLASH [HYPHEN]
        (str_replace SLASH [HYPHEN]
           (str_replace SPACE [UNDERSCORE] (strip s)))
  end.

(* ================================================================== *)
(** ** [src/main.py]: the interactive filter *)
(* ================================================================== *)

(** A table read by column name: a row gives the cell of each column.
    Only the cells of [table_columns] are read. *)
Record Table : Type := mkTable {
  table_columns : list string;
  table_rows : list (string -> Cell)
}.

(** [Series.isna] on one cell of an object column. *)
Definition cell_isna (c : Cell) : bool :=
  match c with Missing => true | _ => false end.

(** The order of Python on [str]: lexicographic on the code points. *)
Fixpoint text_leb (a b : text) : bool :=
  match a, b with
  | [], _ => true
  | _ :: _, [] => false
  | x :: a', y :: b' =>
      if (x <? y)%N then true else if (y <? x)%N then false else text_leb a' b'
  end.

Definition ELLIPSIS : text := text_of_string "...".

(** The slice [l[:stop]] of a Python list: a negative [stop] counts from
    the end, and the bounds are clipped to the list. *)
Definition slice_to {A} (stop : Z) (l : list A) : list A :=
  if (stop <? 0)%Z then take (length l - Z.to_nat (- stop)) l
  else take (Z.to_nat stop) l.

(** What a call that reads the terminal ends with: a value and the lines
    left unread, or an exception. *)
Inductive reading (A : Type) : Type :=
| Returns (a : A) (unread : list text)
| RaisesKeyError (col : string)
| RaisesEOFError.
Arguments Returns {A} a unread.
Arguments RaisesKeyError {A} col.
Arguments RaisesEOFError {A}.

Section Interactive.
Variable py_str : num -> text.
(** [str.lower] *)
Variable lower : text -> text.

(** [sorted(df[col].dropna().astype(str).unique())] *)
Definition column_options (df : Table) (col : string) : list text :=
  sort text_leb
    (remove_dups
       (map (astype_str py_str)
          (List.filter (fun c => negb (cell_isna c))
             (map (fun r => r col) (table_rows df))))).

(** [_list_options]; [limit] is a Python [int] ([main] leaves it at its
    default, 15). *)
Definition _list_options (df : Table) (col : string) (limit : Z) : list text :=
  if has_column (table_columns df) col then
    let opts := column_options df col in
    (slice_to limit opts
     ++ (if (limit <? Z.of_nat (length opts))%Z then [ELLIPSIS] else []))%list
  else [].

(** [{o.lower(): o for o in options}]: an option replaces an earlier one
    with the same key. *)
Definition options_lower (options : list text) : gmap text text :=
  foldl (fun m o => <[lower o := o]> m) ∅ options.

(** The loop of [_prompt_one_filter]; each [input()] takes one line. *)
Fixpoint prompt_loop (by_key : gmap text text) (lines : list text)
    : reading (option text) :=
  match lines with
  | [] => RaisesEOFError
  | line :: rest =>
      let val := strip line in
      if decide (val = []) then Returns None rest
      else
        match by_key !! lower val with
        | Some o => Returns (Some o) rest
        | None => prompt_loop by_key rest
        end
  end.

(** [_prompt_one_filter]; what it prints is left out. *)
Definition _prompt_one_filter (df : Table) (col : string) (lines : list text)
    : reading (option text) :=
  if has_column (table_columns df) col then
    prompt_loop (options_lower (column_options df col)) lines
  else RaisesKeyError col.

(** [out[col].astype(str) == str(v)] on one row. *)
Definition cell_equals (col : string) (v : text) (r : string -> Cell) : bool :=
  bool_decide (astype_str py_str (r col) = v).

(** [apply_filters]; [filters] lists the items of the dict in order. *)
Fixpoint apply_filters (out : Table) (filters : list (string * option text))
    : result Table :=
  match filters with
  | [] => Ok out
  | (col, None) :: rest => apply_filters out rest
  | (col, Some v) :: rest =>
      _ ← require (table_columns out) col;
      apply_filters
        (mkTable (table_columns out) (List.filter (cell_equals col v) (table_rows out)))
        rest
  end.

(** A row passes one item of the filters. *)
Definition passes (r : string -> Cell) (f : string * option text) : bool :=
  match f.2 with
  | Some v => cell_equals f.1 v r
  | None => true
  end.
End Interactive.

(** An item that selects on a column the table does not have. *)
Definition unknown_column (cols : list string) (f : string * option text) : bool :=
  match f.2 with
  | Some _ => negb (has_column cols f.1)
  | None => false
  end.

(* ================================================================== *)
(** ** [src/analysis.py] *)
(* ================================================================== *)

(** The first of the best elements of a Series: [(i, x)] is kept against
    the best [(j, y)] of what follows when [le y x]. *)
Fixpoint first_extreme {L : Type} (le : num -> num -> bool) (s : list (L * num))
    : option (L * num) :=
  match s with
  | [] => None
  | (i, x) :: rest =>
      match first_extreme le rest with
      | Some (j, y) => if le y x then Some (i, x) else Some (j, y)
      | None => Some (i, x)
      end
  end.

(** NaN read as the given value. *)
Definition fillna (d : num) (c : option num) : num := default d c.

(** [Series.idxmax()] with [skipna]: NaN is filled with -inf and the label
    of the first maximum is returned.  On an empty Series pandas raises; on
    an all-NaN Series it raises too (before version 3 it warns and returns
    a NaN label instead): [None]. *)
Definition idxmax_skipna {L : Type} (s : list (L * option num)) : option L :=
  if forallb (fun p => is_null p.2) s then None
  else fst <$> first_extreme Float.leb (map (fun p => (p.1, fillna NInf p.2)) s).

(** [Series.idxmin()]: NaN is filled with +inf. *)
Definition idxmin_skipna {L : Type} (s : list (L * option num)) : option L :=
  if forallb (fun p => is_null p.2) s then None
  else fst <$> first_extreme (fun y x => Float.leb x y)
                 (map (fun p => (p.1, fillna PInf p.2)) s).

(** [s.loc[label]] *)
Definition series_loc {L : Type} `{EqDecision L} (s : list (L * option num)) (label : L)
    : option (option num) :=
  snd <$> List.find (fun p => bool_decide (p.1 = label)) s.

(** [df.loc[label]] as one row: the label has to be that of exactly one
    row. *)
Definition loc_single (rs : list Row) (label : nat) : option Row :=
  match List.filter (fun r => (index r =? label)%nat) rs with
  | [r] => Some r
  | _ => None
  end.

(** The sum of float64 values, from 0.0. *)
Definition sum_values (xs : list num) : option num :=
  foldl (fun acc x => a ← acc; Float.add a x) (Some Float.zero) xs.

(** [sum()] and [mean()] of a group with [skipna]: an empty sum is 0.0, an
    empty mean NaN. *)
Definition sum_skipna (cells : list (option num)) : option num :=
  sum_values (dropna_values cells).

Definition mean_skipna (cells : list (option num)) : option num :=
  match dropna_values cells with
  | [] => None
  | xs => s ← sum_values xs; Float.div s (Float.of_Z (Z.of_nat (length xs)))
  end.

(** The values of the group of key [k]. *)
Definition group_values (kv : list (option string * option num)) (k : option string)
    : list (option num) :=
  map snd (List.filter (fun p => bool_decide (p.1 = k)) kv).

(** [df.groupby(key, dropna=False)[col].agg()] on the two columns, row by
    row: one entry per key, keys ascending, NaN last. *)
Definition groupby_agg (agg : list (option num) -> option num)
    (kv : list (option string * option num)) : list (option string * option num) :=
  map (fun k => (k, agg (group_values kv k))) (sort key_leb (remove_dups (map fst kv))).

(** [region_with_largest_area]; the table is given by its columns
    [region_un] and [area_km2], row by row.  [None] is an exception; the
    label is returned as it is before [str], the total before [float]. *)
Definition region_with_largest_area (df : list (option string * option num))
    : option (option string * option num) :=
  let group := groupby_agg sum_skipna df in
  region ← idxmax_skipna group;
  total ← series_loc group region;
  Some (region, total).

(** [country_highest_life_expectancy]; [None] is an exception. *)
Definition country_highest_life_expectancy (df : DataFrame)
    : option (option string * option num) :=
  if has_column (columns df) "lifeExp" && has_column (columns df) "name_long" then
    idx ← idxmax_skipna (map (fun r => (index r, lifeExp r)) (rows df));
    row ← loc_single (rows df) idx;
    Some (name_long row, lifeExp row)
  else None.

(** The mean [gdpPercap] of each subregion, without the group of the null
    key: [means[means.index.notna()]]. *)
Definition subregion_means (df : DataFrame) : list (string * option num) :=
  omap (fun p => k ← p.1; Some (k, p.2))
       (groupby_agg mean_skipna (map (fun r => (subregion r, gdpPercap r)) (rows df))).

(** [subregion_gdp_extremes]; [None] is an exception. *)
Definition subregion_gdp_extremes (df : DataFrame)
    : option (string * option num * string * option num) :=
  if has_column (columns df) "subregion" && has_column (columns df) "gdpPercap" then
    let means := subregion_means df in
    sub_min ← idxmin_skipna means;
    sub_max ← idxmax_skipna means;
    gdp_min ← series_loc means sub_min;
    gdp_max ← series_loc means sub_max;
    Some (sub_min, gdp_min, sub_max, gdp_max)
  else None.

(* ================================================================== *)
(** ** [src/io_utils.py] *)
(* ================================================================== *)

(** U+FEFF, the byte order mark. *)
Definition BOM : N := 65279%N.

(** [str.lstrip(chars)] *)
Fixpoint lstrip_chars (chars : list N) (s : text) : text :=
  match s with
  | c :: s' => if bool_decide (c ∈ chars) then lstrip_chars chars s' else s
  | [] => []
  end.

(** [_strip_bom_and_space] *)
Definition _strip_bom_and_space (s : text) : text := strip (lstrip_chars [BOM] s).

(* ================================================================== *)
(** ** Further example tables *)
(* ================================================================== *)

(** [str.lower] on ASCII letters. *)
Definition example_lower (s : text) : text :=
  map (fun c => if ((65 <=? c) && (c <=? 90))%N then (c + 32)%N else c) s.

(** The fixture [sample_df] of [tests/conftest.py]. *)
Definition sample_df : DataFrame :=
  mkDataFrame world_columns
    [ mkRow 0 (Some "AA") (Some "Alfa") (Some "Europe") (Some "Western Europe")
        (Some (Float.of_Z 1000)) (Some (Float.of_Z 1000000)) (Some (Float.of_Z 80))
        (Some (Float.of_Z 50000)) None;
      mkRow 1 (Some "BB") (Some "Bravo") (Some "Asia") (Some "Eastern Asia")
        (Some (Float.of_Z 2000)) (Some (Float.of_Z 2000000)) (Some (Float.of_Z 76))
        (Some (Float.of_Z 30000)) None;
      mkRow 2 (Some "CC") (Some "Charlie") (Some "Africa") (Some "Eastern Africa")
        (Some (Float.of_Z 3000)) (Some (Float.of_Z 3000000)) (Some (Float.of_Z 60))
        (Some (Float.of_Z 2000)) None;
      mkRow 3 (Some "DD") (Some "Delta") (Some "Africa") (Some "Western Africa")
        (Some (Float.of_Z 4000)) (Some (Float.of_Z 500000)) (Some (Float.of_Z 62))
        (Some (Float.of_Z 1800)) None ].

(** Its columns [region_un] and [area_km2]. *)
Definition sample_regions : list (option string * option num) :=
  [ (Some "Europe", Some (Float.of_Z 1000)); (Some "Asia", Some (Float.of_Z 2000));
    (Some "Africa", Some (Float.of_Z 3000)); (Some "Africa", Some (Float.of_Z 4000)) ].

(** A row of a table with the columns [continent] and [subregion]. *)
Definition example_row (cont sub : string) : string -> Cell :=
  fun col =>
    if String.eqb col "continent" then Text (text_of_string cont)
    else if String.eqb col "subregion" then Text (text_of_string sub)
    else Missing.

(** The columns [continent] and [subregion] of [sample_df]. *)
Definition sample_table : Table :=
  mkTable ["continent"; "subregion"]
    [ example_row "Europe" "Western Europe"; example_row "Asia" "Eastern Asia";
      example_row "Africa" "Eastern Africa"; example_row "Africa" "Western Africa" ].

(* ================================================================== *)
(** * Properties *)
(* ================================================================== *)

(** ** Masks and columns taken from the same rows *)

Section MaskFacts.
Context {A B : Type}.
Implicit Types (l : list A).

Lemma mask_any_map (f : A -> bool) l : mask_any (map f l) = existsb f l.
Proof. unfold mask_any. induction l as [|x l IH]; simpl; [done | by rewrite IH]. Qed.

Lemma mask_sum_map (f : A -> bool) l : mask_sum (map f l) = length (List.filter f l).
Proof.
  unfold mask_sum. induction l as [|x l IH]; simpl; [done |].
  destruct (f x); simpl; by rewrite IH.
Qed.

Lemma mask_and_map (f g : A -> bool) l :
  mask_and (map f l) (map g l) = map (fun x => f x && g x) l.
Proof. unfold mask_and. induction l as [|x l IH]; simpl; [done | by rewrite IH]. Qed.

Lemma loc_rows_map (f : A -> bool) l : loc_rows l (map f l) = List.filter f l.
Proof.
  unfold loc_rows. induction l as [|x l IH]; simpl; [done |].
  destruct (f x); simpl; by rewrite IH.
Qed.

Lemma loc_assign_map (old new : A -> B) (b : A -> bool) l :
  loc_assign (map old l) (map b l) (map new l)
  = map (fun x => if b x then new x else old x) l.
Proof. unfold loc_assign. induction l as [|x l IH]; simpl; [done | by rewrite IH]. Qed.

Lemma isna_map (f : A -> option B) l : isna (map f l) = map (fun x => is_null (f x)) l.
Proof. unfold isna. by rewrite map_map. Qed.

Lemma notna_map (f : A -> option B) l : notna (map f l) = map (fun x => not_null (f x)) l.
Proof. unfold notna. by rewrite map_map. Qed.

Lemma existsb_false_filter (f : A -> bool) l :
  existsb f l = false -> List.filter f l = [].
Proof.
  induction l as [|x l IH]; simpl; [done |].
  destruct (f x); simpl; [done | exact IH].
Qed.

Lemma existsb_false_Forall (f : A -> bool) l :
  existsb f l = false -> Forall (fun x => f x = false) l.
Proof.
  induction l as [|x l IH]; simpl; [constructor |].
  intros [? ?]%orb_false_elim. constructor; auto.
Qed.
End MaskFacts.

Lemma assign_column_map col (f : Row -> option num) (rs : list Row) :
  assign_column col rs (map f rs) = map (fun r => set_numeric_field col r (f r)) rs.
Proof. unfold assign_column. induction rs as [|r rs IH]; simpl; [done | by rewrite IH]. Qed.

Lemma zip_with_map_same {A B C D} (h : B -> C -> D) (f : A -> B) (g : A -> C) (l : list A) :
  zip_with h (map f l) (map g l) = map (fun x => h (f x) (g x)) l.
Proof. induction l as [|x l IH]; simpl; [done | by rewrite IH]. Qed.

Lemma map_ext_Forall {A B} (f g : A -> B) (l : list A) :
  Forall (fun x => f x = g x) l -> map f l = map g l.
Proof. induction 1; simpl; congruence. Qed.


Lemma not_null_Some {A} (c : option A) : not_null c = true <-> is_Some c.
Proof.
  destruct c; unfold not_null; simpl; split; try done.
Qed.

(** ** Sorting keeps the elements *)

Section SortFacts.
Context {A : Type} (le : A -> A -> bool).

Lemma insert_sorted_Permutation x (l : list A) : insert_sorted le x l ≡ₚ x :: l.
Proof.
  induction l as [|y l IH]; simpl; [done |].
  destruct (le x y); [done |].
  rewrite IH. apply Permutation_swap.
Qed.

Lemma sort_Permutation (l : list A) : sort le l ≡ₚ l.
Proof.
  induction l as [|x l IH]; simpl; [done |].
  by rewrite insert_sorted_Permutation, IH.
Qed.

Lemma sort_length (l : list A) : length (sort le l) = length l.
Proof. by rewrite sort_Permutation. Qed.

Lemma sort_Forall (P : A -> Prop) (l : list A) : Forall P l -> Forall P (sort le l).
Proof. by rewrite sort_Permutation. Qed.

Lemma sort_NoDup (l : list A) : NoDup l -> NoDup (sort le l).
Proof. by rewrite sort_Permutation. Qed.
End SortFacts.

(** ** The imputation computes the row-wise value *)

Lemma groupby_lookup (key : Row -> option string) (F : string -> option num)
    (l : list Row) (k : string) :
  (list_to_map (omap (fun r => k ← key r; Some (k, F k)) l) : gmap string (option num)) !! k
  = if bool_decide (Some k ∈ map key l) then Some (F k) else None.
Proof.
  induction l as [|r l IH]; [done |].
  cbn [omap list_omap map].
  destruct (key r) as [k'|] eqn:Hk; cbn [mbind option_bind].
  - cbn [list_to_map foldr uncurry]. destruct (decide (k' = k)) as [->|Hne].
    + rewrite lookup_insert_eq. rewrite bool_decide_eq_true_2; [done |]. constructor.
    + rewrite lookup_insert_ne by done. rewrite IH.
      apply (f_equal (fun b : bool => if b then Some (F k) else None)).
      apply bool_decide_ext. rewrite elem_of_cons.
      split; [by right | intros [?|?]; [congruence | done]].
  - rewrite IH.
    apply (f_equal (fun b : bool => if b then Some (F k) else None)).
    apply bool_decide_ext. rewrite elem_of_cons.
    split; [by right | intros [?|?]; [congruence | done]].
Qed.

Lemma groupby_median_lookup g col (rs : list Row) (k : string) :
  groupby_median (group_field g) (numeric_field col) rs !! k
  = if bool_decide (Some k ∈ map (group_field g) rs)
    then Some (group_median g col rs k) else None.
Proof. unfold groupby_median, group_median. apply (groupby_lookup _ (fun k => median _)). Qed.

(** On a row of the table, the test [isin(med.index)] says nothing more than
    [notna()], and [map(med)] reads the group median. *)
Lemma tier_mask_row g col (rs : list Row) (r : Row) (v : option num) :
  r ∈ rs ->
  let med := groupby_median (group_field g) (numeric_field col) rs in
  (is_null v && not_null (group_field g r) && isin_index med (group_field g r)
   = is_null v && not_null (group_field g r))
  /\ (if is_null v && not_null (group_field g r)
      then map_series med (group_field g r) else v) = tier_value g col rs r v.
Proof.
  intros Hin med. unfold tier_value, isin_index, map_series, not_null.
  destruct (group_field g r) as [k|] eqn:Hk; simpl.
  - assert (Hl : med !! k = Some (group_median g col rs k)).
    { subst med. rewrite groupby_median_lookup.
      rewrite bool_decide_eq_true_2; [done |].
      rewrite <- Hk. apply list_elem_of_In, in_map, list_elem_of_In, Hin. }
    rewrite Hl. simpl. destruct v; simpl; done.
  - destruct v; simpl; done.
Qed.

Lemma impute_tier_spec (df : DataFrame) col g (f : Row -> option num) :
  has_column (columns df) g = true ->
  impute_tier df col g (map f (rows df)) (isna (map f (rows df)))
  = Ok (map (fun r => tier_value g col (rows df) r (f r)) (rows df),
        length (List.filter (tier_counted g f) (rows df)),
        isna (map (fun r => tier_value g col (rows df) r (f r)) (rows df))).
Proof.
  intros Hg. unfold impute_tier, require. rewrite Hg. simpl.
  set (rs := rows df).
  set (med := groupby_median (group_field g) (numeric_field col) rs).
  rewrite isna_map, notna_map, !map_map, !mask_and_map.
  assert (Hidx : map (fun r => is_null (f r) && not_null (group_field g r)
                               && isin_index med (group_field g r)) rs
                 = map (tier_counted g f) rs).
  { apply map_ext_Forall, Forall_forall. intros r Hr.
    apply (tier_mask_row g col rs r (f r) Hr). }
  rewrite Hidx, loc_assign_map, mask_sum_map.
  assert (Hval : map (fun r => if tier_counted g f r
                               then map_series med (group_field g r) else f r) rs
                 = map (fun r => tier_value g col rs r (f r)) rs).
  { apply map_ext_Forall, Forall_forall. intros r Hr.
    apply (tier_mask_row g col rs r (f r) Hr). }
  by rewrite Hval.
Qed.

Lemma filter_none {A} (p : A -> bool) (l : list A) :
  Forall (fun x => p x = false) l -> List.filter p l = [].
Proof. induction 1 as [|x l Hx _ IH]; simpl; [done | by rewrite Hx]. Qed.

(** From a fact about every row to another fact about every row. *)
Tactic Notation "each_row" constr(H) "as" ident(r) simple_intropattern(p) :=
  eapply Forall_impl; [exact H |]; cbn beta; intros r p.

Lemma imputation_spec (df : DataFrame) col :
  has_column (columns df) col = true ->
  has_column (columns df) "subregion" = true ->
  has_column (columns df) "continent" = true ->
  _imputation_groupwise_median df col ["subregion"; "continent"]
  = Ok (map (impute_value col (rows df)) (rows df), impute_counts col (rows df)).
Proof.
  intros Hc Hs Hk. unfold _imputation_groupwise_median, require. rewrite Hc.
  cbn [mbind result_bind].
  set (rs := rows df). set (c := numeric_field col).
  rewrite isna_map, mask_any_map.
  destruct (existsb (fun x => is_null (c x)) rs) eqn:Hany; cbn [negb].
  2:{ pose proof (existsb_false_Forall _ _ Hany) as Hall. cbn beta in Hall.
      assert (Hsome : Forall (fun r => after_continent col rs r = c r /\ is_Some (c r)) rs).
      { each_row Hall as r Hr.
        unfold after_continent, after_subregion. fold c.
        destruct (c r); [by eauto | discriminate]. }
      f_equal. f_equal.
      - apply map_ext_Forall. each_row Hsome as r [Hr [x Hx]]. unfold impute_value. rewrite Hr, Hx. done.
      - unfold impute_counts. fold c.
        rewrite !filter_none; [done | | |].
        + each_row Hsome as r [-> [x ->]]. done.
        + each_row Hall as r Hr.
          unfold tier_counted, after_subregion. fold c.
          destruct (c r); [done | discriminate].
        + each_row Hall as r Hr.
          unfold tier_counted. by rewrite Hr. }
  rewrite !bool_decide_eq_true_2 by (rewrite !elem_of_cons; auto).
  rewrite <- (isna_map c rs).
  rewrite impute_tier_spec by done. cbn [mbind result_bind andb].
  fold rs. fold c. change (fun r => tier_value "subregion" col rs r (c r)) with (after_subregion col rs).
  rewrite isna_map, mask_any_map.
  assert (Htier2 :
    (if existsb (fun x => is_null (after_subregion col rs x)) rs
     then impute_tier df col "continent" (map (after_subregion col rs) rs)
            (map (fun x => is_null (after_subregion col rs x)) rs)
     else Ok (map (after_subregion col rs) rs, 0%nat,
              map (fun x => is_null (after_subregion col rs x)) rs))
    = Ok (map (after_continent col rs) rs,
          length (List.filter (tier_counted "continent" (after_subregion col rs)) rs),
          map (fun x => is_null (after_continent col rs x)) rs)).
  { clear Hany. destruct (existsb (fun x => is_null (after_subregion col rs x)) rs) eqn:Hany2.
    - rewrite <- (isna_map (after_subregion col rs) rs).
      rewrite impute_tier_spec by done. fold rs.
      by rewrite isna_map.
    - pose proof (existsb_false_Forall _ _ Hany2) as Hall. cbn beta in Hall.
      assert (Heq : Forall (fun r => after_continent col rs r = after_subregion col rs r) rs).
      { each_row Hall as r Hr. unfold after_continent.
        destruct (after_subregion col rs r); [done | discriminate]. }
      rewrite filter_none.
      2:{ each_row Hall as r Hr. unfold tier_counted. by rewrite Hr. }
      simpl. do 2 f_equal.
      + f_equal. symmetry. by apply map_ext_Forall.
      + symmetry. apply map_ext_Forall. each_row Heq as r Hr. cbn beta. by rewrite Hr. }
  rewrite Htier2. cbn [mbind result_bind].
  rewrite mask_any_map, mask_sum_map.
  fold (global_median col rs).
  clear Hany Htier2. destruct (existsb (fun x => is_null (after_continent col rs x)) rs) eqn:Hany3.
  - rewrite loc_assign_map. unfold impute_counts. fold c. f_equal. f_equal.
    apply map_ext. intros r. unfold impute_value.
    destruct (after_continent col rs r); done.
  - pose proof (existsb_false_Forall _ _ Hany3) as Hall. cbn beta in Hall.
    unfold impute_counts. fold c. rewrite (filter_none (fun r => is_null _)) by done.
    f_equal. f_equal. apply map_ext_Forall. each_row Hall as r Hr. unfold impute_value. destruct (after_continent col rs r); [done | discriminate].
Qed.

(** ** Order facts on float values *)

Lemma Qle_bool_false (a b : Q) : Qle_bool a b = false <-> b < a.
Proof.
  rewrite <- not_true_iff_false, Qle_bool_iff. split; [apply Qnot_le_lt | apply Qlt_not_le].
Qed.

Lemma ltb_zero_positive (x : num) : Float.ltb Float.zero x = true <-> positive x.
Proof.
  unfold Float.ltb, Float.zero. destruct x as [q| |]; simpl; [| done | done].
  rewrite negb_true_iff. apply Qle_bool_false.
Qed.

Lemma cell_gt_zero (c : option num) :
  Float.cell_gt c Float.zero = true <-> exists x, c = Some x /\ positive x.
Proof.
  destruct c as [x|]; simpl.
  - rewrite ltb_zero_positive. split; [eauto | by intros [? [[= <-] ?]]].
  - split; [done | by intros [? [? ?]]].
Qed.

Lemma nonpositive_false (c : option num) :
  nonpositive c = false <-> c = None \/ exists x, c = Some x /\ positive x.
Proof.
  unfold nonpositive. destruct c as [x|]; simpl.
  - fold (Float.ltb Float.zero x). rewrite <- negb_true_iff. fold (Float.ltb Float.zero x).
    rewrite ltb_zero_positive. split; [eauto | by intros [? | [? [[= <-] ?]]]].
  - split; [auto | done].
Qed.

Lemma out_of_range_false (r : Row) :
  out_of_range r = false <->
  lifeExp r = None \/ exists x, lifeExp r = Some x /\ in_life_range x.
Proof.
  unfold out_of_range. rewrite orb_false_iff.
  destruct (lifeExp r) as [x|]; simpl; [| split; [auto | done]].
  split.
  - intros [H1 H2]. right. exists x. split; [done |].
    destruct x as [q| |]; simpl in *; try discriminate.
    apply Qle_bool_false in H1, H2. done.
  - intros [? | [y [[= <-] Hy]]]; [done |].
    destruct x as [q| |]; simpl in *; try done.
    destruct Hy. by rewrite !Qle_bool_false.
Qed.

Lemma positive_mean (a b : num) :
  positive a -> positive b -> exists c, Float.add a b = Some c /\ positive (Float.half c).
Proof.
  destruct a as [p| |], b as [q| |]; simpl; try done; intros Ha Hb; eexists; split; try done.
  simpl. rewrite !Qred_correct. apply Qlt_shift_div_l; lra.
Qed.

Lemma in_life_range_mean (a b : num) :
  in_life_range a -> in_life_range b ->
  exists c, Float.add a b = Some c /\ in_life_range (Float.half c).
Proof.
  destruct a as [p| |], b as [q| |]; simpl; try done; intros [? ?] [? ?].
  eexists; split; [done |]. simpl. rewrite !Qred_correct. split.
  - apply Qlt_shift_div_l; lra.
  - apply Qlt_shift_div_r; lra.
Qed.

(** ** The median stays inside any set closed under means *)

Section Median.
Variable P : num -> Prop.
Hypothesis P_mean : forall a b, P a -> P b -> exists c, Float.add a b = Some c /\ P (Float.half c).

Lemma median_closed (xs : list num) :
  Forall P xs -> xs <> [] -> exists m, median xs = Some m /\ P m.
Proof using P_mean.
  intros HP Hne. unfold median.
  pose proof (sort_Forall Float.leb P xs HP) as HPs.
  pose proof (sort_length Float.leb xs) as Hlen.
  set (s := sort Float.leb xs) in *.
  assert (Hpos : (0 < length s)%nat).
  { rewrite Hlen. destruct xs; [done | simpl; lia]. }
  destruct (length s) as [|n] eqn:Hn; [lia |]. rewrite <- Hn.
  assert (Hmid : (length s / 2 < length s)%nat) by (apply Nat.div_lt; lia).
  destruct (lookup_lt_is_Some_2 s _ Hmid) as [b Hb].
  destruct (Nat.odd (length s)).
  - exists b. split; [done |]. by eapply Forall_lookup_1.
  - assert (Hlow : (length s / 2 - 1 < length s)%nat) by lia.
    destruct (lookup_lt_is_Some_2 s _ Hlow) as [a Ha].
    rewrite Ha, Hb.
    destruct (P_mean a b) as [c [Hc HPc]];
      [by eapply Forall_lookup_1 | by eapply Forall_lookup_1 |].
    rewrite Hc. simpl. eauto.
Qed.

Lemma median_in (xs : list num) (m : num) :
  Forall P xs -> median xs = Some m -> P m.
Proof using P_mean.
  intros HP Hm. destruct xs as [|x xs]; [done |].
  destruct (median_closed (x :: xs) HP) as [m' [Hm' HPm]]; [done |].
  congruence.
Qed.
End Median.

(** ** The steps of the pipeline, one by one *)

Lemma has_required_columns_elim (df_raw : RawFrame) :
  has_required_columns df_raw = true ->
  Forall (fun c => has_column (raw_columns df_raw) c = true) REQUIRED_COLS.
Proof.
  intros H. apply Forall_forall. intros c Hc%list_elem_of_In.
  unfold has_required_columns in H. rewrite forallb_forall in H. auto.
Qed.

Lemma step_A_ok (df_raw : RawFrame) :
  has_column (raw_columns df_raw) "iso_a2" = true ->
  has_column (raw_columns df_raw) "name_long" = true ->
  step_A df_raw = Ok (rows_A df_raw).
Proof.
  intros H1 H2. unfold step_A, absent_columns, IDENTIFIER_COLS. simpl.
  by rewrite H1, H2.
Qed.

Section StepB.
Variable py_str : num -> text.
Variable parse_float : text -> option num.

Lemma convert_column_map {A} (df_raw : RawFrame) col (f : A -> Cell) (l : list A) :
  convert_column py_str parse_float df_raw col (map f l)
  = map (fun x => coerce_cell py_str parse_float df_raw col (f x)) l.
Proof.
  unfold convert_column, coerce_cell, _to_numeric_safe. simpl.
  destruct (has_column _ col); [| by rewrite map_map].
  destruct (raw_dtype df_raw col); by rewrite map_map.
Qed.

Lemma step_B_rows (df_raw : RawFrame) (rs : list (nat * RawRow)) :
  step_B py_str parse_float df_raw rs
  = mkDataFrame (raw_columns df_raw) (map (coerce_row py_str parse_float df_raw) rs).
Proof.
  unfold step_B. rewrite !convert_column_map. f_equal.
  induction rs as [|ir rs IH]; simpl; [done |]. by rewrite IH.
Qed.
End StepB.

Lemma step_C_drop_ok (df : DataFrame) :
  has_column (columns df) "pop" = true ->
  has_column (columns df) "area_km2" = true ->
  has_column (columns df) "gdpPercap" = true ->
  step_C_drop df
  = Ok (mkDataFrame (columns df) (List.filter (fun r => negb (invalid_mask r)) (rows df))).
Proof.
  intros H1 H2 H3. unfold step_C_drop, require. rewrite H1, H2, H3. simpl.
  by rewrite loc_rows_map.
Qed.

Lemma step_C_bound_ok (df : DataFrame) :
  has_column (columns df) "lifeExp" = true ->
  step_C_bound df
  = Ok (mkDataFrame (columns df) (map bound_lifeExp (rows df)), range_counter (rows df)).
Proof.
  intros H. unfold step_C_bound, require, range_counter. rewrite H. simpl.
  rewrite mask_any_map, mask_sum_map.
  destruct (existsb out_of_range (rows df)) eqn:Hany.
  - rewrite loc_assign_map, assign_column_map. do 3 f_equal.
    apply map_ext. intros r. unfold bound_lifeExp.
    destruct (out_of_range r); [done |]. by destruct r.
  - destruct df as [cols rs]. simpl in *. do 3 f_equal.
    symmetry. rewrite <- (map_id rs) at 2. apply map_ext_Forall.
    each_row (existsb_false_Forall _ _ Hany) as r Hr.
    unfold bound_lifeExp. by rewrite Hr.
Qed.

Lemma impute_column_ok (df : DataFrame) col :
  has_column (columns df) col = true ->
  has_column (columns df) "subregion" = true ->
  has_column (columns df) "continent" = true ->
  impute_column df col
  = Ok (mkDataFrame (columns df) (impute_rows col (rows df)),
        Some (impute_counts col (rows df))).
Proof.
  intros Hc Hs Hk. unfold impute_column. rewrite Hc.
  rewrite imputation_spec by done. simpl.
  by rewrite assign_column_map.
Qed.

Lemma step_E_ok (df : DataFrame) :
  has_column (columns df) "area_km2" = true ->
  has_column (columns df) "pop" = true ->
  step_E df = Ok (mkDataFrame (columns df) (List.filter has_area_and_pop (rows df))).
Proof.
  intros H1 H2. unfold step_E, absent_columns. simpl. by rewrite H1, H2.
Qed.

Lemma step_G_ok (df : DataFrame) :
  has_column (columns df) "pop" = true ->
  has_column (columns df) "area_km2" = true ->
  step_G df = Ok (mkDataFrame (output_columns (columns df)) (map with_density (rows df))).
Proof.
  intros H1 H2. unfold step_G, require. rewrite H1, H2. simpl.
  by rewrite zip_with_map_same, assign_column_map.
Qed.

(** ** Deduplication *)

Lemma idxmax_first_max (counts : list (nat * nat)) :
  counts <> [] ->
  exists i n pre post,
    idxmax counts = Some (i, n) /\ counts = (pre ++ (i, n) :: post)%list
    /\ Forall (fun jm => jm.2 < n)%nat pre /\ Forall (fun jm => jm.2 <= n)%nat post.
Proof.
  induction counts as [|[i n] rest IH]; [done |]. intros _. simpl.
  destruct rest as [|c rest'].
  - exists i, n, [], []. simpl. repeat split; constructor.
  - destruct IH as (j & m & pre & post & Hmax & Hsplit & Hpre & Hpost); [done |].
    rewrite Hmax. destruct (m <=? n)%nat eqn:Hle.
    + apply Nat.leb_le in Hle. exists i, n, [], (c :: rest').
      repeat split; [constructor |]. rewrite Hsplit.
      apply Forall_app. split.
      * eapply Forall_impl; [exact Hpre |]. simpl. lia.
      * constructor; [simpl; lia |]. eapply Forall_impl; [exact Hpost |]. simpl. lia.
    + apply Nat.leb_gt in Hle. exists j, m, ((i, n) :: pre), post.
      repeat split; [by rewrite Hsplit | | done].
      constructor; [simpl; lia | done].
Qed.

Lemma loc_label_found (rs : list Row) (r : Row) :
  r ∈ rs -> exists r', loc_label rs (index r) = Some r' /\ r' ∈ rs /\ index r' = index r.
Proof.
  intros Hin. unfold loc_label.
  destruct (List.find (fun r0 => (index r0 =? index r)%nat) rs) as [r'|] eqn:Hf.
  - apply find_some in Hf as [Hin' Heq]. apply Nat.eqb_eq in Heq.
    exists r'. by rewrite <- list_elem_of_In in Hin'.
  - apply list_elem_of_In in Hin. eapply find_none in Hf; [| exact Hin].
    simpl in Hf. by rewrite Nat.eqb_refl in Hf.
Qed.

Lemma loc_label_unique (rs : list Row) (r : Row) :
  NoDup (map index rs) -> r ∈ rs -> loc_label rs (index r) = Some r.
Proof.
  intros Hnd Hin. destruct (loc_label_found rs r Hin) as (r' & Hf & Hin' & Heq).
  rewrite Hf. f_equal.
  apply list_elem_of_lookup in Hin as [a Ha], Hin' as [b Hb].
  assert (a = b) as ->; [| congruence].
  eapply NoDup_lookup; [exact Hnd | |].
  - change (map index rs) with (index <$> rs). rewrite list_lookup_fmap, Ha. done.
  - change (map index rs) with (index <$> rs). rewrite list_lookup_fmap, Hb. simpl. by rewrite Heq.
Qed.

(** The row chosen in a group is one of its rows ... *)
Lemma choose_row_in (rs : list Row) (cols : list string) :
  rs <> [] -> exists r, _choose_row_with_more_non_nulls rs cols = Ok r /\ r ∈ rs.
Proof.
  intros Hne. unfold _choose_row_with_more_non_nulls.
  set (counts := map (fun r => (index r, non_null_count cols r)) rs).
  destruct (idxmax_first_max counts) as (i & n & pre & post & Hmax & Hsplit & _).
  { subst counts. by destruct rs. }
  rewrite Hmax.
  assert (Hin : (i, n) ∈ counts) by (rewrite Hsplit; set_solver).
  apply list_elem_of_In, in_map_iff in Hin as (r & [= <- <-] & Hr%list_elem_of_In).
  destruct (loc_label_found rs r Hr) as (r' & -> & Hr' & _). eauto.
Qed.

(** ... and, index labels being distinct, the first one among those with
    the most non-null values. *)
Lemma choose_row_first_max (rs : list Row) (cols : list string) :
  NoDup (map index rs) -> rs <> [] ->
  exists r pre post,
    _choose_row_with_more_non_nulls rs cols = Ok r /\ rs = (pre ++ r :: post)%list
    /\ Forall (fun x => non_null_count cols x < non_null_count cols r)%nat pre
    /\ Forall (fun x => non_null_count cols x <= non_null_count cols r)%nat post.
Proof.
  intros Hnd Hne. unfold _choose_row_with_more_non_nulls.
  set (counts := map (fun r => (index r, non_null_count cols r)) rs).
  destruct (idxmax_first_max counts) as (i & n & pre & post & Hmax & Hsplit & Hpre & Hpost).
  { subst counts. by destruct rs. }
  rewrite Hmax. subst counts.
  apply map_eq_app in Hsplit as (rpre & rrest & -> & <- & Hrest).
  apply map_eq_cons in Hrest as (r & rpost & -> & [= <- <-] & <-).
  rewrite loc_label_unique; [| done | set_solver].
  exists r, rpre, rpost. repeat split.
  - rewrite Forall_map in Hpre. exact Hpre.
  - rewrite Forall_map in Hpost. exact Hpost.
Qed.

Lemma mapM_result_Forall2 {A B} (f : A -> result B) (R : A -> B -> Prop) (l : list A) :
  Forall (fun x => exists y, f x = Ok y /\ R x y) l ->
  exists ys, mapM f l = Ok ys /\ Forall2 R l ys.
Proof.
  induction 1 as [|x l (y & Hy & HR) _ (ys & Hys & HRs)]; simpl.
  - exists []. split; [done | constructor].
  - exists (y :: ys). rewrite Hy. simpl. rewrite Hys. split; [done | by constructor].
Qed.

Lemma keep_row_in (group : list Row) :
  group <> [] -> exists r, keep_row group = Ok r /\ r ∈ group.
Proof.
  intros Hne. unfold keep_row.
  destruct group as [|r [|r' rest]]; [done | | by apply choose_row_in].
  exists r. split; [done | set_solver].
Qed.

Lemma iso_group_elem (k : option string) (rs : list Row) (r : Row) :
  r ∈ iso_group k rs <-> r ∈ rs /\ iso_a2 r = k.
Proof.
  unfold iso_group. rewrite list_elem_of_In, filter_In, <- list_elem_of_In.
  by rewrite bool_decide_eq_true.
Qed.

Lemma group_keys_elem (rs : list Row) (k : option string) :
  k ∈ group_keys rs <-> k ∈ map iso_a2 rs.
Proof. unfold group_keys. by rewrite sort_Permutation, elem_of_remove_dups. Qed.

Lemma group_keys_NoDup (rs : list Row) : NoDup (group_keys rs).
Proof. apply sort_NoDup, NoDup_remove_dups. Qed.

(** Step F never raises: every group has a row to keep. *)
Lemma kept_rows_ok (rs : list Row) :
  exists kept, kept_rows rs = Ok kept
    /\ Forall2 (fun k r => r ∈ rs /\ iso_a2 r = k) (group_keys rs) kept.
Proof.
  unfold kept_rows. apply mapM_result_Forall2, Forall_forall.
  intros k Hk%group_keys_elem.
  apply list_elem_of_In, in_map_iff in Hk as (r0 & Hr0 & Hin%list_elem_of_In).
  destruct (keep_row_in (iso_group k rs)) as (r & Hr & Hg).
  { intros Hnil. assert (r0 ∈ iso_group k rs) as Hx by by apply iso_group_elem.
    rewrite Hnil in Hx. by apply elem_of_nil in Hx. }
  exists r. split; [done |]. by apply iso_group_elem.
Qed.

Lemma map_imap_inv {A B C} (g : B -> C) (h : A -> C) (l : list A) :
  forall f : nat -> A -> B, (forall i x, g (f i x) = h x) -> map g (imap f l) = map h l.
Proof.
  induction l as [|x l IH]; intros f Hf; simpl; [done |].
  rewrite Hf. f_equal. apply IH. intros i y. apply Hf.
Qed.

Lemma set_index_same (r : Row) : set_index (index r) r = r.
Proof. by destruct r. Qed.

Lemma Forall2_fmap_eq {A B} (g : B -> A) (l : list A) (k : list B) :
  Forall2 (fun a b => g b = a) l k -> map g k = l.
Proof. induction 1; simpl; congruence. Qed.

(** What step F returns: one row for each [iso_a2] of the table, taken from
    the table (up to its index label). *)
Lemma step_F_ok (cols : list string) (rs : list Row) :
  has_column cols "iso_a2" = true ->
  exists kept,
    step_F (mkDataFrame cols rs) = Ok (mkDataFrame cols kept)
    /\ NoDup (map iso_a2 kept)
    /\ Forall (fun r' => exists i r, r ∈ rs /\ r' = set_index i r) kept
    /\ (forall k, k ∈ map iso_a2 kept <-> k ∈ map iso_a2 rs).
Proof.
  intros Hc. unfold step_F, require. cbn [columns rows]. rewrite Hc.
  cbn [mbind result_bind].
  destruct (bool_decide (NoDup (map iso_a2 rs))) eqn:Hdup; cbn [negb].
  - apply bool_decide_eq_true in Hdup. exists rs. repeat split; try done.
    apply Forall_forall. intros r Hr. exists (index r), r. by rewrite set_index_same.
  - destruct (kept_rows_ok rs) as (kept & -> & HF). cbn [mbind result_bind].
    assert (Hkeys : map iso_a2 kept = group_keys rs).
    { apply Forall2_fmap_eq. eapply Forall2_impl; [exact HF |]. by intros ? ? [? ?]. }
    assert (Hiso : map iso_a2 (reset_index kept) = map iso_a2 kept).
    { unfold reset_index. by apply map_imap_inv. }
    exists (reset_index kept). split; [done |]. rewrite Hiso, Hkeys.
    split; [apply group_keys_NoDup |]. split; [| intros k; apply group_keys_elem].
    apply Forall_forall. intros r' Hr'. unfold reset_index in Hr'.
    apply elem_of_lookup_imap in Hr' as (i & r & -> & Hl).
    exists i, r. split; [| done].
    apply list_elem_of_lookup_2 in Hl.
    assert (Hall : Forall (fun r => r ∈ rs) kept).
    { eapply Forall2_Forall_r; [exact HF |]. apply Forall_forall. by intros ? _ ? [? _]. }
    rewrite Forall_forall in Hall. auto.
Qed.

(** ** The whole pipeline on a table with the required columns *)

Section Whole.
Variable py_str : num -> text.
Variable parse_float : text -> option num.

Lemma clean_world_data_ok (df_raw : RawFrame) (generate_report : bool) :
  has_required_columns df_raw = true ->
  exists kept,
    step_F (mkDataFrame (raw_columns df_raw) (rows_E py_str parse_float df_raw))
      = Ok (mkDataFrame (raw_columns df_raw) kept)
    /\ clean_world_data py_str parse_float df_raw generate_report
       = Ok (mkDataFrame (output_columns (raw_columns df_raw)) (map with_density kept),
             report_of py_str parse_float df_raw generate_report kept).
Proof.
  intros Hreq%has_required_columns_elim.
  unfold REQUIRED_COLS, IDENTIFIER_COLS, NUMERIC_COLS, GROUP_COLS in Hreq. simpl in Hreq.
  repeat match goal with H : Forall _ (_ :: _) |- _ => apply Forall_cons in H as [? H] end.
  destruct (step_F_ok (raw_columns df_raw) (rows_E py_str parse_float df_raw)) as (kept & HF & _); [done |].
  exists kept. split; [done |].
  unfold clean_world_data. rewrite step_A_ok by done. cbn [mbind result_bind].
  rewrite step_B_rows. fold (rows_B py_str parse_float df_raw).
  rewrite step_C_drop_ok by done. cbn [mbind result_bind columns rows].
  fold (rows_C_drop py_str parse_float df_raw).
  rewrite step_C_bound_ok by done. cbn [mbind result_bind columns rows].
  fold (rows_C py_str parse_float df_raw).
  rewrite impute_column_ok by done. cbn [mbind result_bind columns rows].
  rewrite impute_column_ok by done. cbn [mbind result_bind columns rows].
  fold (rows_D py_str parse_float df_raw).
  rewrite step_E_ok by done. cbn [mbind result_bind columns rows].
  fold (rows_E py_str parse_float df_raw). rewrite HF. cbn [mbind result_bind columns rows].
  rewrite step_G_ok by done. cbn [mbind result_bind columns rows].
  by rewrite length_map.
Qed.
End Whole.

(** ** Invariants of the rows *)

Lemma nonpositive_null_or (c : option num) : nonpositive c = false <-> null_or positive c.
Proof.
  rewrite nonpositive_false. unfold null_or. split.
  - intros [-> | (x & -> & Hx)]; [done |]. by intros ? [= <-].
  - intros H. destruct c as [x|]; [right; eauto | by left].
Qed.

Lemma out_of_range_null_or (r : Row) :
  out_of_range r = false <-> null_or in_life_range (lifeExp r).
Proof.
  rewrite out_of_range_false. unfold null_or. split.
  - intros [-> | (x & -> & Hx)]; [done |]. by intros ? [= <-].
  - intros H. destruct (lifeExp r) as [x|]; [right; eauto | by left].
Qed.

Lemma invalid_mask_false (r : Row) :
  invalid_mask r = false <->
  null_or positive (pop r) /\ null_or positive (area_km2 r) /\ null_or positive (gdpPercap r).
Proof.
  unfold invalid_mask. rewrite !orb_false_iff, !nonpositive_null_or. tauto.
Qed.

Section RowFacts.
Variable py_str : num -> text.
Variable parse_float : text -> option num.

Lemma rows_A_elem (df_raw : RawFrame) (ir : nat * RawRow) :
  ir ∈ rows_A df_raw <-> ir ∈ with_index (raw_rows df_raw) /\ has_identifiers ir = true.
Proof. unfold rows_A. by rewrite list_elem_of_In, filter_In, <- list_elem_of_In. Qed.

Lemma rows_C_drop_elem (df_raw : RawFrame) (r : Row) :
  r ∈ rows_C_drop py_str parse_float df_raw
  <-> r ∈ rows_B py_str parse_float df_raw /\ invalid_mask r = false.
Proof.
  unfold rows_C_drop. rewrite list_elem_of_In, filter_In, <- list_elem_of_In.
  by rewrite negb_true_iff.
Qed.

Lemma rows_B_identifiers (df_raw : RawFrame) :
  Forall (fun r => is_Some (iso_a2 r) /\ is_Some (name_long r))
         (rows_B py_str parse_float df_raw).
Proof.
  unfold rows_B. rewrite Forall_map. apply Forall_forall.
  intros ir [_ Hid]%rows_A_elem. unfold has_identifiers in Hid.
  apply andb_true_iff in Hid as [H1 H2]. simpl.
  by rewrite <- !not_null_Some.
Qed.

Lemma bound_lifeExp_fields (r : Row) :
  let r' := bound_lifeExp r in
  index r' = index r /\ iso_a2 r' = iso_a2 r /\ name_long r' = name_long r
  /\ continent r' = continent r /\ subregion r' = subregion r
  /\ area_km2 r' = area_km2 r /\ pop r' = pop r /\ gdpPercap r' = gdpPercap r
  /\ pop_density r' = pop_density r
  /\ lifeExp r' = (if out_of_range r then None else lifeExp r).
Proof. unfold bound_lifeExp. destruct (out_of_range r); by destruct r. Qed.

(** The table imputation starts from holds filtered rows only. *)
Lemma rows_C_filtered (df_raw : RawFrame) :
  Forall filtered_row (rows_C py_str parse_float df_raw).
Proof.
  unfold rows_C. rewrite Forall_map. apply Forall_forall.
  intros r [HB Hinv]%rows_C_drop_elem.
  pose proof (rows_B_identifiers df_raw) as Hids. rewrite Forall_forall in Hids.
  destruct (Hids r HB) as [Hi Hn].
  apply invalid_mask_false in Hinv as (Hp & Ha & Hg).
  destruct (bound_lifeExp_fields r) as (_ & E1 & E2 & _ & _ & E3 & E4 & E5 & _ & E6).
  constructor; rewrite ?E1, ?E2, ?E3, ?E4, ?E5, ?E6; try done.
  destruct (out_of_range r) eqn:Ho; [done |]. by apply out_of_range_null_or.
Qed.
End RowFacts.

(** *** Imputed values *)

Lemma dropna_values_Forall (P : num -> Prop) (c : Row -> option num) (rs : list Row) :
  Forall (fun r => null_or P (c r)) rs -> Forall P (dropna_values (map c rs)).
Proof.
  induction 1 as [|r rs Hr _ IH]; simpl; [constructor |].
  unfold dropna_values in *. simpl. destruct (c r) as [x|] eqn:E; simpl; [| done].
  constructor; [by apply Hr | done].
Qed.

Lemma dropna_values_nonempty (c : Row -> option num) (rs : list Row) (r : Row) :
  r ∈ rs -> is_Some (c r) -> dropna_values (map c rs) <> [].
Proof.
  intros Hin [x Hx]. unfold dropna_values.
  assert (x ∈ omap id (map c rs)); [| by destruct (omap id (map c rs)); [set_solver |]].
  apply list_elem_of_omap. exists (Some x). split; [| done].
  rewrite <- Hx. apply list_elem_of_In, in_map, list_elem_of_In, Hin.
Qed.

Lemma dropna_values_empty (c : Row -> option num) (rs : list Row) :
  Forall (fun r => c r = None) rs -> dropna_values (map c rs) = [].
Proof.
  induction 1 as [|r rs Hr _ IH]; [done |].
  unfold dropna_values in *. simpl. by rewrite Hr.
Qed.

Section Imputed.
Variable P : num -> Prop.
Hypothesis P_mean : forall a b, P a -> P b -> exists c, Float.add a b = Some c /\ P (Float.half c).
Variable col : string.
Variable rs : list Row.
Hypothesis P_rs : Forall (fun r => null_or P (numeric_field col r)) rs.

Lemma group_median_closed g k : null_or P (group_median g col rs k).
Proof using P_mean P_rs.
  intros m Hm. unfold group_median in Hm.
  eapply (median_in P P_mean); [| exact Hm].
  apply dropna_values_Forall. unfold group_rows.
  apply Forall_forall. intros r Hr%list_elem_of_In. apply filter_In in Hr as [Hr%list_elem_of_In _].
  rewrite Forall_forall in P_rs. auto.
Qed.

Lemma global_median_closed : null_or P (global_median col rs).
Proof using P_mean P_rs.
  intros m Hm. eapply (median_in P P_mean); [| exact Hm].
  by apply dropna_values_Forall.
Qed.

(** An imputed value has whatever property the values of the column have,
    as long as means keep it. *)
Lemma impute_value_closed (r : Row) :
  null_or P (numeric_field col r) -> null_or P (impute_value col rs r).
Proof using P_mean P_rs.
  intros Hr x. unfold impute_value, after_continent, after_subregion, tier_value.
  destruct (numeric_field col r) as [v|] eqn:Hv.
  - intros [= <-]. by apply Hr.
  - destruct (group_field "subregion" r) as [k|].
    + destruct (group_median "subregion" col rs k) as [m|] eqn:Hm.
      * intros [= <-]. by eapply group_median_closed.
      * destruct (group_field "continent" r) as [k'|].
        -- destruct (group_median "continent" col rs k') as [m|] eqn:Hm'.
           ++ intros [= <-]. by eapply group_median_closed.
           ++ apply global_median_closed.
        -- apply global_median_closed.
    + destruct (group_field "continent" r) as [k'|].
      * destruct (group_median "continent" col rs k') as [m|] eqn:Hm'.
        -- intros [= <-]. by eapply group_median_closed.
        -- apply global_median_closed.
      * apply global_median_closed.
Qed.

(** One value in the column is enough for the global tier to fill every
    row. *)
Lemma impute_value_total (r0 r : Row) :
  r0 ∈ rs -> is_Some (numeric_field col r0) -> is_Some (impute_value col rs r).
Proof using P_mean P_rs.
  intros Hin Hsome.
  destruct (median_closed P P_mean (dropna_values (map (numeric_field col) rs)))
    as (m & Hm & _).
  { by apply dropna_values_Forall. }
  { by eapply dropna_values_nonempty. }
  unfold impute_value. destruct (after_continent col rs r); [by eexists |].
  unfold global_median. rewrite Hm. by eexists.
Qed.
End Imputed.

(** Without any value in the column nothing is filled. *)
Lemma impute_value_none col (rs : list Row) (r : Row) :
  Forall (fun r => numeric_field col r = None) rs -> r ∈ rs -> impute_value col rs r = None.
Proof.
  intros Hall Hin.
  assert (Hg : global_median col rs = None).
  { unfold global_median. by rewrite dropna_values_empty. }
  assert (Hk : forall g k, group_median g col rs k = None).
  { intros g k. unfold group_median. rewrite dropna_values_empty; [done |].
    unfold group_rows. apply Forall_forall. intros x Hx%list_elem_of_In.
    apply filter_In in Hx as [Hx%list_elem_of_In _].
    rewrite Forall_forall in Hall. auto. }
  rewrite Forall_forall in Hall.
  unfold impute_value, after_continent, after_subregion, tier_value.
  rewrite (Hall r Hin).
  destruct (group_field "subregion" r); rewrite ?Hk;
    destruct (group_field "continent" r); rewrite ?Hk; done.
Qed.

(** *** The table after imputation *)

Lemma set_lifeExp_fields (r : Row) (v : option num) :
  let r' := set_numeric_field "lifeExp" r v in
  lifeExp r' = v /\ index r' = index r /\ iso_a2 r' = iso_a2 r /\ name_long r' = name_long r
  /\ continent r' = continent r /\ subregion r' = subregion r
  /\ area_km2 r' = area_km2 r /\ pop r' = pop r /\ gdpPercap r' = gdpPercap r
  /\ pop_density r' = pop_density r.
Proof. by destruct r. Qed.

Lemma set_gdpPercap_fields (r : Row) (v : option num) :
  let r' := set_numeric_field "gdpPercap" r v in
  gdpPercap r' = v /\ index r' = index r /\ iso_a2 r' = iso_a2 r /\ name_long r' = name_long r
  /\ continent r' = continent r /\ subregion r' = subregion r
  /\ area_km2 r' = area_km2 r /\ pop r' = pop r /\ lifeExp r' = lifeExp r
  /\ pop_density r' = pop_density r.
Proof. by destruct r. Qed.

Lemma impute_lifeExp_filtered (rs : list Row) :
  Forall filtered_row rs -> Forall filtered_row (impute_rows "lifeExp" rs).
Proof.
  intros Hall. unfold impute_rows. rewrite Forall_map.
  assert (Hcol : Forall (fun r => null_or in_life_range (numeric_field "lifeExp" r)) rs).
  { each_row Hall as r Hr. apply Hr. }
  each_row Hall as r Hr.
  destruct (set_lifeExp_fields r (impute_value "lifeExp" rs r))
    as (E0 & _ & E1 & E2 & _ & _ & E3 & E4 & E5 & _).
  destruct Hr. constructor; rewrite ?E0, ?E1, ?E2, ?E3, ?E4, ?E5; try done.
  by apply (impute_value_closed in_life_range in_life_range_mean).
Qed.

Lemma impute_gdpPercap_filtered (rs : list Row) :
  Forall filtered_row rs -> Forall filtered_row (impute_rows "gdpPercap" rs).
Proof.
  intros Hall. unfold impute_rows. rewrite Forall_map.
  assert (Hcol : Forall (fun r => null_or positive (numeric_field "gdpPercap" r)) rs).
  { each_row Hall as r Hr. apply Hr. }
  each_row Hall as r Hr.
  destruct (set_gdpPercap_fields r (impute_value "gdpPercap" rs r))
    as (E0 & _ & E1 & E2 & _ & _ & E3 & E4 & E5 & _).
  destruct Hr. constructor; rewrite ?E0, ?E1, ?E2, ?E3, ?E4, ?E5; try done.
  by apply (impute_value_closed positive positive_mean).
Qed.

Lemma impute_lifeExp_gdpPercap (rs : list Row) :
  map gdpPercap (impute_rows "lifeExp" rs) = map gdpPercap rs.
Proof.
  unfold impute_rows. rewrite map_map. apply map_ext. intros r.
  apply (set_lifeExp_fields r).
Qed.

Lemma impute_gdpPercap_lifeExp (rs : list Row) :
  map lifeExp (impute_rows "gdpPercap" rs) = map lifeExp rs.
Proof.
  unfold impute_rows. rewrite map_map. apply map_ext. intros r.
  apply (set_gdpPercap_fields r).
Qed.

Lemma impute_lifeExp_values (rs : list Row) :
  map lifeExp (impute_rows "lifeExp" rs) = map (impute_value "lifeExp" rs) rs.
Proof.
  unfold impute_rows. rewrite map_map. apply map_ext. intros r.
  apply (set_lifeExp_fields r).
Qed.

Lemma impute_gdpPercap_values (rs : list Row) :
  map gdpPercap (impute_rows "gdpPercap" rs) = map (impute_value "gdpPercap" rs) rs.
Proof.
  unfold impute_rows. rewrite map_map. apply map_ext. intros r.
  apply (set_gdpPercap_fields r).
Qed.

(** Totality of the imputation of one column of a table of filtered rows. *)
Lemma impute_lifeExp_total (rs : list Row) :
  Forall filtered_row rs ->
  Exists (fun r => is_Some (lifeExp r)) rs ->
  Forall (fun r => is_Some (lifeExp r)) (impute_rows "lifeExp" rs).
Proof.
  intros Hall (r0 & Hin & Hsome)%Exists_exists.
  apply (Forall_map lifeExp is_Some). rewrite impute_lifeExp_values, Forall_map.
  apply Forall_forall. intros r _.
  apply (impute_value_total in_life_range in_life_range_mean "lifeExp" rs) with r0; try done.
  each_row Hall as x Hx. apply Hx.
Qed.

Lemma impute_gdpPercap_total (rs : list Row) :
  Forall filtered_row rs ->
  Exists (fun r => is_Some (gdpPercap r)) rs ->
  Forall (fun r => is_Some (gdpPercap r)) (impute_rows "gdpPercap" rs).
Proof.
  intros Hall (r0 & Hin & Hsome)%Exists_exists.
  apply (Forall_map gdpPercap is_Some). rewrite impute_gdpPercap_values, Forall_map.
  apply Forall_forall. intros r _.
  apply (impute_value_total positive positive_mean "gdpPercap" rs) with r0; try done.
  each_row Hall as x Hx. apply Hx.
Qed.

Lemma impute_gdpPercap_none (rs : list Row) :
  Forall (fun r => gdpPercap r = None) rs ->
  Forall (fun r => gdpPercap r = None) (impute_rows "gdpPercap" rs).
Proof.
  intros Hall. apply (Forall_map gdpPercap (fun c => c = None)).
  rewrite impute_gdpPercap_values, Forall_map. apply Forall_forall. intros r Hr.
  by apply impute_value_none.
Qed.

Lemma Exists_map_iff {A B} (f : A -> B) (P : B -> Prop) (l : list A) :
  Exists (fun x => P (f x)) l <-> Exists P (map f l).
Proof.
  induction l as [|x l IH]; simpl; [by rewrite !Exists_nil |].
  by rewrite !Exists_cons, IH.
Qed.

Section AfterImputation.
Variable py_str : num -> text.
Variable parse_float : text -> option num.

Lemma rows_D_filtered (df_raw : RawFrame) :
  Forall filtered_row (rows_D py_str parse_float df_raw).
Proof.
  unfold rows_D. apply impute_gdpPercap_filtered, impute_lifeExp_filtered, rows_C_filtered.
Qed.

Lemma rows_D_lifeExp_total (df_raw : RawFrame) :
  Exists (fun r => is_Some (lifeExp r)) (rows_C py_str parse_float df_raw) ->
  Forall (fun r => is_Some (lifeExp r)) (rows_D py_str parse_float df_raw).
Proof.
  intros Hex. unfold rows_D.
  apply (Forall_map lifeExp is_Some). rewrite impute_gdpPercap_lifeExp.
  apply (Forall_map lifeExp is_Some).
  apply impute_lifeExp_total; [apply rows_C_filtered | done].
Qed.

Lemma rows_D_gdpPercap_total (df_raw : RawFrame) :
  Exists (fun r => is_Some (gdpPercap r)) (rows_C py_str parse_float df_raw) ->
  Forall (fun r => is_Some (gdpPercap r)) (rows_D py_str parse_float df_raw).
Proof.
  intros Hex. unfold rows_D.
  apply impute_gdpPercap_total; [apply impute_lifeExp_filtered, rows_C_filtered |].
  apply (Exists_map_iff gdpPercap is_Some). rewrite impute_lifeExp_gdpPercap.
  by apply (Exists_map_iff gdpPercap is_Some).
Qed.

Lemma rows_D_gdpPercap_none (df_raw : RawFrame) :
  Forall (fun r => gdpPercap r = None) (rows_C py_str parse_float df_raw) ->
  Forall (fun r => gdpPercap r = None) (rows_D py_str parse_float df_raw).
Proof.
  intros Hall. unfold rows_D. apply impute_gdpPercap_none.
  apply (Forall_map gdpPercap (fun c => c = None)). rewrite impute_lifeExp_gdpPercap.
  by apply (Forall_map gdpPercap (fun c => c = None)).
Qed.
End AfterImputation.

(** ** The rows of the output *)

Lemma with_density_fields (i : nat) (r : Row) :
  let r' := with_density (set_index i r) in
  iso_a2 r' = iso_a2 r /\ name_long r' = name_long r
  /\ area_km2 r' = area_km2 r /\ pop r' = pop r
  /\ lifeExp r' = lifeExp r /\ gdpPercap r' = gdpPercap r
  /\ pop_density r' = Float.cell_div (pop r) (area_km2 r).
Proof. by destruct r. Qed.

Lemma cell_gt_null_or (c : option num) :
  not_null c = true -> null_or positive c -> Float.cell_gt c Float.zero = true.
Proof.
  intros [x ->]%not_null_Some Hp. apply cell_gt_zero. exists x. split; [done | by apply Hp].
Qed.

Section Output.
Variable py_str : num -> text.
Variable parse_float : text -> option num.

Lemma rows_E_elem (df_raw : RawFrame) (r : Row) :
  r ∈ rows_E py_str parse_float df_raw
  <-> r ∈ rows_D py_str parse_float df_raw /\ has_area_and_pop r = true.
Proof. unfold rows_E. by rewrite list_elem_of_In, filter_In, <- list_elem_of_In. Qed.

(** The run on a table with the required columns: it returns, its rows are
    rows of the table after imputation that have [area_km2] and [pop], each
    with its density, and no [iso_a2] occurs twice. *)
Lemma clean_world_data_rows (df_raw : RawFrame) (generate_report : bool) :
  has_required_columns df_raw = true ->
  exists df kept,
    clean_world_data py_str parse_float df_raw generate_report
      = Ok (df, report_of py_str parse_float df_raw generate_report kept)
    /\ rows df = map with_density kept
    /\ NoDup (map iso_a2 (rows df))
    /\ Forall clean_row (rows df)
    /\ Forall (fun r' => exists r, r ∈ rows_D py_str parse_float df_raw
                 /\ lifeExp r' = lifeExp r /\ gdpPercap r' = gdpPercap r) (rows df).
Proof.
  intros Hreq.
  destruct (clean_world_data_ok py_str parse_float df_raw generate_report Hreq)
    as (kept & HF & Hrun).
  apply has_required_columns_elim in Hreq.
  assert (Hiso : has_column (raw_columns df_raw) "iso_a2" = true).
  { rewrite Forall_forall in Hreq. apply Hreq. unfold REQUIRED_COLS. set_solver. }
  destruct (step_F_ok (raw_columns df_raw) (rows_E py_str parse_float df_raw) Hiso)
    as (kept' & HF' & Hnd & Hfrom & _).
  rewrite HF in HF'. injection HF' as <-.
  eexists _, kept. split; [exact Hrun |]. cbn [rows].
  split; [done |].
  assert (Hsrc : Forall (fun r' => exists i r, r ∈ rows_D py_str parse_float df_raw
                   /\ has_area_and_pop r = true /\ r' = with_density (set_index i r))
                 (map with_density kept)).
  { rewrite Forall_map. each_row Hfrom as r' (i & r & [Hr Hap]%rows_E_elem & ->). eauto. }
  pose proof (rows_D_filtered py_str parse_float df_raw) as HD.
  rewrite Forall_forall in HD.
  split; [| split].
  - rewrite map_map. erewrite map_ext; [exact Hnd |].
    intros r. by destruct r.
  - each_row Hsrc as r' (i & r & Hr & Hap & ->).
    destruct (with_density_fields i r) as (E1 & E2 & E3 & E4 & E5 & E6 & E7).
    destruct (HD r Hr). apply andb_true_iff in Hap as [Ha Hp].
    constructor; rewrite ?E1, ?E2, ?E3, ?E4, ?E5, ?E6, ?E7; try done.
    + by apply cell_gt_null_or.
    + by apply cell_gt_null_or.
  - each_row Hsrc as r' (i & r & Hr & Hap & ->).
    exists r. by destruct r.
Qed.
End Output.

(** ** Counting dropped rows *)

Lemma filter_length_complement {A} (p : A -> bool) (l : list A) :
  (length l - length (List.filter p l))%nat = length (List.filter (fun x => negb (p x)) l).
Proof.
  induction l as [|x l IH]; simpl; [done |].
  pose proof (filter_length_le p l). destruct (p x); simpl; lia.
Qed.

Lemma filter_length_negb {A} (p : A -> bool) (l : list A) :
  (length l - length (List.filter (fun x => negb (p x)) l))%nat = length (List.filter p l).
Proof.
  rewrite filter_length_complement. f_equal. apply filter_ext.
  intros x. apply negb_involutive.
Qed.

Lemma filter_length_same_mask {A B} (p : A -> bool) (q : B -> bool) (l : list A) (k : list B) :
  map p l = map q k -> length (List.filter p l) = length (List.filter q k).
Proof. intros H. by rewrite <- !mask_sum_map, H. Qed.

Lemma nonpositive_true (c : option num) : nonpositive c = true <-> nonpositive_value c.
Proof.
  unfold nonpositive, nonpositive_value. destruct c as [x|]; simpl.
  - destruct x as [q| |]; simpl.
    + rewrite Qle_bool_iff. split; [by eauto | by intros (? & [= <-] & ?)].
    + split; [done | by intros (? & [= <-] & ?)].
    + split; [intros _; by eexists | done].
  - split; [done | by intros (? & ? & _)].
Qed.

Lemma invalid_mask_true (r : Row) :
  invalid_mask r = true
  <-> nonpositive_value (pop r) \/ nonpositive_value (area_km2 r)
      \/ nonpositive_value (gdpPercap r).
Proof. unfold invalid_mask. rewrite !orb_true_iff, !nonpositive_true. tauto. Qed.

Lemma out_of_range_true (r : Row) : out_of_range r = true <-> out_of_life_range (lifeExp r).
Proof.
  unfold out_of_life_range. split.
  - intros Ho. destruct (lifeExp r) as [x|] eqn:E.
    + exists x. split; [done |]. intros Hin.
      assert (out_of_range r = false); [| congruence].
      apply out_of_range_false. right. exists x. by rewrite E.
    + unfold out_of_range in Ho. by rewrite E in Ho.
  - intros (x & Hx & Hout). apply not_false_iff_true.
    intros [Hn | (y & Hy & Hin)]%out_of_range_false; congruence.
Qed.

Lemma impute_rows_area_pop col (rs : list Row) :
  col = "lifeExp" \/ col = "gdpPercap" ->
  map has_area_and_pop (impute_rows col rs) = map has_area_and_pop rs.
Proof.
  intros Hcol. unfold impute_rows. rewrite map_map. apply map_ext. intros r.
  destruct Hcol as [-> | ->]; by destruct r.
Qed.

Lemma bound_lifeExp_area_pop (rs : list Row) :
  map has_area_and_pop (map bound_lifeExp rs) = map has_area_and_pop rs.
Proof.
  rewrite map_map. apply map_ext. intros r.
  destruct (bound_lifeExp_fields r) as (_ & _ & _ & _ & _ & Ea & Ep & _).
  unfold has_area_and_pop. by rewrite Ea, Ep.
Qed.

Lemma div_positive_None (p a : num) :
  positive p -> positive a -> Float.div p a = None <-> p = PInf /\ a = PInf.
Proof.
  destruct p as [x| |], a as [y| |]; simpl; try done; intros Hp Ha.
  - assert (Qeq_bool y 0 = false) as ->.
    { apply not_true_iff_false. rewrite Qeq_bool_iff. lra. }
    split; [done | by intros [? _]].
  - split; [done | by intros [? _]].
  - assert (Qle_bool 0 y = true) as -> by (apply Qle_bool_iff; lra).
    split; [done | by intros [_ ?]].
Qed.

(** ** Numeric coercion *)

Section CoercionFacts.
Variable py_str : num -> text.
Variable parse_float : text -> option num.

(** An already-numeric column comes back as it is. *)
Lemma to_numeric_safe_numeric (cells : list Cell) :
  _to_numeric_safe py_str parse_float (mkSeries numeric_kind cells)
  = map numeric_value cells.
Proof. reflexivity. Qed.

(** The coercion returns one value for each cell, whatever the cells. *)
Lemma to_numeric_safe_length (s : Series) :
  length (_to_numeric_safe py_str parse_float s) = length (values s).
Proof. unfold _to_numeric_safe. destruct (dtype_of s); apply length_map. Qed.

(** In an object column a string is cleaned, then parsed, and what does not
    parse is null. *)
Lemma to_numeric_safe_text (s : text) :
  _to_numeric_safe py_str parse_float (mkSeries object_kind [Text s])
  = [replace_nan (clean_text s) ≫= parse_float].
Proof. reflexivity. Qed.
End CoercionFacts.

Lemma str_replace_removed (old : N) (new s : text) :
  old ∉ new -> old ∉ str_replace old new s.
Proof.
  intros Hnew. unfold str_replace. induction s as [|c s IH]; simpl; [apply not_elem_of_nil |].
  rewrite elem_of_app. intros [H | H]; [| done].
  destruct (N.eqb_spec c old) as [-> | Hne]; [done |].
  apply list_elem_of_singleton in H. congruence.
Qed.

Lemma str_replace_other (old c : N) (new s : text) :
  c ∉ s -> c ∉ new -> c ∉ str_replace old new s.
Proof.
  intros Hs Hnew. unfold str_replace. induction s as [|d s IH]; simpl; [apply not_elem_of_nil |].
  apply not_elem_of_cons in Hs as [Hd Hs].
  rewrite elem_of_app. intros [H | H]; [| by apply IH].
  destruct (d =? old)%N; [done |]. apply list_elem_of_singleton in H. congruence.
Qed.

Lemma lstrip_sublist (s : text) (c : N) : c ∈ lstrip s -> c ∈ s.
Proof.
  induction s as [|d s IH]; simpl; [done |].
  destruct (is_space d); [| done]. intros H. right. auto.
Qed.

Lemma strip_sublist (s : text) (c : N) : c ∈ strip s -> c ∈ s.
Proof.
  unfold strip, rstrip. rewrite list_elem_of_In, <- in_rev, <- list_elem_of_In.
  intros H%lstrip_sublist. apply list_elem_of_In, in_rev, list_elem_of_In in H.
  by apply lstrip_sublist.
Qed.

(** The cleaned text has no comma and no no-break space left. *)
Lemma clean_text_no_separator (s : text) :
  (COMMA ∉ clean_text s) /\ (NBSP ∉ clean_text s).
Proof.
  unfold clean_text. split; (intros H%strip_sublist; revert H).
  - apply str_replace_removed, not_elem_of_nil.
  - apply str_replace_other; [| apply not_elem_of_nil].
    apply str_replace_removed. by intros [=]%list_elem_of_singleton.
Qed.

(** It starts with no white space, and ends with none. *)
Lemma lstrip_head (s : text) (c : N) (t : text) :
  lstrip s = c :: t -> is_space c = false.
Proof.
  induction s as [|d s IH]; simpl; [done |].
  destruct (is_space d) eqn:E; [done |]. by intros [= <- _].
Qed.

Lemma lstrip_suffix (s : text) : exists sp, s = (sp ++ lstrip s)%list.
Proof.
  induction s as [|d s [sp IH]]; simpl; [by exists [] |].
  destruct (is_space d); [| by exists []].
  exists (d :: sp). simpl. by rewrite <- IH.
Qed.

Lemma clean_text_trimmed (s : text) :
  (forall c t, clean_text s = c :: t -> is_space c = false)
  /\ (forall c t, clean_text s = (t ++ [c])%list -> is_space c = false).
Proof.
  unfold clean_text, strip, rstrip.
  set (u := str_replace COMMA [] (str_replace NBSP [SPACE] s)). split.
  - intros c t H.
    destruct (lstrip_suffix (rev (lstrip u))) as [sp Hsp].
    apply (f_equal (@rev N)) in Hsp.
    rewrite rev_involutive, rev_app_distr, H in Hsp. simpl in Hsp.
    by apply lstrip_head in Hsp.
  - intros c t H. apply (f_equal (@rev N)) in H.
    rewrite rev_involutive, rev_app_distr in H. simpl in H.
    by apply lstrip_head in H.
Qed.

(** The strings the replacement table turns into null. *)
Lemma replace_nan_null (s : text) :
  s = text_of_string "" \/ s = text_of_string "nan" \/ s = text_of_string "Nan" ->
  replace_nan s = None.
Proof. intros [-> | [-> | ->]]; reflexivity. Qed.

(** ** Exceptions of the pipeline *)

Lemma impute_tier_cases (df : DataFrame) col g filled missing_idx :
  (exists out, impute_tier df col g filled missing_idx = Ok out)
  \/ (impute_tier df col g filled missing_idx = Raise (KeyError [g])
      /\ has_column (columns df) g = false).
Proof.
  unfold impute_tier, require.
  destruct (has_column (columns df) g); [left; by eexists | by right].
Qed.

(** Membership in a list of column names written out. *)
Ltac column_listed := apply (bool_decide_unpack _); vm_compute; exact I.




(** ** Why completeness never decides a duplicate *)

Lemma impute_lifeExp_none (rs : list Row) :
  Forall (fun r => lifeExp r = None) rs ->
  Forall (fun r => lifeExp r = None) (impute_rows "lifeExp" rs).
Proof.
  intros Hall. apply (Forall_map lifeExp (fun c => c = None)).
  rewrite impute_lifeExp_values, Forall_map. apply Forall_forall. intros r Hr.
  by apply impute_value_none.
Qed.

Lemma null_or_all (c : Row -> option num) (rs : list Row) :
  Exists (fun r => is_Some (c r)) rs \/ Forall (fun r => c r = None) rs.
Proof.
  destruct (decide (Exists (fun r => is_Some (c r)) rs)) as [H | H]; [by left | right].
  apply Forall_Exists_neg in H. each_row H as r Hr.
  destruct (c r); [| done]. exfalso. apply Hr. by eexists.
Qed.

Section Ties.
Variable py_str : num -> text.
Variable parse_float : text -> option num.

(** After imputation a column is null in every row or in none. *)
Lemma rows_D_uniform (df_raw : RawFrame) :
  (Forall (fun r => is_Some (lifeExp r)) (rows_D py_str parse_float df_raw)
   \/ Forall (fun r => lifeExp r = None) (rows_D py_str parse_float df_raw))
  /\ (Forall (fun r => is_Some (gdpPercap r)) (rows_D py_str parse_float df_raw)
      \/ Forall (fun r => gdpPercap r = None) (rows_D py_str parse_float df_raw)).
Proof.
  split.
  - destruct (null_or_all lifeExp (rows_C py_str parse_float df_raw)) as [H | H].
    + left. by apply rows_D_lifeExp_total.
    + right. unfold rows_D.
      apply (Forall_map lifeExp (fun c => c = None)). rewrite impute_gdpPercap_lifeExp.
      apply (Forall_map lifeExp (fun c => c = None)). by apply impute_lifeExp_none.
  - destruct (null_or_all gdpPercap (rows_C py_str parse_float df_raw)) as [H | H].
    + left. by apply rows_D_gdpPercap_total.
    + right. by apply rows_D_gdpPercap_none.
Qed.

(** So all the rows deduplication looks at have the same number of non-null
    numeric fields, and [_choose_row_with_more_non_nulls] has nothing to
    compare. *)
Lemma dedup_counts_all_equal (df_raw : RawFrame) (r1 r2 : Row) :
  r1 ∈ rows_E py_str parse_float df_raw ->
  r2 ∈ rows_E py_str parse_float df_raw ->
  non_null_count NUMERIC_COLS r1 = non_null_count NUMERIC_COLS r2.
Proof.
  intros [H1 Hap1]%rows_E_elem [H2 Hap2]%rows_E_elem.
  apply andb_true_iff in Hap1 as [Ha1 Hp1], Hap2 as [Ha2 Hp2].
  unfold non_null_count, NUMERIC_COLS. cbn [List.filter].
  change (numeric_field "area_km2") with area_km2.
  change (numeric_field "pop") with pop.
  change (numeric_field "lifeExp") with lifeExp.
  change (numeric_field "gdpPercap") with gdpPercap.
  rewrite Ha1, Hp1, Ha2, Hp2.
  destruct (rows_D_uniform df_raw) as [Hl Hg]. rewrite !Forall_forall in Hl, Hg.
  assert (El : not_null (lifeExp r1) = not_null (lifeExp r2)).
  { destruct Hl as [Hl | Hl].
    - destruct (Hl r1 H1) as [? ->], (Hl r2 H2) as [? ->]. done.
    - by rewrite (Hl r1 H1), (Hl r2 H2). }
  assert (Eg : not_null (gdpPercap r1) = not_null (gdpPercap r2)).
  { destruct Hg as [Hg | Hg].
    - destruct (Hg r1 H1) as [? ->], (Hg r2 H2) as [? ->]. done.
    - by rewrite (Hg r1 H1), (Hg r2 H2). }
  by rewrite El, Eg.
Qed.
End Ties.

(** ** What imputation can draw on, in terms of the input *)

Lemma Exists_filter_iff {A} (f : A -> bool) (P : A -> Prop) (l : list A) :
  Exists P (List.filter f l) <-> Exists (fun x => f x = true /\ P x) l.
Proof.
  induction l as [|x l IH]; simpl; [by rewrite !Exists_nil |].
  destruct (f x) eqn:E; rewrite ?Exists_cons, IH; [tauto |].
  split; [tauto | intros [[? _] | ?]; [congruence | done]].
Qed.

Lemma Exists_iff {A} (P Q : A -> Prop) (l : list A) :
  (forall x, P x <-> Q x) -> Exists P l <-> Exists Q l.
Proof.
  intros H. induction l as [|x l IH]; [by rewrite !Exists_nil |].
  by rewrite !Exists_cons, IH, H.
Qed.

Section Offers.
Variable py_str : num -> text.
Variable parse_float : text -> option num.

Lemma rows_C_Exists (P : Row -> Prop) (df_raw : RawFrame) :
  Exists P (rows_C py_str parse_float df_raw)
  <-> Exists (fun ir => survives_filters py_str parse_float df_raw ir
                        /\ P (bound_lifeExp (coerce_row py_str parse_float df_raw ir)))
             (with_index (raw_rows df_raw)).
Proof.
  unfold rows_C, rows_C_drop, rows_B, rows_A, survives_filters.
  rewrite <- Exists_map_iff, Exists_filter_iff, <- Exists_map_iff, Exists_filter_iff.
  apply Exists_iff. intros ir. rewrite negb_true_iff. tauto.
Qed.

Lemma rows_C_offers_lifeExp (df_raw : RawFrame) :
  Exists (fun r => is_Some (lifeExp r)) (rows_C py_str parse_float df_raw)
  <-> Exists (offers_lifeExp py_str parse_float df_raw) (with_index (raw_rows df_raw)).
Proof.
  rewrite rows_C_Exists. apply Exists_iff. intros ir. unfold offers_lifeExp.
  apply and_iff_compat_l.
  set (r := coerce_row py_str parse_float df_raw ir).
  destruct (bound_lifeExp_fields r) as (_ & _ & _ & _ & _ & _ & _ & _ & _ & ->).
  destruct (out_of_range r) eqn:Ho.
  - split; [by intros [? ?] |]. intros (x & Hx & Hin).
    apply out_of_range_true in Ho as (y & Hy & Hout). congruence.
  - apply out_of_range_null_or in Ho. split.
    + intros [x Hx]. exists x. split; [done | by apply Ho].
    + intros (x & -> & _). by eexists.
Qed.

Lemma rows_C_offers_gdpPercap (df_raw : RawFrame) :
  Exists (fun r => is_Some (gdpPercap r)) (rows_C py_str parse_float df_raw)
  <-> Exists (offers_gdpPercap py_str parse_float df_raw) (with_index (raw_rows df_raw)).
Proof.
  rewrite rows_C_Exists. apply Exists_iff. intros ir. unfold offers_gdpPercap.
  apply and_iff_compat_l.
  set (r := coerce_row py_str parse_float df_raw ir).
  by destruct (bound_lifeExp_fields r) as (_ & _ & _ & _ & _ & _ & _ & -> & _).
Qed.
End Offers.

(** ** Which duplicate is kept *)

Lemma NoDup_map_filter {A B} (f : A -> B) (p : A -> bool) (l : list A) :
  NoDup (map f l) -> NoDup (map f (List.filter p l)).
Proof.
  induction l as [|x l IH]; simpl; [done |].
  rewrite NoDup_cons. intros [Hx Hl]. destruct (p x); simpl; [| by apply IH].
  apply NoDup_cons. split; [| by apply IH].
  intros Hin. apply Hx.
  apply list_elem_of_In, in_map_iff in Hin as (y & <- & Hy%filter_In).
  apply list_elem_of_In, in_map, Hy.
Qed.

Lemma with_index_NoDup (rs : list RawRow) : NoDup (map fst (with_index rs)).
Proof.
  unfold with_index. change (map fst ?l) with (fst <$> l).
  rewrite fst_zip by (by rewrite length_seq). apply NoDup_seq.
Qed.

Section Labels.
Variable py_str : num -> text.
Variable parse_float : text -> option num.

Lemma impute_rows_index col (rs : list Row) :
  map index (impute_rows col rs) = map index rs.
Proof.
  unfold impute_rows. rewrite map_map. apply map_ext. intros r.
  unfold set_numeric_field. by repeat destruct (String.eqb _ _).
Qed.

(** The index labels of the table deduplication starts from are distinct. *)
Lemma rows_E_index_NoDup (df_raw : RawFrame) :
  NoDup (map index (rows_E py_str parse_float df_raw)).
Proof.
  unfold rows_E, rows_D. apply NoDup_map_filter.
  rewrite !impute_rows_index. unfold rows_C. rewrite map_map.
  erewrite map_ext; [| intros r; apply (bound_lifeExp_fields r)].
  unfold rows_C_drop. apply NoDup_map_filter.
  unfold rows_B. rewrite map_map. cbn [index coerce_row].
  unfold rows_A. apply NoDup_map_filter, with_index_NoDup.
Qed.
End Labels.

(** What step F keeps of each group, index labels being distinct. *)
Lemma kept_rows_first_most_complete (rs : list Row) :
  NoDup (map index rs) ->
  exists kept, kept_rows rs = Ok kept
    /\ Forall2 (fun k r => first_most_complete (iso_group k rs) r) (group_keys rs) kept.
Proof.
  intros Hnd. unfold kept_rows. apply mapM_result_Forall2, Forall_forall.
  intros k Hk%group_keys_elem.
  apply list_elem_of_In, in_map_iff in Hk as (r0 & Hr0 & Hin%list_elem_of_In).
  assert (Hne : iso_group k rs <> []).
  { intros Hnil. assert (r0 ∈ iso_group k rs) as Hx by by apply iso_group_elem.
    rewrite Hnil in Hx. by apply elem_of_nil in Hx. }
  unfold keep_row. destruct (iso_group k rs) as [|r [|r' rest]] eqn:Hg; [done | |].
  - exists r. split; [done |]. exists [], []. repeat split; constructor.
  - rewrite <- Hg in *.
    destruct (choose_row_first_max (iso_group k rs) NUMERIC_COLS)
      as (r1 & pre & post & Hr1 & Hsplit & Hpre & Hpost); [| done |].
    { unfold iso_group. by apply NoDup_map_filter. }
    exists r1. split; [done |]. by exists pre, post.
Qed.

Section FirstRecord.
Variable py_str : num -> text.
Variable parse_float : text -> option num.

(** In the pipeline the counts are all equal, so what step F keeps of a
    group is simply its first record. *)
Lemma dedup_keeps_first_record (df_raw : RawFrame) :
  let rs := rows_E py_str parse_float df_raw in
  exists kept, kept_rows rs = Ok kept
    /\ Forall2 (fun k r => exists rest, iso_group k rs = r :: rest) (group_keys rs) kept.
Proof.
  intros rs.
  destruct (kept_rows_first_most_complete rs) as (kept & Hk & HF);
    [apply rows_E_index_NoDup |].
  exists kept. split; [done |].
  eapply Forall2_impl; [exact HF |].
  intros k r (pre & post & Hsplit & Hpre & _).
  destruct pre as [|x pre]; [by exists post |].
  apply Forall_cons in Hpre as [Hx _].
  assert (Hin : forall y, y ∈ iso_group k rs -> y ∈ rs).
  { intros y Hy%iso_group_elem. apply Hy. }
  assert (non_null_count NUMERIC_COLS x = non_null_count NUMERIC_COLS r); [| lia].
  apply (dedup_counts_all_equal py_str parse_float df_raw);
    apply Hin; rewrite Hsplit; set_solver.
Qed.
End FirstRecord.

(* ================================================================== *)
(** * The pipeline under pandas 3 *)
(* ================================================================== *)

(** ** One tier *)


Lemma impute_tier_under_lenient (df : DataFrame) col g filled missing_idx :
  impute_tier_under false df col g filled missing_idx
  = impute_tier df col g filled missing_idx.
Proof. reflexivity. Qed.


(** ** The imputation of one column *)





(** ** One iteration of step D *)




(** ** The whole pipeline *)




Section WholeUnder.
Variable pd : pandas_version.
Variable py_str : num -> text.
Variable parse_float : text -> option num.


End WholeUnder.

(* ================================================================== *)
(** * Records that reach the output *)
(* ================================================================== *)

Section Retained.
Variable py_str : num -> text.
Variable parse_float : text -> option num.

(** A record that passed the hard drop of step C and has an [area_km2] and
    a [pop] is in the table deduplication starts from, whatever its
    [lifeExp] was. *)
Lemma rows_C_drop_retained (df_raw : RawFrame) (r : Row) :
  r ∈ rows_C_drop py_str parse_float df_raw ->
  has_area_and_pop r = true ->
  iso_a2 r ∈ map iso_a2 (rows_E py_str parse_float df_raw).
Proof.
  intros Hr Hap.
  set (rs := rows_C py_str parse_float df_raw).
  set (r1 := set_numeric_field "lifeExp" (bound_lifeExp r)
               (impute_value "lifeExp" rs (bound_lifeExp r))).
  set (rs1 := impute_rows "lifeExp" rs).
  set (r2 := set_numeric_field "gdpPercap" r1 (impute_value "gdpPercap" rs1 r1)).
  assert (H1 : r1 ∈ rs1).
  { unfold rs1, impute_rows. apply list_elem_of_fmap. exists (bound_lifeExp r).
    split; [done |]. unfold rs, rows_C. apply list_elem_of_fmap. by exists r. }
  assert (H2 : r2 ∈ rows_D py_str parse_float df_raw).
  { unfold rows_D. fold rs. fold rs1. unfold impute_rows at 1.
    apply list_elem_of_fmap. by exists r1. }
  destruct (bound_lifeExp_fields r) as (_ & Ei & _ & _ & _ & Ea & Ep & _).
  destruct (set_lifeExp_fields (bound_lifeExp r)
              (impute_value "lifeExp" rs (bound_lifeExp r)))
    as (_ & _ & Ei1 & _ & _ & _ & Ea1 & Ep1 & _).
  destruct (set_gdpPercap_fields r1 (impute_value "gdpPercap" rs1 r1))
    as (_ & _ & Ei2 & _ & _ & _ & Ea2 & Ep2 & _).
  cbn zeta in *. fold r1 in Ei1, Ea1, Ep1. fold r2 in Ei2, Ea2, Ep2.
  apply list_elem_of_fmap. exists r2. split; [congruence |].
  apply rows_E_elem. split; [done |].
  unfold has_area_and_pop in *. by rewrite Ea2, Ep2, Ea1, Ep1, Ea, Ep.
Qed.

(** The output has a record for every [iso_a2] of the table deduplication
    starts from. *)
Lemma rows_E_retained (df_raw : RawFrame) (generate_report : bool)
    (df : DataFrame) (rep : Report) (k : option string) :
  has_required_columns df_raw = true ->
  clean_world_data py_str parse_float df_raw generate_report = Ok (df, rep) ->
  k ∈ map iso_a2 (rows_E py_str parse_float df_raw) ->
  k ∈ map iso_a2 (rows df).
Proof.
  intros Hreq Hrun Hk.
  destruct (clean_world_data_ok py_str parse_float df_raw generate_report Hreq)
    as (kept & HF & Hrun').
  rewrite Hrun in Hrun'. injection Hrun' as -> _. cbn [rows].
  assert (Hiso : has_column (raw_columns df_raw) "iso_a2" = true).
  { apply has_required_columns_elim in Hreq. rewrite Forall_forall in Hreq.
    apply Hreq. unfold REQUIRED_COLS. column_listed. }
  destruct (step_F_ok (raw_columns df_raw) (rows_E py_str parse_float df_raw) Hiso)
    as (kept' & HF' & _ & _ & Hkeys).
  rewrite HF in HF'. injection HF' as <-.
  rewrite map_map.
  rewrite (map_ext (fun x => iso_a2 (with_density x)) iso_a2) by (intros x; by destruct x).
  by apply Hkeys.
Qed.
End Retained.

(* ================================================================== *)
(** * The claims of the specification *)
(* ================================================================== *)

(** ** C1: invariants of the output table *)

(** C1, as stated, fails: the one record of [table_without_gdp] has a null
    [gdpPercap], no median can fill it, and the record is in the output
    with [gdpPercap > 0] false. *)
Lemma C1_gdpPercap_can_stay_null :
  has_required_columns table_without_gdp = true
  /\ exists df rep r,
       clean_world_data example_str example_parse table_without_gdp true = Ok (df, rep)
       /\ r ∈ rows df
       /\ Float.cell_gt (gdpPercap r) Float.zero = false.
Proof.
  split; [reflexivity |].
  eexists _, _, _. split; [vm_compute; reflexivity |].
  split; [apply list_elem_of_here | reflexivity].
Qed.

(** C1 (amended): on a table with the required columns the pipeline returns
    a table in which every record has a non-null [iso_a2] and [name_long],
    no [iso_a2] occurs twice, [area_km2 > 0] and [pop > 0] hold for every
    record, and [gdpPercap] is null or [> 0]; it is [> 0] for every record
    as soon as one record of the input that passes identifier validation and
    range filtering has a [gdpPercap]. *)
Theorem C1_output_invariants (py_str : num -> text) (parse_float : text -> option num)
    (df_raw : RawFrame) (generate_report : bool) :
  has_required_columns df_raw = true ->
  exists df rep,
    clean_world_data py_str parse_float df_raw generate_report = Ok (df, rep)
    /\ NoDup (map iso_a2 (rows df))
    /\ Forall (fun r =>
         is_Some (iso_a2 r) /\ is_Some (name_long r)
         /\ Float.cell_gt (area_km2 r) Float.zero = true
         /\ Float.cell_gt (pop r) Float.zero = true
         /\ (gdpPercap r = None \/ Float.cell_gt (gdpPercap r) Float.zero = true))
         (rows df)
    /\ (Exists (offers_gdpPercap py_str parse_float df_raw) (with_index (raw_rows df_raw)) ->
        Forall (fun r => Float.cell_gt (gdpPercap r) Float.zero = true) (rows df)).
Proof.
  intros Hreq.
  destruct (clean_world_data_rows py_str parse_float df_raw generate_report Hreq)
    as (df & kept & Hrun & _ & Hnd & Hclean & Hsrc).
  exists df. eexists. split; [exact Hrun |]. split; [exact Hnd |]. split.
  - each_row Hclean as r [H1 H2 H3 H4 H5 _ _]. repeat split; try done.
    destruct (gdpPercap r) as [x|] eqn:Hg; [right | by left].
    apply cell_gt_zero. exists x. split; [done | by apply H5].
  - intros Hex%rows_C_offers_gdpPercap.
    pose proof (rows_D_gdpPercap_total py_str parse_float df_raw Hex) as Htot.
    rewrite Forall_forall in Htot, Hclean, Hsrc. apply Forall_forall. intros r' Hr'.
    destruct (Hsrc r' Hr') as (r & Hr & _ & Hg).
    destruct (Htot r Hr) as [x Hx]. destruct (Hclean r' Hr') as [_ _ _ _ H5 _ _].
    apply cell_gt_zero. exists x. split; [congruence |]. apply H5. congruence.
Qed.

Lemma C1_output_invariants_witness :
  has_required_columns raw_df_for_cleaning = true
  /\ exists df rep,
       clean_world_data example_str example_parse raw_df_for_cleaning true = Ok (df, rep)
       /\ NoDup (map iso_a2 (rows df))
       /\ Forall (fun r =>
            is_Some (iso_a2 r) /\ is_Some (name_long r)
            /\ Float.cell_gt (area_km2 r) Float.zero = true
            /\ Float.cell_gt (pop r) Float.zero = true
            /\ (gdpPercap r = None \/ Float.cell_gt (gdpPercap r) Float.zero = true))
            (rows df)
       /\ (Exists (offers_gdpPercap example_str example_parse raw_df_for_cleaning)
             (with_index (raw_rows raw_df_for_cleaning)) ->
           Forall (fun r => Float.cell_gt (gdpPercap r) Float.zero = true) (rows df)).
Proof.
  split; [reflexivity |].
  apply (C1_output_invariants example_str example_parse raw_df_for_cleaning true).
  reflexivity.
Defined.

(** ** C2: totality of the imputation *)

(** C2, as stated, fails for [lifeExp]: the input of [table_lifeExp_140] has
    a non-null [lifeExp] (140), step C nulls it, no value is left for any
    median, and both output records are null in [lifeExp].  It fails for
    [gdpPercap] as well: the only value of [table_gdp_dropped] sits in a
    record dropped for its [pop]. *)
Lemma C2_value_in_input_is_not_enough :
  (Exists (fun r => is_Some (coerce_cell example_str example_parse table_lifeExp_140
                               "lifeExp" (raw_lifeExp r)))
          (raw_rows table_lifeExp_140)
   /\ exists df rep,
        clean_world_data example_str example_parse table_lifeExp_140 true = Ok (df, rep)
        /\ Exists (fun r => lifeExp r = None) (rows df))
  /\ (Exists (fun r => is_Some (coerce_cell example_str example_parse table_gdp_dropped
                                  "gdpPercap" (raw_gdpPercap r)))
             (raw_rows table_gdp_dropped)
      /\ exists df rep,
           clean_world_data example_str example_parse table_gdp_dropped true = Ok (df, rep)
           /\ Exists (fun r => gdpPercap r = None) (rows df)).
Proof.
  split; (split; [apply Exists_cons_hd; by eexists |]);
    (eexists _, _; split; [vm_compute; reflexivity |]); apply Exists_cons_hd; reflexivity.
Qed.

(** C2 (amended): if at least one record of the input has both identifiers,
    no non-positive [pop], [area_km2] or [gdpPercap], and a [lifeExp]
    strictly inside (0, 120), then no output record is null in [lifeExp];
    if at least one record of the input has both identifiers, no
    non-positive [pop], [area_km2] or [gdpPercap], and a [gdpPercap], then
    no output record is null in [gdpPercap]. *)
Theorem C2_imputation_total (py_str : num -> text) (parse_float : text -> option num)
    (df_raw : RawFrame) (generate_report : bool) :
  has_required_columns df_raw = true ->
  exists df rep,
    clean_world_data py_str parse_float df_raw generate_report = Ok (df, rep)
    /\ (Exists (offers_lifeExp py_str parse_float df_raw) (with_index (raw_rows df_raw)) ->
        Forall (fun r => is_Some (lifeExp r)) (rows df))
    /\ (Exists (offers_gdpPercap py_str parse_float df_raw) (with_index (raw_rows df_raw)) ->
        Forall (fun r => is_Some (gdpPercap r)) (rows df)).
Proof.
  intros Hreq.
  destruct (clean_world_data_rows py_str parse_float df_raw generate_report Hreq)
    as (df & kept & Hrun & _ & _ & _ & Hsrc).
  exists df. eexists. split; [exact Hrun |]. split.
  - intros Hex%rows_C_offers_lifeExp.
    pose proof (rows_D_lifeExp_total py_str parse_float df_raw Hex) as Htot.
    rewrite Forall_forall in Htot. each_row Hsrc as r' (r & Hr & -> & _). auto.
  - intros Hex%rows_C_offers_gdpPercap.
    pose proof (rows_D_gdpPercap_total py_str parse_float df_raw Hex) as Htot.
    rewrite Forall_forall in Htot. each_row Hsrc as r' (r & Hr & _ & ->). auto.
Qed.

Lemma C2_imputation_total_witness :
  has_required_columns raw_df_for_cleaning = true
  /\ exists df rep,
       clean_world_data example_str example_parse raw_df_for_cleaning true = Ok (df, rep)
       /\ (Exists (offers_lifeExp example_str example_parse raw_df_for_cleaning)
             (with_index (raw_rows raw_df_for_cleaning)) ->
           Forall (fun r => is_Some (lifeExp r)) (rows df))
       /\ (Exists (offers_gdpPercap example_str example_parse raw_df_for_cleaning)
             (with_index (raw_rows raw_df_for_cleaning)) ->
           Forall (fun r => is_Some (gdpPercap r)) (rows df)).
Proof.
  split; [reflexivity |].
  apply (C2_imputation_total example_str example_parse raw_df_for_cleaning true).
  reflexivity.
Defined.

(** The fixture does offer a value in each of the two columns (its first
    record), so its output has no null in either. *)
Example raw_df_for_cleaning_offers_values :
  Exists (offers_lifeExp example_str example_parse raw_df_for_cleaning)
         (with_index (raw_rows raw_df_for_cleaning))
  /\ Exists (offers_gdpPercap example_str example_parse raw_df_for_cleaning)
            (with_index (raw_rows raw_df_for_cleaning)).
Proof.
  split; apply Exists_cons_hd; (split; [by split |]).
  - exists (Float.of_Z 80). split; [reflexivity |]. split; reflexivity.
  - by eexists.
Qed.

(** ** C3: deduplication *)

(** C3, on the code: imputation runs before deduplication.  In
    [table_duplicate_incomplete_first] the first [AA] record lacks [lifeExp]
    and the second has all four fields; the first is filled with the median
    of its subregion (70, from 80 and 60), both then count four non-null
    fields, the tie goes to the first, and the output has [AA] with
    [lifeExp = 70] instead of the fully populated record with 80.  (The
    choice itself is the first of the most complete rows of the group,
    [kept_rows_first_most_complete]; by the time it is made the rows are
    equally complete, [dedup_counts_all_equal], so it is the first row,
    [dedup_keeps_first_record].) *)
Theorem C3_incomplete_duplicate_retained :
  map (fun r => (iso_a2 r, non_null_count NUMERIC_COLS r))
      (rows_E example_str example_parse table_duplicate_incomplete_first)
  = [(Some "AA", 4%nat); (Some "AA", 4%nat); (Some "BB", 4%nat)]
  /\ exists df rep,
       clean_world_data example_str example_parse table_duplicate_incomplete_first true
         = Ok (df, rep)
       /\ map (fun r => (iso_a2 r, lifeExp r)) (rows df)
          = [(Some "AA", Some (Float.of_Z 70)); (Some "BB", Some (Float.of_Z 60))]
       /\ deduplicated_rows rep = 1%nat.
Proof.
  split; [reflexivity |].
  eexists _, _. split; [vm_compute; reflexivity |]. split; reflexivity.
Qed.

(** ** C4: imputation counts *)

(** C4, on the code: a tier counts every row that is still null and has a
    group, whether or not the median of the group exists.  In
    [table_lonely_null] one [lifeExp] is null; its subregion and its
    continent have no value, so only the global tier fills it, yet the
    report counts it at each of the three tiers. *)
Theorem C4_unresolved_values_are_counted :
  let rs := rows_C example_str example_parse table_lonely_null in
  length (List.filter (fun r => is_null (lifeExp r)) rs) = 1%nat
  /\ group_median "subregion" "lifeExp" rs "Western Europe" = None
  /\ group_median "continent" "lifeExp" rs "Europe" = None
  /\ global_median "lifeExp" rs = Some (Float.of_Z 70)
  /\ exists df rep,
       clean_world_data example_str example_parse table_lonely_null true = Ok (df, rep)
       /\ impute_lifeExp rep = Some (mkImputeCounts 1 1 1).
Proof.
  repeat split; try reflexivity.
  eexists _, _. split; [vm_compute; reflexivity | reflexivity].
Qed.

(** ** C5: the hard drop of step C *)

(** C5: after coercion a record is removed exactly when its [pop], its
    [area_km2] or its [gdpPercap] holds a value [<= 0] (a null holds no
    value, so it triggers nothing); the report counts these removals under
    [dropped_invalid_nonpositive], and [dropped_missing_area_or_pop] counts
    survivors of this step only. *)
Theorem C5_nonpositive_rows_dropped (py_str : num -> text)
    (parse_float : text -> option num) (df_raw : RawFrame) (generate_report : bool) :
  has_required_columns df_raw = true ->
  exists rsA after df rep,
    step_A df_raw = Ok rsA
    /\ let before := step_B py_str parse_float df_raw rsA in
       step_C_drop before = Ok after
       /\ rows after = List.filter (fun r => negb (invalid_mask r)) (rows before)
       /\ (forall r, invalid_mask r = true
             <-> nonpositive_value (pop r) \/ nonpositive_value (area_km2 r)
                 \/ nonpositive_value (gdpPercap r))
       /\ clean_world_data py_str parse_float df_raw generate_report = Ok (df, rep)
       /\ dropped_invalid_nonpositive rep = length (List.filter invalid_mask (rows before))
       /\ dropped_missing_area_or_pop rep
          = length (List.filter (fun r => negb (has_area_and_pop r)) (rows after)).
Proof.
  intros Hreq.
  destruct (clean_world_data_ok py_str parse_float df_raw generate_report Hreq)
    as (kept & _ & Hrun).
  apply has_required_columns_elim in Hreq.
  unfold REQUIRED_COLS, IDENTIFIER_COLS, NUMERIC_COLS, GROUP_COLS in Hreq. simpl in Hreq.
  repeat match goal with H : Forall _ (_ :: _) |- _ => apply Forall_cons in H as [? H] end.
  eexists _, _, _, _. split; [by apply step_A_ok |]. cbn zeta.
  rewrite step_B_rows. fold (rows_B py_str parse_float df_raw).
  split; [by apply step_C_drop_ok |]. cbn [rows columns].
  split; [done |]. split; [apply invalid_mask_true |]. split; [exact Hrun |].
  cbn [dropped_invalid_nonpositive dropped_missing_area_or_pop report_of]. split.
  - unfold rows_C_drop. apply filter_length_negb.
  - unfold rows_E. rewrite filter_length_complement.
    apply filter_length_same_mask.
    rewrite <- !(map_map has_area_and_pop negb). f_equal.
    unfold rows_D. rewrite !impute_rows_area_pop by auto.
    unfold rows_C. by rewrite bound_lifeExp_area_pop.
Qed.

Lemma C5_nonpositive_rows_dropped_witness :
  has_required_columns raw_df_for_cleaning = true
  /\ exists rsA after df rep,
       step_A raw_df_for_cleaning = Ok rsA
       /\ let before := step_B example_str example_parse raw_df_for_cleaning rsA in
          step_C_drop before = Ok after
          /\ rows after = List.filter (fun r => negb (invalid_mask r)) (rows before)
          /\ (forall r, invalid_mask r = true
                <-> nonpositive_value (pop r) \/ nonpositive_value (area_km2 r)
                    \/ nonpositive_value (gdpPercap r))
          /\ clean_world_data example_str example_parse raw_df_for_cleaning true = Ok (df, rep)
          /\ dropped_invalid_nonpositive rep = length (List.filter invalid_mask (rows before))
          /\ dropped_missing_area_or_pop rep
             = length (List.filter (fun r => negb (has_area_and_pop r)) (rows after)).
Proof.
  split; [reflexivity |].
  apply (C5_nonpositive_rows_dropped example_str example_parse raw_df_for_cleaning true).
  reflexivity.
Defined.

(** ** C6: the soft null of step C *)

(** C6: a record whose [lifeExp] holds a value outside (0, 120) is not
    dropped for it.  The first half of step C keeps exactly the records
    without a value [<= 0] in [pop], [area_km2] or [gdpPercap], a test that
    does not read [lifeExp].  The second half keeps every record, in order:
    a record whose [lifeExp] holds a value outside (0, 120) has it reset to
    null and is otherwise unchanged, every other record is unchanged; the
    report counts the values so reset under [lifeExp_out_of_range_set_nan]
    (the key is absent when there is none).  So a record of the input with
    both identifiers, no value [<= 0] in those three columns and a
    [lifeExp] out of range is in the table after step C with a null
    [lifeExp]; and when it has an [area_km2] and a [pop], the only other
    thing a later step asks of a record, the output has a record for its
    [iso_a2]. *)
Theorem C6_lifeExp_out_of_range_nulled (py_str : num -> text)
    (parse_float : text -> option num) (df_raw : RawFrame) (generate_report : bool) :
  has_required_columns df_raw = true ->
  exists rsA before after n df rep,
    step_A df_raw = Ok rsA
    /\ step_C_drop (step_B py_str parse_float df_raw rsA) = Ok before
    /\ step_C_bound before = Ok (after, n)
    /\ Forall2 (fun r r' =>
                  r' = if out_of_range r then set_numeric_field "lifeExp" r None else r)
               (rows before) (rows after)
    /\ (forall r, out_of_range r = true <-> out_of_life_range (lifeExp r))
    /\ (forall r v, lifeExp (set_numeric_field "lifeExp" r v) = v
                    /\ set_numeric_field "lifeExp" (set_numeric_field "lifeExp" r v) (lifeExp r) = r)
    /\ clean_world_data py_str parse_float df_raw generate_report = Ok (df, rep)
    /\ lifeExp_out_of_range_set_nan rep = n
    /\ default 0%nat n = length (List.filter out_of_range (rows before))
    /\ rsA = List.filter has_identifiers (with_index (raw_rows df_raw))
    /\ rows (step_B py_str parse_float df_raw rsA)
       = map (coerce_row py_str parse_float df_raw) rsA
    /\ rows before
       = List.filter (fun r => negb (invalid_mask r))
                     (rows (step_B py_str parse_float df_raw rsA))
    /\ (forall r, invalid_mask r = true
          <-> nonpositive_value (pop r) \/ nonpositive_value (area_km2 r)
              \/ nonpositive_value (gdpPercap r))
    /\ (forall r v, invalid_mask (set_numeric_field "lifeExp" r v) = invalid_mask r)
    /\ (forall ir,
          ir ∈ with_index (raw_rows df_raw) ->
          survives_filters py_str parse_float df_raw ir ->
          let r := coerce_row py_str parse_float df_raw ir in
          out_of_range r = true ->
          r ∈ rows before
          /\ set_numeric_field "lifeExp" r None ∈ rows after
          /\ (has_area_and_pop r = true -> iso_a2 r ∈ map iso_a2 (rows df))).
Proof.
  intros Hreq.
  destruct (clean_world_data_ok py_str parse_float df_raw generate_report Hreq)
    as (kept & _ & Hrun).
  pose proof Hreq as Hcols. apply has_required_columns_elim in Hcols.
  unfold REQUIRED_COLS, IDENTIFIER_COLS, NUMERIC_COLS, GROUP_COLS in Hcols. simpl in Hcols.
  repeat match goal with H : Forall _ (_ :: _) |- _ => apply Forall_cons in H as [? H] end.
  eexists _, _, _, _, _, _. split; [by apply step_A_ok |].
  rewrite step_B_rows. split; [by apply step_C_drop_ok |].
  split; [by apply step_C_bound_ok |]. cbn [rows columns].
  fold (rows_B py_str parse_float df_raw). fold (rows_C_drop py_str parse_float df_raw).
  split; [| split; [apply out_of_range_true |]].
  { apply Forall2_fmap_r, Forall_Forall2_diag, Forall_forall. by intros r _. }
  split; [intros r v; by destruct r |].
  split; [exact Hrun |]. split; [done |].
  split.
  { unfold range_counter.
    destruct (existsb out_of_range _) eqn:Hany; [done |].
    by rewrite existsb_false_filter. }
  split; [done |]. split; [done |]. split; [done |].
  split; [apply invalid_mask_true |].
  split; [intros r v; by destruct r |].
  intros ir Hir [Hid Hinv] Hout.
  set (r := coerce_row py_str parse_float df_raw ir) in *.
  assert (Hr : r ∈ rows_C_drop py_str parse_float df_raw).
  { apply rows_C_drop_elem. split; [| done].
    unfold rows_B. apply list_elem_of_fmap. exists ir. split; [done |].
    by apply rows_A_elem. }
  split; [done |]. split.
  - apply list_elem_of_fmap. exists r. split; [| done].
    unfold bound_lifeExp. by rewrite Hout.
  - intros Hap. apply (rows_E_retained py_str parse_float df_raw generate_report _ _ _ Hreq Hrun).
    by apply rows_C_drop_retained.
Qed.

Lemma C6_lifeExp_out_of_range_nulled_witness :
  has_required_columns raw_df_for_cleaning = true
  /\ exists rsA before after n df rep,
       step_A raw_df_for_cleaning = Ok rsA
       /\ step_C_drop (step_B example_str example_parse raw_df_for_cleaning rsA) = Ok before
       /\ step_C_bound before = Ok (after, n)
       /\ Forall2 (fun r r' =>
                     r' = if out_of_range r then set_numeric_field "lifeExp" r None else r)
                  (rows before) (rows after)
       /\ (forall r, out_of_range r = true <-> out_of_life_range (lifeExp r))
       /\ (forall r v, lifeExp (set_numeric_field "lifeExp" r v) = v
                       /\ set_numeric_field "lifeExp" (set_numeric_field "lifeExp" r v)
                            (lifeExp r) = r)
       /\ clean_world_data example_str example_parse raw_df_for_cleaning true = Ok (df, rep)
       /\ lifeExp_out_of_range_set_nan rep = n
       /\ default 0%nat n = length (List.filter out_of_range (rows before))
       /\ rsA = List.filter has_identifiers (with_index (raw_rows raw_df_for_cleaning))
       /\ rows (step_B example_str example_parse raw_df_for_cleaning rsA)
          = map (coerce_row example_str example_parse raw_df_for_cleaning) rsA
       /\ rows before
          = List.filter (fun r => negb (invalid_mask r))
                        (rows (step_B example_str example_parse raw_df_for_cleaning rsA))
       /\ (forall r, invalid_mask r = true
             <-> nonpositive_value (pop r) \/ nonpositive_value (area_km2 r)
                 \/ nonpositive_value (gdpPercap r))
       /\ (forall r v, invalid_mask (set_numeric_field "lifeExp" r v) = invalid_mask r)
       /\ (forall ir,
             ir ∈ with_index (raw_rows raw_df_for_cleaning) ->
             survives_filters example_str example_parse raw_df_for_cleaning ir ->
             let r := coerce_row example_str example_parse raw_df_for_cleaning ir in
             out_of_range r = true ->
             r ∈ rows before
             /\ set_numeric_field "lifeExp" r None ∈ rows after
             /\ (has_area_and_pop r = true -> iso_a2 r ∈ map iso_a2 (rows df))).
Proof.
  split; [reflexivity |].
  apply (C6_lifeExp_out_of_range_nulled example_str example_parse raw_df_for_cleaning true).
  reflexivity.
Defined.

(** On the fixture: the record with [lifeExp = 140] is the one nulled, and
    it is in the output, its [lifeExp] imputed. *)
Example raw_df_for_cleaning_lifeExp_140 :
  exists df rep,
    clean_world_data example_str example_parse raw_df_for_cleaning true = Ok (df, rep)
    /\ lifeExp_out_of_range_set_nan rep = Some 1%nat
    /\ dropped_invalid_nonpositive rep = 2%nat
    /\ map (fun r => (iso_a2 r, lifeExp r, pop_density r)) (rows df)
       = [(Some "AA", Some (Float.of_Z 80), Some (Float.of_Z 1000));
          (Some "DD", Some (Float.of_Z 80), Some (Float.of_Z 125))].
Proof. eexists _, _. split; [vm_compute; reflexivity |]. repeat split. Qed.

(** ** C7: the derived density *)

(** C7, as stated, fails: with an infinite [pop] and an infinite [area_km2]
    the record passes every filter and its quotient is NaN, so
    [pop_density] is null in the output. *)
Lemma C7_pop_density_can_be_null :
  has_required_columns table_infinite = true
  /\ exists df rep r,
       clean_world_data example_str example_parse table_infinite true = Ok (df, rep)
       /\ r ∈ rows df
       /\ pop_density r = None.
Proof.
  split; [reflexivity |].
  eexists _, _, _. split; [vm_compute; reflexivity |].
  split; [apply list_elem_of_here | reflexivity].
Qed.

(** C7 (amended): in every output record [pop] and [area_km2] are non-null
    and [> 0], [pop_density] is the quotient [pop / area_km2], and it is
    null only when [pop] and [area_km2] are both infinite. *)
Theorem C7_pop_density_is_quotient (py_str : num -> text)
    (parse_float : text -> option num) (df_raw : RawFrame) (generate_report : bool) :
  has_required_columns df_raw = true ->
  exists df rep,
    clean_world_data py_str parse_float df_raw generate_report = Ok (df, rep)
    /\ Forall (fun r =>
         pop_density r = Float.cell_div (pop r) (area_km2 r)
         /\ Float.cell_gt (pop r) Float.zero = true
         /\ Float.cell_gt (area_km2 r) Float.zero = true
         /\ (pop_density r = None <-> pop r = Some PInf /\ area_km2 r = Some PInf))
         (rows df).
Proof.
  intros Hreq.
  destruct (clean_world_data_rows py_str parse_float df_raw generate_report Hreq)
    as (df & kept & Hrun & _ & _ & Hclean & _).
  exists df. eexists. split; [exact Hrun |].
  each_row Hclean as r [_ _ Ha Hp _ _ Hd].
  split; [done |]. split; [done |]. split; [done |]. split.
  - rewrite Hd. apply cell_gt_zero in Ha as (a & -> & Ha), Hp as (p & -> & Hp). simpl.
    intros Hnone. apply div_positive_None in Hnone as [-> ->]; done.
  - rewrite Hd. by intros [-> ->].
Qed.

Lemma C7_pop_density_is_quotient_witness :
  has_required_columns raw_df_for_cleaning = true
  /\ exists df rep,
       clean_world_data example_str example_parse raw_df_for_cleaning true = Ok (df, rep)
       /\ Forall (fun r =>
            pop_density r = Float.cell_div (pop r) (area_km2 r)
            /\ Float.cell_gt (pop r) Float.zero = true
            /\ Float.cell_gt (area_km2 r) Float.zero = true
            /\ (pop_density r = None <-> pop r = Some PInf /\ area_km2 r = Some PInf))
            (rows df).
Proof.
  split; [reflexivity |].
  apply (C7_pop_density_is_quotient example_str example_parse raw_df_for_cleaning true).
  reflexivity.
Defined.

(** ** C8: numeric coercion *)

(** C8, on the code: a no-break space is replaced by an ordinary space, not
    removed.  One inside a number therefore stays in the cleaned text as a
    space, the parser is handed ["5 678"], and the cell becomes null where
    the claim has it read as 5678.  Of the two strings the comment above
    [_to_numeric_safe] gives, ['1,234 '] is converted and [' 5 678'] is
    not.  (The other parts of C8 are [to_numeric_safe_numeric],
    [clean_text_no_separator], [clean_text_trimmed], [replace_nan_null] and
    [to_numeric_safe_length].) *)
Theorem C8_nbsp_inside_a_number (py_str : num -> text) (parse_float : text -> option num) :
  clean_text text_5_nbsp_678 = text_of_string "5 678"
  /\ _to_numeric_safe py_str parse_float (mkSeries object_kind [Text text_5_nbsp_678])
     = [parse_float (text_of_string "5 678")]
  /\ _to_numeric_safe example_str example_parse
       (mkSeries object_kind
          [Text text_5_nbsp_678; Text (text_of_string "5678");
           Text (text_of_string "1,234 "); Text (text_of_string " 5 678")])
     = [None; Some (Float.of_Z 5678); Some (Float.of_Z 1234); None].
Proof. split; [reflexivity | split; reflexivity]. Qed.

(** ** C9: exceptions *)




(** The tables of the examples above have a subregion and a continent on
    every record: on each of them the run under pandas 3 is the run under
    pandas 2.  So it is on a table whose column of subregions holds nulls
    only: the subregion tier selects no row, but the column does not have
    the [str] dtype, and the null is filled at the continent tier. *)
Example example_tables_under_pandas_3 :
  Forall (fun t => clean_world_data_under pandas_3 example_str example_parse t true
                   = clean_world_data example_str example_parse t true)
    [raw_df_for_cleaning; table_without_gdp; table_lifeExp_140; table_gdp_dropped;
     table_duplicate_incomplete_first; table_lonely_null; table_infinite;
     table_without_any_subregion]
  /\ str_dtype table_without_any_subregion "subregion" = false
  /\ exists df rep,
       clean_world_data_under pandas_3 example_str example_parse
         table_without_any_subregion true = Ok (df, rep)
       /\ impute_lifeExp rep = Some (mkImputeCounts 0 1 0)
       /\ map lifeExp (rows df) = [Some (Float.of_Z 70); Some (Float.of_Z 70)].
Proof.
  split; [repeat constructor |]. split; [reflexivity |].
  eexists _, _. split; [vm_compute; reflexivity |]. split; reflexivity.
Qed.

(** ** C10: the medians come from the column as it was *)

(** C10: the column [_imputation_groupwise_median] returns is, row by row,
    [impute_value]: the value of the row, else the median of its subregion,
    else the median of its continent, else the global median, where all
    three medians are medians of the values the column has in the table
    passed in.  No filled value enters a median. *)
Theorem C10_medians_of_original_values (df : DataFrame) (col : string) :
  has_column (columns df) col = true ->
  has_column (columns df) "subregion" = true ->
  has_column (columns df) "continent" = true ->
  exists counts,
    _imputation_groupwise_median df col ["subregion"; "continent"]
    = Ok (map (impute_value col (rows df)) (rows df), counts)
    /\ (forall r,
          impute_value col (rows df) r
          = match numeric_field col r with
            | Some v => Some v
            | None =>
                let by_sub := k ← subregion r;
                              median (dropna_values (map (numeric_field col)
                                        (group_rows subregion k (rows df)))) in
                let by_cont := k ← continent r;
                               median (dropna_values (map (numeric_field col)
                                         (group_rows continent k (rows df)))) in
                let global := median (dropna_values (map (numeric_field col) (rows df))) in
                match by_sub, by_cont with
                | Some v, _ => Some v
                | None, Some v => Some v
                | None, None => global
                end
            end).
Proof.
  intros Hc Hs Hk. eexists. split; [by apply imputation_spec |].
  intros r. unfold impute_value, after_continent, after_subregion, tier_value,
    group_median, global_median.
  change (group_field "subregion") with subregion.
  change (group_field "continent") with continent.
  destruct (numeric_field col r); [done |].
  destruct (subregion r) as [k|]; simpl.
  - destruct (median (dropna_values (map (numeric_field col) (group_rows subregion k (rows df)))));
      [done |].
    destruct (continent r) as [k'|]; simpl; [| done].
    by destruct (median (dropna_values (map (numeric_field col)
                                          (group_rows continent k' (rows df))))).
  - destruct (continent r) as [k'|]; simpl; [| done].
    by destruct (median (dropna_values (map (numeric_field col)
                                          (group_rows continent k' (rows df))))).
Qed.

Lemma C10_medians_of_original_values_witness :
  has_column (columns frame_two_tiers) "lifeExp" = true
  /\ has_column (columns frame_two_tiers) "subregion" = true
  /\ has_column (columns frame_two_tiers) "continent" = true
  /\ exists counts,
       _imputation_groupwise_median frame_two_tiers "lifeExp" ["subregion"; "continent"]
       = Ok (map (impute_value "lifeExp" (rows frame_two_tiers)) (rows frame_two_tiers), counts)
       /\ (forall r,
             impute_value "lifeExp" (rows frame_two_tiers) r
             = match numeric_field "lifeExp" r with
               | Some v => Some v
               | None =>
                   let by_sub := k ← subregion r;
                                 median (dropna_values (map (numeric_field "lifeExp")
                                           (group_rows subregion k (rows frame_two_tiers)))) in
                   let by_cont := k ← continent r;
                                  median (dropna_values (map (numeric_field "lifeExp")
                                            (group_rows continent k (rows frame_two_tiers)))) in
                   let global := median (dropna_values (map (numeric_field "lifeExp")
                                                           (rows frame_two_tiers))) in
                   match by_sub, by_cont with
                   | Some v, _ => Some v
                   | None, Some v => Some v
                   | None, None => global
                   end
               end).
Proof.
  split; [reflexivity |]. split; [reflexivity |]. split; [reflexivity |].
  apply (C10_medians_of_original_values frame_two_tiers "lifeExp"); reflexivity.
Defined.

(** On [frame_two_tiers] the third record takes the continent median of the
    two original values, 25; had the 10 filled into the second record at the
    subregion tier counted, it would have been 10. *)
Example imputation_two_tiers :
  _imputation_groupwise_median frame_two_tiers "lifeExp" ["subregion"; "continent"]
  = Ok ([Some (Float.of_Z 10); Some (Float.of_Z 10); Some (Float.of_Z 25); Some (Float.of_Z 40)],
        mkImputeCounts 2 1 0).
Proof. vm_compute. reflexivity. Qed.

(* ================================================================== *)
(** * Further properties of the cleaning pipeline *)
(* ================================================================== *)

(** ** Lists *)

Lemma remove_dups_length_le {A} `{EqDecision A} (l : list A) :
  (length (remove_dups l) <= length l)%nat.
Proof.
  induction l as [| x l IH]; [done |]. cbn. case_decide; cbn; lia.
Qed.

Lemma remove_dups_length_NoDup {A} `{EqDecision A} (l : list A) :
  length (remove_dups l) = length l <-> NoDup l.
Proof.
  induction l as [| x l IH]; cbn.
  - split; [constructor | done].
  - pose proof (remove_dups_length_le l). case_decide as Hx.
    + split; [lia |]. by intros [Hx' _]%NoDup_cons.
    + cbn. rewrite NoDup_cons, <- IH. split; [| lia].
      intros E. split; [done | lia].
Qed.

Lemma map_imap_seq {A B C} (h : B -> C) (g : nat -> C) (l : list A) :
  forall f : nat -> A -> B, (forall i x, h (f i x) = g i) ->
  map h (imap f l) = map g (seq 0 (length l)).
Proof.
  revert g. induction l as [| x l IH]; intros g f Hf; [done |].
  rewrite imap_cons. cbn [map length seq]. rewrite Hf. f_equal.
  rewrite <- seq_shift, map_map. apply IH. intros i y. apply Hf.
Qed.

Lemma filter_length_mono {A} (p q : A -> bool) (l : list A) :
  (forall x, p x = true -> q x = true) ->
  (length (List.filter p l) <= length (List.filter q l))%nat.
Proof.
  intros H. induction l as [| x l IH]; [done |]. cbn.
  specialize (H x). destruct (p x), (q x); cbn; first [lia | by specialize (H eq_refl)].
Qed.

Lemma filter_length_cover {A} (p q1 q2 q3 : A -> bool) (l : list A) :
  (forall x, p x = true -> q1 x || q2 x || q3 x = true) ->
  (length (List.filter p l)
   <= length (List.filter q1 l) + length (List.filter q2 l) + length (List.filter q3 l))%nat.
Proof.
  intros H. induction l as [| x l IH]; [done |]. cbn.
  specialize (H x).
  destruct (p x), (q1 x), (q2 x), (q3 x); cbn in *; first [lia | by specialize (H eq_refl)].
Qed.

(** ** Ascending lists and insertion sort *)

Section Ascending.
Context {A : Type} (le : A -> A -> bool).
Hypothesis le_total : forall a b, le a b = true \/ le b a = true.
Hypothesis le_trans : forall a b c, le a b = true -> le b c = true -> le a c = true.

Lemma ascending_cons (x : A) (l : list A) :
  ascending le (x :: l) <-> Forall (fun y => le x y = true) l /\ ascending le l.
Proof.
  split.
  - intros H. split.
    + apply Forall_lookup. intros i y Hy. apply (H 0%nat (S i)); [lia | done | done].
    + intros i j a b Hij Ha Hb. apply (H (S i) (S j)); [lia | done | done].
  - intros [Hx Hl] i j a b Hij Ha Hb.
    destruct j as [| j]; [lia |]. cbn in Hb.
    destruct i as [| i].
    + injection Ha as <-. rewrite Forall_lookup in Hx. by apply (Hx j).
    + cbn in Ha. apply (Hl i j); [lia | done | done].
Qed.

Lemma insert_sorted_ascending (x : A) (l : list A) :
  ascending le l -> ascending le (insert_sorted le x l).
Proof using le_total le_trans.
  induction l as [| y l IH]; intros Hl.
  - apply ascending_cons. split; [constructor |]. intros i j a b _ Hi. by destruct i.
  - cbn [insert_sorted]. destruct (le x y) eqn:Hxy.
    + apply ascending_cons. split; [| done].
      apply ascending_cons in Hl as [Hy _].
      constructor; [done |]. eapply Forall_impl; [exact Hy |]. cbn beta. eauto.
    + apply ascending_cons in Hl as [Hy Hl].
      apply ascending_cons. split; [| by apply IH].
      rewrite (insert_sorted_Permutation le x l).
      constructor; [| done]. destruct (le_total x y) as [H | H]; [congruence | done].
Qed.

Lemma sort_ascending (l : list A) : ascending le (sort le l).
Proof using le_total le_trans.
  induction l as [| x l IH]; cbn [sort].
  - intros i j a b _ Hi. by destruct i.
  - by apply insert_sorted_ascending.
Qed.
End Ascending.

(** The order of the group keys is a total order. *)
Lemma string_compare_trans (a b c : string) :
  String.compare a b <> Gt -> String.compare b c <> Gt -> String.compare a c <> Gt.
Proof.
  revert b c. induction a as [| x a IH]; intros [| y b] [| z c]; cbn; try done.
  unfold Ascii.compare.
  destruct (N.compare_spec (Ascii.N_of_ascii x) (Ascii.N_of_ascii y)) as [E1 | L1 | G1];
    [| | done];
    (destruct (N.compare_spec (Ascii.N_of_ascii y) (Ascii.N_of_ascii z)) as [E2 | L2 | G2];
     [| | done]);
    destruct (N.compare_spec (Ascii.N_of_ascii x) (Ascii.N_of_ascii z)) as [E3 | L3 | G3];
    try done; try lia.
  apply IH.
Qed.

Lemma string_leb_trans (a b c : string) :
  String.leb a b = true -> String.leb b c = true -> String.leb a c = true.
Proof.
  unfold String.leb. intros H1 H2.
  pose proof (string_compare_trans a b c) as H.
  destruct (String.compare a b), (String.compare b c), (String.compare a c);
    try done; exfalso; by apply H.
Qed.

Lemma key_leb_total (a b : option string) : key_leb a b = true \/ key_leb b a = true.
Proof. destruct a, b; cbn; auto. apply String.leb_total. Qed.

Lemma key_leb_trans (a b c : option string) :
  key_leb a b = true -> key_leb b c = true -> key_leb a c = true.
Proof. destruct a, b, c; cbn; try done. apply string_leb_trans. Qed.

Lemma key_leb_antisym (a b : option string) :
  key_leb a b = true -> key_leb b a = true -> a = b.
Proof.
  destruct a, b; cbn; try done. intros H1 H2. f_equal. by apply String.leb_antisym.
Qed.

Lemma group_keys_ascending (rs : list Row) : ascending key_leb (group_keys rs).
Proof. apply sort_ascending; [apply key_leb_total | apply key_leb_trans]. Qed.

(** ** Deduplication *)

Lemma step_F_length (cols : list string) (rs kept : list Row) :
  has_column cols "iso_a2" = true ->
  step_F (mkDataFrame cols rs) = Ok (mkDataFrame cols kept) ->
  length kept = length (remove_dups (map iso_a2 rs)).
Proof.
  intros Hc HF.
  destruct (step_F_ok cols rs Hc) as (kept' & HF' & Hnd & _ & Hel).
  rewrite HF in HF'. injection HF' as ->.
  rewrite <- (length_map iso_a2 kept').
  apply Permutation_length, NoDup_Permutation; [done | apply NoDup_remove_dups |].
  intros k. rewrite Hel. by rewrite elem_of_remove_dups.
Qed.

Lemma step_F_index_NoDup (cols : list string) (rs kept : list Row) :
  NoDup (map index rs) ->
  step_F (mkDataFrame cols rs) = Ok (mkDataFrame cols kept) ->
  NoDup (map index kept).
Proof.
  intros Hnd. unfold step_F, require. cbn [columns rows].
  destruct (has_column cols "iso_a2"); [| done]. cbn [mbind result_bind].
  destruct (negb _).
  - destruct (kept_rows rs) as [kept0 |]; [| done]. cbn [mbind result_bind].
    intros [= <-]. unfold reset_index.
    rewrite (map_imap_seq index id kept0 set_index) by done.
    rewrite map_id. apply NoDup_ListNoDup, seq_NoDup.
  - by intros [= <-].
Qed.

Lemma iso_group_singleton (rs : list Row) (r : Row) :
  NoDup (map iso_a2 rs) -> r ∈ rs -> iso_group (iso_a2 r) rs = [r].
Proof.
  unfold iso_group. induction rs as [| x rs IH]; intros Hnd Hr.
  - by apply elem_of_nil in Hr.
  - cbn [map] in Hnd. apply NoDup_cons in Hnd as [Hx Hnd].
    cbn [List.filter]. apply elem_of_cons in Hr as [-> | Hr].
    + rewrite bool_decide_eq_true_2 by done. f_equal.
      apply filter_none, Forall_forall. intros y Hy.
      apply bool_decide_eq_false_2. intros E. apply Hx. rewrite <- E.
      apply list_elem_of_fmap. by exists y.
    + rewrite bool_decide_eq_false_2; [by apply IH |].
      intros E. apply Hx. rewrite E. apply list_elem_of_fmap. by exists r.
Qed.

(** ** Imputation *)

Lemma impute_value_keeps col (rs : list Row) (r : Row) (v : num) :
  numeric_field col r = Some v -> impute_value col rs r = Some v.
Proof.
  intros H. unfold impute_value, after_continent, after_subregion, tier_value.
  by rewrite H.
Qed.

Lemma tier_value_keeps g col (rs : list Row) (r : Row) (v : option num) (x : num) :
  v = Some x -> tier_value g col rs r v = Some x.
Proof. intros ->. reflexivity. Qed.

Lemma between_mean (lo hi : Q) (a b : num) :
  between lo hi a -> between lo hi b ->
  exists c, Float.add a b = Some c /\ between lo hi (Float.half c).
Proof.
  destruct a as [p| |], b as [q| |]; simpl; try done; intros [? ?] [? ?].
  eexists; split; [done |]. simpl. rewrite !Qred_correct. split.
  - apply Qle_shift_div_l; lra.
  - apply Qle_shift_div_r; lra.
Qed.

(** The state of the imputation between two tiers: a column computed row
    by row that has kept every value it had. *)
Lemma impute_tier_state (df : DataFrame) col g (f : Row -> option num) out :
  impute_tier df col g (map f (rows df)) (isna (map f (rows df))) = Ok out ->
  exists f' n,
    out = (map f' (rows df), n, isna (map f' (rows df)))
    /\ forall r x, f r = Some x -> f' r = Some x.
Proof.
  destruct (has_column (columns df) g) eqn:Hg.
  - rewrite (impute_tier_spec df col g f Hg). intros [= <-].
    eexists _, _. split; [done |]. intros r x. apply tier_value_keeps.
  - unfold impute_tier, require. by rewrite Hg.
Qed.

(** ** Where an output record comes from *)

Section Provenance.
Variable py_str : num -> text.
Variable parse_float : text -> option num.

Lemma required_iso_a2 (df_raw : RawFrame) :
  has_required_columns df_raw = true -> has_column (raw_columns df_raw) "iso_a2" = true.
Proof.
  intros Hreq. pose proof (has_required_columns_elim _ Hreq) as HF0.
  rewrite Forall_forall in HF0. apply HF0. column_listed.
Qed.

Lemma rows_D_origin (df_raw : RawFrame) (r : Row) :
  r ∈ rows_D py_str parse_float df_raw ->
  exists ir,
    ir ∈ with_index (raw_rows df_raw)
    /\ survives_filters py_str parse_float df_raw ir
    /\ let r0 := coerce_row py_str parse_float df_raw ir in
       index r = index r0 /\ iso_a2 r = iso_a2 r0 /\ name_long r = name_long r0
       /\ continent r = continent r0 /\ subregion r = subregion r0
       /\ area_km2 r = area_km2 r0 /\ pop r = pop r0
       /\ (forall v, gdpPercap r0 = Some v -> gdpPercap r = Some v)
       /\ (forall v, lifeExp r0 = Some v -> in_life_range v -> lifeExp r = Some v).
Proof.
  unfold rows_D, impute_rows at 1. intros Hr.
  apply list_elem_of_fmap in Hr as (r1 & -> & Hr1).
  unfold impute_rows in Hr1.
  apply list_elem_of_fmap in Hr1 as (r2 & Er1 & Hr2).
  unfold rows_C in Hr2. apply list_elem_of_fmap in Hr2 as (r3 & Er2 & Hr3).
  apply rows_C_drop_elem in Hr3 as [Hr3 Hinv].
  unfold rows_B in Hr3. apply list_elem_of_fmap in Hr3 as (ir & Er3 & Hir).
  apply rows_A_elem in Hir as [Hir Hid].
  exists ir. split; [done |]. split; [by split; [| rewrite <- Er3] |].
  cbn zeta. rewrite <- Er3.
  match goal with |- context [set_numeric_field "gdpPercap" r1 ?v] =>
    destruct (set_gdpPercap_fields r1 v) as (G0 & G1 & G2 & G3 & G4 & G5 & G6 & G7 & G8 & _)
  end.
  rewrite G1, G2, G3, G4, G5, G6, G7, G8, G0.
  assert (L := set_lifeExp_fields r2
                 (impute_value "lifeExp" (rows_C py_str parse_float df_raw) r2)).
  rewrite <- Er1 in L. cbn zeta in L.
  destruct L as (L0 & L1 & L2 & L3 & L4 & L5 & L6 & L7 & L8 & _).
  rewrite L1, L2, L3, L4, L5, L6, L7, L0.
  destruct (bound_lifeExp_fields r3) as (B1 & B2 & B3 & B4 & B5 & B6 & B7 & B8 & _ & B0).
  rewrite <- Er2 in B1, B2, B3, B4, B5, B6, B7, B8, B0.
  rewrite B1, B2, B3, B4, B5, B6, B7.
  do 7 (split; [done |]). split.
  - intros v Hv. apply impute_value_keeps.
    change (gdpPercap r1 = Some v). by rewrite L8, B8.
  - intros v Hv Hrange. apply impute_value_keeps.
    change (lifeExp r2 = Some v). rewrite B0.
    assert (out_of_range r3 = false) as ->; [| done].
    apply out_of_range_false. right. by exists v.
Qed.

Lemma deduplicated_zero_NoDup (df_raw : RawFrame) (kept : list Row) :
  has_column (raw_columns df_raw) "iso_a2" = true ->
  step_F (mkDataFrame (raw_columns df_raw) (rows_E py_str parse_float df_raw))
    = Ok (mkDataFrame (raw_columns df_raw) kept) ->
  (length (rows_E py_str parse_float df_raw) - length kept = 0)%nat
  <-> NoDup (map iso_a2 (rows_E py_str parse_float df_raw)).
Proof.
  intros Hiso HF. rewrite (step_F_length _ _ _ Hiso HF).
  rewrite <- remove_dups_length_NoDup.
  pose proof (remove_dups_length_le (map iso_a2 (rows_E py_str parse_float df_raw))) as H.
  rewrite length_map in *. lia.
Qed.

Lemma clean_table_index_NoDup (df_raw : RawFrame) (kept : list Row) :
  step_F (mkDataFrame (raw_columns df_raw) (rows_E py_str parse_float df_raw))
    = Ok (mkDataFrame (raw_columns df_raw) kept) ->
  NoDup (map index (map with_density kept)).
Proof.
  intros HF. rewrite map_map.
  change (fun x => index (with_density x)) with index.
  eapply step_F_index_NoDup; [| exact HF]. apply rows_E_index_NoDup.
Qed.

(** ** X1: the report accounts for every record *)

(** X1: on a table with the required columns, the number of records of the
    input is the number of records of the output plus the four drop
    counters of the report (missing identifiers, non-positive values,
    missing [area_km2] or [pop], duplicates); and [row_count], when the
    report is generated, is the number of records of the output. *)
Theorem X1_report_accounts_for_every_record (df_raw : RawFrame) (generate_report : bool) :
  has_required_columns df_raw = true ->
  exists df rep,
    clean_world_data py_str parse_float df_raw generate_report = Ok (df, rep)
    /\ length (raw_rows df_raw)
       = (length (rows df) + dropped_missing_identifiers rep
          + dropped_invalid_nonpositive rep + dropped_missing_area_or_pop rep
          + deduplicated_rows rep)%nat
    /\ row_count rep = (if generate_report then Some (length (rows df)) else None).
Proof.
  intros Hreq.
  destruct (clean_world_data_ok py_str parse_float df_raw generate_report Hreq)
    as (kept & HF & ->).
  eexists _, _. split; [done |]. cbn [rows dropped_missing_identifiers report_of
    dropped_invalid_nonpositive dropped_missing_area_or_pop deduplicated_rows row_count].
  rewrite length_map.
  pose proof (step_F_length _ _ _ (required_iso_a2 _ Hreq) HF) as Hk.
  pose proof (remove_dups_length_le (map iso_a2 (rows_E py_str parse_float df_raw))) as Hd.
  rewrite length_map in Hd.
  split; [| done].
  assert (HA : (length (rows_A df_raw) <= length (raw_rows df_raw))%nat).
  { unfold rows_A. etrans; [apply filter_length_le |].
    unfold with_index. rewrite length_zip, length_seq. lia. }
  assert (HB : length (rows_B py_str parse_float df_raw) = length (rows_A df_raw)).
  { unfold rows_B. by rewrite length_map. }
  assert (HC : (length (rows_C_drop py_str parse_float df_raw)
                <= length (rows_B py_str parse_float df_raw))%nat).
  { apply filter_length_le. }
  assert (HD : length (rows_D py_str parse_float df_raw)
               = length (rows_C_drop py_str parse_float df_raw)).
  { unfold rows_D, impute_rows, rows_C. by rewrite !length_map. }
  assert (HE : (length (rows_E py_str parse_float df_raw)
                <= length (rows_D py_str parse_float df_raw))%nat).
  { apply filter_length_le. }
  lia.
Qed.

(** ** X2: life expectancy of the output *)

(** X2: in the output every [lifeExp] that is not null lies strictly
    between 0 and 120, the imputed ones included. *)
Theorem X2_lifeExp_within_range (df_raw : RawFrame) (generate_report : bool) :
  has_required_columns df_raw = true ->
  exists df rep,
    clean_world_data py_str parse_float df_raw generate_report = Ok (df, rep)
    /\ Forall (fun r => forall x, lifeExp r = Some x -> in_life_range x) (rows df).
Proof.
  intros Hreq.
  destruct (clean_world_data_rows py_str parse_float df_raw generate_report Hreq)
    as (df & kept & Hrun & _ & _ & Hclean & _).
  eexists _, _. split; [exact Hrun |].
  each_row Hclean as r Hr. apply Hr.
Qed.

(** ** X3: observed values are kept *)

(** X3: every record of the output stems from a record of the input: it has
    the identifiers, the continent and subregion, the [area_km2] and the
    [pop] of that record as coerced, its [gdpPercap] when it has one, and
    its [lifeExp] when it has one strictly inside (0, 120).  Cleaning alters
    no observed value it keeps. *)
Theorem X3_observed_values_are_kept (df_raw : RawFrame) (generate_report : bool) :
  has_required_columns df_raw = true ->
  exists df rep,
    clean_world_data py_str parse_float df_raw generate_report = Ok (df, rep)
    /\ Forall (fun r' =>
         exists ir,
           ir ∈ with_index (raw_rows df_raw)
           /\ let r := coerce_row py_str parse_float df_raw ir in
              iso_a2 r' = iso_a2 r /\ name_long r' = name_long r
              /\ continent r' = continent r /\ subregion r' = subregion r
              /\ area_km2 r' = area_km2 r /\ pop r' = pop r
              /\ (forall v, gdpPercap r = Some v -> gdpPercap r' = Some v)
              /\ (forall v, lifeExp r = Some v -> in_life_range v -> lifeExp r' = Some v))
         (rows df).
Proof.
  intros Hreq.
  destruct (clean_world_data_ok py_str parse_float df_raw generate_report Hreq)
    as (kept & HF & ->).
  destruct (step_F_ok (raw_columns df_raw) (rows_E py_str parse_float df_raw)
              (required_iso_a2 _ Hreq)) as (kept' & HF' & _ & Hfrom & _).
  rewrite HF in HF'. injection HF' as <-.
  eexists _, _. split; [done |]. cbn [rows].
  rewrite Forall_map. each_row Hfrom as r' (i & r & [Hr _]%rows_E_elem & ->).
  destruct (rows_D_origin df_raw r Hr) as (ir & Hir & _ & H).
  exists ir. split; [done |]. cbn zeta in *.
  destruct H as (_ & H1 & H2 & H3 & H4 & H5 & H6 & H7 & H8).
  destruct (with_density_fields i r) as (E1 & E2 & E3 & E4 & E5 & E6 & _).
  rewrite E1, E2, E3, E4, E5, E6.
  change (continent (with_density (set_index i r))) with (continent r).
  change (subregion (with_density (set_index i r))) with (subregion r).
  by rewrite <- H1, <- H2, <- H3, <- H4, <- H5, <- H6.
Qed.

(** ** X4: which duplicate is kept *)

(** X4: every record of the output is, up to its index label and its
    density, the first of the records with its [iso_a2] in the table
    deduplication starts from. *)
Theorem X4_first_record_of_each_iso_a2 (df_raw : RawFrame) (generate_report : bool) :
  has_required_columns df_raw = true ->
  exists df rep,
    clean_world_data py_str parse_float df_raw generate_report = Ok (df, rep)
    /\ Forall (fun r' =>
         exists r rest i,
           iso_group (iso_a2 r') (rows_E py_str parse_float df_raw) = r :: rest
           /\ r' = with_density (set_index i r))
         (rows df).
Proof.
  intros Hreq.
  destruct (clean_world_data_ok py_str parse_float df_raw generate_report Hreq)
    as (kept & HF & ->).
  pose proof (required_iso_a2 _ Hreq) as Hiso.
  eexists _, _. split; [done |]. cbn [rows]. rewrite Forall_map.
  unfold step_F, require in HF. cbn [columns rows] in HF. rewrite Hiso in HF.
  cbn [mbind result_bind] in HF.
  destruct (bool_decide (NoDup (map iso_a2 (rows_E py_str parse_float df_raw)))) eqn:Hnd;
    cbn [negb] in HF.
  - injection HF as <-. apply bool_decide_eq_true in Hnd.
    apply Forall_forall. intros r Hr. exists r, [], (index r).
    rewrite set_index_same. split; [| done].
    change (iso_a2 (with_density r)) with (iso_a2 r).
    by apply iso_group_singleton.
  - destruct (dedup_keeps_first_record py_str parse_float df_raw) as (kept0 & Hk & HF2).
    cbn zeta in Hk. rewrite Hk in HF. cbn [mbind result_bind] in HF. injection HF as <-.
    unfold reset_index. apply Forall_forall. intros r' Hr'.
    apply list_elem_of_lookup in Hr' as [i Hi].
    apply list_lookup_imap_Some in Hi as (r & Hr & ->).
    destruct (Forall2_lookup_r _ _ _ _ _ HF2 Hr) as (k & _ & rest & Hg).
    exists r, rest, i. split; [| done].
    assert (Hk' : r ∈ iso_group k (rows_E py_str parse_float df_raw)).
    { rewrite Hg. apply elem_of_cons. by left. }
    apply iso_group_elem in Hk' as [_ Hk'].
    change (iso_a2 (with_density (set_index i r))) with (iso_a2 r). by rewrite Hk'.
Qed.

(** ** X5, X6: order and index of the output *)

(** X5: [deduplicated_rows] is 0 exactly when no [iso_a2] occurs twice in
    the table deduplication starts from; the output is then that table with
    the density added: the records keep their order and the index labels
    they had in the input. *)
Theorem X5_no_duplicates_no_reordering (df_raw : RawFrame) (generate_report : bool) :
  has_required_columns df_raw = true ->
  exists df rep,
    clean_world_data py_str parse_float df_raw generate_report = Ok (df, rep)
    /\ (deduplicated_rows rep = 0%nat
        <-> NoDup (map iso_a2 (rows_E py_str parse_float df_raw)))
    /\ (deduplicated_rows rep = 0%nat ->
        rows df = map with_density (rows_E py_str parse_float df_raw)).
Proof.
  intros Hreq.
  destruct (clean_world_data_ok py_str parse_float df_raw generate_report Hreq)
    as (kept & HF & ->).
  pose proof (required_iso_a2 _ Hreq) as Hiso.
  pose proof (deduplicated_zero_NoDup _ _ Hiso HF) as Hz.
  eexists _, _. split; [done |]. cbn [rows deduplicated_rows report_of].
  split; [done |]. intros Hnd%Hz. f_equal.
  unfold step_F, require in HF. cbn [columns rows] in HF. rewrite Hiso in HF.
  cbn [mbind result_bind] in HF.
  rewrite bool_decide_eq_true_2 in HF by done. cbn [negb] in HF. by injection HF as <-.
Qed.

(** X6: when a duplicate was removed, the output is in ascending order of
    [iso_a2] and its index is 0, 1, ..., n-1. *)
Theorem X6_deduplicated_table_is_sorted (df_raw : RawFrame) (generate_report : bool) :
  has_required_columns df_raw = true ->
  exists df rep,
    clean_world_data py_str parse_float df_raw generate_report = Ok (df, rep)
    /\ (deduplicated_rows rep <> 0%nat ->
        ascending key_leb (map iso_a2 (rows df))
        /\ map index (rows df) = seq 0 (length (rows df))).
Proof.
  intros Hreq.
  destruct (clean_world_data_ok py_str parse_float df_raw generate_report Hreq)
    as (kept & HF & ->).
  pose proof (required_iso_a2 _ Hreq) as Hiso.
  pose proof (deduplicated_zero_NoDup _ _ Hiso HF) as Hz.
  eexists _, _. split; [done |]. cbn [rows deduplicated_rows report_of].
  intros Hnz. rewrite Hz in Hnz.
  unfold step_F, require in HF. cbn [columns rows] in HF. rewrite Hiso in HF.
  cbn [mbind result_bind] in HF.
  rewrite bool_decide_eq_false_2 in HF by done. cbn [negb] in HF.
  destruct (kept_rows_ok (rows_E py_str parse_float df_raw)) as (kept0 & Hk & HF2).
  rewrite Hk in HF. cbn [mbind result_bind] in HF. injection HF as <-.
  rewrite !map_map, length_map. unfold reset_index. rewrite length_imap. split.
  - rewrite (map_imap_inv _ iso_a2); [| done].
    erewrite Forall2_fmap_eq; [apply group_keys_ascending |].
    eapply Forall2_impl; [exact HF2 |]. by intros k r [_ ?].
  - change (fun x => index (with_density x)) with index.
    rewrite <- (map_id (seq 0 (length kept0))).
    by apply map_imap_seq.
Qed.

(** ** X7, X8: two counters of the report *)

(** X7: [dropped_missing_identifiers] is the number of records of the input
    whose [iso_a2] or [name_long] is null. *)
Theorem X7_identifier_counter (df_raw : RawFrame) (generate_report : bool) :
  has_required_columns df_raw = true ->
  exists df rep,
    clean_world_data py_str parse_float df_raw generate_report = Ok (df, rep)
    /\ dropped_missing_identifiers rep
       = length (List.filter (fun r => is_null (raw_iso_a2 r) || is_null (raw_name_long r))
                             (raw_rows df_raw)).
Proof.
  intros Hreq.
  destruct (clean_world_data_ok py_str parse_float df_raw generate_report Hreq)
    as (kept & HF & ->).
  eexists _, _. split; [done |]. cbn [dropped_missing_identifiers report_of].
  unfold rows_A.
  replace (length (raw_rows df_raw)) with (length (with_index (raw_rows df_raw))).
  2:{ unfold with_index. rewrite length_zip, length_seq. lia. }
  rewrite filter_length_complement. apply filter_length_same_mask.
  unfold with_index.
  rewrite <- (snd_zip (seq 0 (length (raw_rows df_raw))) (raw_rows df_raw)) at 3
    by (rewrite length_seq; lia).
  rewrite <- list_fmap_compose. apply map_ext. intros [i r]. cbn.
  unfold has_identifiers, not_null. cbn. by rewrite negb_andb, !negb_involutive.
Qed.

(** X8: the output has exactly one record for each [iso_a2] of the table
    deduplication starts from: no [iso_a2] occurs twice in the output, the
    output and that table have the same set of [iso_a2] values, so the
    output has as many records as that table has distinct [iso_a2], and
    [deduplicated_rows] is the number of records in excess of that. *)
Theorem X8_deduplicated_counter (df_raw : RawFrame) (generate_report : bool) :
  has_required_columns df_raw = true ->
  exists df rep,
    clean_world_data py_str parse_float df_raw generate_report = Ok (df, rep)
    /\ NoDup (map iso_a2 (rows df))
    /\ (forall k, k ∈ map iso_a2 (rows df)
                  <-> k ∈ map iso_a2 (rows_E py_str parse_float df_raw))
    /\ length (rows df)
       = length (remove_dups (map iso_a2 (rows_E py_str parse_float df_raw)))
    /\ (deduplicated_rows rep + length (rows df))%nat
       = length (rows_E py_str parse_float df_raw).
Proof.
  intros Hreq.
  destruct (clean_world_data_ok py_str parse_float df_raw generate_report Hreq)
    as (kept & HF & ->).
  eexists _, _. split; [done |]. cbn [rows deduplicated_rows report_of].
  destruct (step_F_ok _ (rows_E py_str parse_float df_raw) (required_iso_a2 _ Hreq))
    as (kept' & HF' & Hnd & _ & Hkeys).
  rewrite HF in HF'. injection HF' as <-.
  assert (Hiso : map iso_a2 (map with_density kept) = map iso_a2 kept).
  { rewrite map_map. by apply map_ext. }
  rewrite Hiso. split; [done |]. split; [done |].
  rewrite length_map.
  pose proof (step_F_length _ _ _ (required_iso_a2 _ Hreq) HF) as Hk.
  pose proof (remove_dups_length_le (map iso_a2 (rows_E py_str parse_float df_raw))) as Hd.
  rewrite length_map in Hd. split; [done | lia].
Qed.
End Provenance.

Lemma X1_report_accounts_for_every_record_witness :
  has_required_columns raw_df_for_cleaning = true
  /\ exists df rep,
       clean_world_data example_str example_parse raw_df_for_cleaning true = Ok (df, rep)
       /\ length (raw_rows raw_df_for_cleaning)
          = (length (rows df) + dropped_missing_identifiers rep
             + dropped_invalid_nonpositive rep + dropped_missing_area_or_pop rep
             + deduplicated_rows rep)%nat
       /\ row_count rep = Some (length (rows df)).
Proof.
  split; [reflexivity |].
  apply (X1_report_accounts_for_every_record example_str example_parse
           raw_df_for_cleaning true).
  reflexivity.
Defined.

Lemma X2_lifeExp_within_range_witness :
  has_required_columns raw_df_for_cleaning = true
  /\ exists df rep,
       clean_world_data example_str example_parse raw_df_for_cleaning true = Ok (df, rep)
       /\ Forall (fun r => forall x, lifeExp r = Some x -> in_life_range x) (rows df).
Proof.
  split; [reflexivity |].
  apply (X2_lifeExp_within_range example_str example_parse raw_df_for_cleaning true).
  reflexivity.
Defined.

Lemma X3_observed_values_are_kept_witness :
  has_required_columns raw_df_for_cleaning = true
  /\ exists df rep,
       clean_world_data example_str example_parse raw_df_for_cleaning true = Ok (df, rep)
       /\ Forall (fun r' =>
            exists ir,
              ir ∈ with_index (raw_rows raw_df_for_cleaning)
              /\ let r := coerce_row example_str example_parse raw_df_for_cleaning ir in
                 iso_a2 r' = iso_a2 r /\ name_long r' = name_long r
                 /\ continent r' = continent r /\ subregion r' = subregion r
                 /\ area_km2 r' = area_km2 r /\ pop r' = pop r
                 /\ (forall v, gdpPercap r = Some v -> gdpPercap r' = Some v)
                 /\ (forall v, lifeExp r = Some v -> in_life_range v ->
                               lifeExp r' = Some v))
            (rows df).
Proof.
  split; [reflexivity |].
  apply (X3_observed_values_are_kept example_str example_parse raw_df_for_cleaning true).
  reflexivity.
Defined.

Lemma X4_first_record_of_each_iso_a2_witness :
  has_required_columns table_duplicate_incomplete_first = true
  /\ exists df rep,
       clean_world_data example_str example_parse table_duplicate_incomplete_first true
         = Ok (df, rep)
       /\ Forall (fun r' =>
            exists r rest i,
              iso_group (iso_a2 r')
                (rows_E example_str example_parse table_duplicate_incomplete_first)
              = r :: rest
              /\ r' = with_density (set_index i r))
            (rows df).
Proof.
  split; [reflexivity |].
  apply (X4_first_record_of_each_iso_a2 example_str example_parse
           table_duplicate_incomplete_first true).
  reflexivity.
Defined.

Lemma X5_no_duplicates_no_reordering_witness :
  has_required_columns table_lonely_null = true
  /\ exists df rep,
       clean_world_data example_str example_parse table_lonely_null true = Ok (df, rep)
       /\ (deduplicated_rows rep = 0%nat
           <-> NoDup (map iso_a2 (rows_E example_str example_parse table_lonely_null)))
       /\ (deduplicated_rows rep = 0%nat ->
           rows df = map with_density (rows_E example_str example_parse table_lonely_null)).
Proof.
  split; [reflexivity |].
  apply (X5_no_duplicates_no_reordering example_str example_parse table_lonely_null true).
  reflexivity.
Defined.

Lemma X6_deduplicated_table_is_sorted_witness :
  has_required_columns table_duplicate_incomplete_first = true
  /\ exists df rep,
       clean_world_data example_str example_parse table_duplicate_incomplete_first true
         = Ok (df, rep)
       /\ (deduplicated_rows rep <> 0%nat ->
           ascending key_leb (map iso_a2 (rows df))
           /\ map index (rows df) = seq 0 (length (rows df))).
Proof.
  split; [reflexivity |].
  apply (X6_deduplicated_table_is_sorted example_str example_parse
           table_duplicate_incomplete_first true).
  reflexivity.
Defined.

Lemma X7_identifier_counter_witness :
  has_required_columns raw_df_for_cleaning = true
  /\ exists df rep,
       clean_world_data example_str example_parse raw_df_for_cleaning true = Ok (df, rep)
       /\ dropped_missing_identifiers rep
          = length (List.filter
                      (fun r => is_null (raw_iso_a2 r) || is_null (raw_name_long r))
                      (raw_rows raw_df_for_cleaning)).
Proof.
  split; [reflexivity |].
  apply (X7_identifier_counter example_str example_parse raw_df_for_cleaning true).
  reflexivity.
Defined.

Lemma X8_deduplicated_counter_witness :
  has_required_columns raw_df_for_cleaning = true
  /\ exists df rep,
       clean_world_data example_str example_parse raw_df_for_cleaning true = Ok (df, rep)
       /\ NoDup (map iso_a2 (rows df))
       /\ (forall k, k ∈ map iso_a2 (rows df)
                     <-> k ∈ map iso_a2
                               (rows_E example_str example_parse raw_df_for_cleaning))
       /\ length (rows df)
          = length (remove_dups
                      (map iso_a2 (rows_E example_str example_parse raw_df_for_cleaning)))
       /\ (deduplicated_rows rep + length (rows df))%nat
          = length (rows_E example_str example_parse raw_df_for_cleaning).
Proof.
  split; [reflexivity |].
  apply (X8_deduplicated_counter example_str example_parse raw_df_for_cleaning true).
  reflexivity.
Defined.

(** The fixture has two records for [AA]: the second is the one removed,
    the index is reset and the output is in order of [iso_a2]. *)
Example raw_df_for_cleaning_deduplicated :
  exists df rep,
    clean_world_data example_str example_parse raw_df_for_cleaning true = Ok (df, rep)
    /\ deduplicated_rows rep = 1%nat
    /\ dropped_missing_identifiers rep = 2%nat
    /\ map (fun r => (index r, iso_a2 r)) (rows df) = [(0%nat, Some "AA"); (1%nat, Some "DD")].
Proof. eexists _, _. split; [vm_compute; reflexivity |]. by vm_compute. Qed.

(** ** X9 to X11: the imputation *)

(** X9: whatever [groups_priority] is and whichever columns the table has,
    when [_imputation_groupwise_median] returns, the column it returns has
    one entry per row and every value that was not null is unchanged. *)
Theorem X9_imputation_fills_only_nulls (df : DataFrame) (col : string)
    (groups_priority : list string) (filled : list (option num)) (counts : ImputeCounts) :
  _imputation_groupwise_median df col groups_priority = Ok (filled, counts) ->
  Forall2 (fun r v => forall x, numeric_field col r = Some x -> v = Some x) (rows df) filled.
Proof.
  unfold _imputation_groupwise_median, require.
  destruct (has_column (columns df) col); [| done]. cbn [mbind result_bind].
  assert (Hfin : forall f : Row -> option num,
            (forall r x, numeric_field col r = Some x -> f r = Some x) ->
            Forall2 (fun r v => forall x, numeric_field col r = Some x -> v = Some x)
                    (rows df) (map f (rows df))).
  { intros f Hf. apply Forall2_fmap_r, Forall_Forall2_diag, Forall_forall. auto. }
  destruct (negb (mask_any (isna (map (numeric_field col) (rows df))))).
  { intros [= <- _]. by apply Hfin. }
  assert (Hsub : exists f1 n1,
            ((if bool_decide ("subregion" ∈ groups_priority)
              then impute_tier df col "subregion" (map (numeric_field col) (rows df))
                     (isna (map (numeric_field col) (rows df)))
              else Ok (map (numeric_field col) (rows df), 0%nat,
                       isna (map (numeric_field col) (rows df))))
             = Ok (map f1 (rows df), n1, isna (map f1 (rows df)))
             /\ (forall r x, numeric_field col r = Some x -> f1 r = Some x))
            \/ (if bool_decide ("subregion" ∈ groups_priority)
                then impute_tier df col "subregion" (map (numeric_field col) (rows df))
                       (isna (map (numeric_field col) (rows df)))
                else Ok (map (numeric_field col) (rows df), 0%nat,
                         isna (map (numeric_field col) (rows df))))
               = Raise (KeyError ["subregion"])).
  { destruct (bool_decide ("subregion" ∈ groups_priority)).
    - destruct (impute_tier_cases df col "subregion" (map (numeric_field col) (rows df))
                  (isna (map (numeric_field col) (rows df)))) as [[out E] | [E _]].
      + destruct (impute_tier_state df col _ _ out E) as (f1 & n1 & -> & Hf1).
        exists f1, n1. left. by split.
      + exists (numeric_field col), 0%nat. by right.
    - eexists _, _. left. by split. }
  destruct Hsub as (f1 & n1 & [[-> Hf1] | ->]); [| done]. cbn [mbind result_bind].
  assert (Hcont : exists f2 n2,
            ((if bool_decide ("continent" ∈ groups_priority)
                 && mask_any (isna (map f1 (rows df)))
              then impute_tier df col "continent" (map f1 (rows df))
                     (isna (map f1 (rows df)))
              else Ok (map f1 (rows df), 0%nat, isna (map f1 (rows df))))
             = Ok (map f2 (rows df), n2, isna (map f2 (rows df)))
             /\ (forall r x, numeric_field col r = Some x -> f2 r = Some x))
            \/ (if bool_decide ("continent" ∈ groups_priority)
                   && mask_any (isna (map f1 (rows df)))
                then impute_tier df col "continent" (map f1 (rows df))
                       (isna (map f1 (rows df)))
                else Ok (map f1 (rows df), 0%nat, isna (map f1 (rows df))))
               = Raise (KeyError ["continent"])).
  { destruct (bool_decide ("continent" ∈ groups_priority)
              && mask_any (isna (map f1 (rows df)))).
    - destruct (impute_tier_cases df col "continent" (map f1 (rows df))
                  (isna (map f1 (rows df)))) as [[out E] | [E _]].
      + destruct (impute_tier_state df col _ _ out E) as (f2 & n2 & -> & Hf2).
        exists f2, n2. left. split; [done |]. auto.
      + exists f1, 0%nat. by right.
    - eexists _, _. left. by split. }
  destruct Hcont as (f2 & n2 & [[-> Hf2] | ->]); [| done]. cbn [mbind result_bind].
  destruct (mask_any (isna (map f2 (rows df)))).
  - intros [= <- _]. rewrite isna_map, loc_assign_map. apply Hfin.
    intros r x Hx. by rewrite (Hf2 r x Hx).
  - intros [= <- _]. by apply Hfin.
Qed.

Lemma X9_imputation_fills_only_nulls_witness :
  _imputation_groupwise_median frame_two_tiers "lifeExp" ["continent"]
  = Ok ([Some (Float.of_Z 10); Some (Float.of_Z 25); Some (Float.of_Z 25);
         Some (Float.of_Z 40)], mkImputeCounts 0 2 0)
  /\ Forall2 (fun r v => forall x, numeric_field "lifeExp" r = Some x -> v = Some x)
       (rows frame_two_tiers)
       [Some (Float.of_Z 10); Some (Float.of_Z 25); Some (Float.of_Z 25);
        Some (Float.of_Z 40)].
Proof.
  split; [vm_compute; reflexivity |].
  apply (X9_imputation_fills_only_nulls frame_two_tiers "lifeExp" ["continent"] _
           (mkImputeCounts 0 2 0)).
  vm_compute. reflexivity.
Defined.

(** X10: the three counts of an imputation bracket the number of nulls the
    column had: each count is at most that number, and their sum is at
    least that number, since every null is counted at the first tier for
    which its row has a group, or else at the global tier. *)
Theorem X10_imputation_counts_bounds (df : DataFrame) (col : string) :
  has_column (columns df) col = true ->
  has_column (columns df) "subregion" = true ->
  has_column (columns df) "continent" = true ->
  exists filled counts,
    _imputation_groupwise_median df col ["subregion"; "continent"] = Ok (filled, counts)
    /\ let nulls := length (List.filter (fun r => is_null (numeric_field col r)) (rows df)) in
       (nulls <= by_subregion counts + by_continent counts + by_global counts)%nat
       /\ (by_subregion counts <= nulls)%nat
       /\ (by_continent counts <= nulls)%nat
       /\ (by_global counts <= nulls)%nat.
Proof.
  intros H1 H2 H3. rewrite (imputation_spec df col H1 H2 H3).
  eexists _, _. split; [done |]. cbn zeta.
  cbn [impute_counts by_subregion by_continent by_global].
  assert (Hsub : forall r, is_null (after_subregion col (rows df) r) = true
                           -> is_null (numeric_field col r) = true).
  { intros r. unfold after_subregion, tier_value. by destruct (numeric_field col r). }
  assert (Hcont : forall r, is_null (after_continent col (rows df) r) = true
                            -> is_null (after_subregion col (rows df) r) = true).
  { intros r. unfold after_continent, tier_value.
    by destruct (after_subregion col (rows df) r). }
  split; [| split; [| split]].
  - apply filter_length_cover. intros r Hr. unfold tier_counted. rewrite Hr.
    unfold after_continent, after_subregion, tier_value.
    destruct (numeric_field col r); [done |].
    destruct (group_field "subregion" r); [done |].
    by destruct (group_field "continent" r).
  - apply filter_length_mono. unfold tier_counted. by intros r [? _]%andb_true_iff.
  - apply filter_length_mono. unfold tier_counted. intros r [? _]%andb_true_iff. auto.
  - apply filter_length_mono. auto.
Qed.

Lemma X10_imputation_counts_bounds_witness :
  has_column (columns frame_two_tiers) "lifeExp" = true
  /\ has_column (columns frame_two_tiers) "subregion" = true
  /\ has_column (columns frame_two_tiers) "continent" = true
  /\ exists filled counts,
       _imputation_groupwise_median frame_two_tiers "lifeExp" ["subregion"; "continent"]
       = Ok (filled, counts)
       /\ let nulls := length (List.filter (fun r => is_null (numeric_field "lifeExp" r))
                                           (rows frame_two_tiers)) in
          (nulls <= by_subregion counts + by_continent counts + by_global counts)%nat
          /\ (by_subregion counts <= nulls)%nat
          /\ (by_continent counts <= nulls)%nat
          /\ (by_global counts <= nulls)%nat.
Proof.
  split; [reflexivity |]. split; [reflexivity |]. split; [reflexivity |].
  apply (X10_imputation_counts_bounds frame_two_tiers "lifeExp"); reflexivity.
Defined.

(** X11: imputation stays within the observed values: if every value of the
    column lies in a finite interval [[lo, hi]] within [-2^1022, 2^1022],
    so does every value of the column returned.  The bound on the interval
    keeps the sum of two values, which the median of an even number of
    values halves, within float64; beyond it the sum overflows to an
    infinity, which [Float.add], an exact sum, does not model. *)
Theorem X11_imputed_values_within_observed_bounds (df : DataFrame) (col : string)
    (lo hi : Q) :
  has_column (columns df) col = true ->
  has_column (columns df) "subregion" = true ->
  has_column (columns df) "continent" = true ->
  (- FLOAT64_SAFE <= lo)%Q ->
  (hi <= FLOAT64_SAFE)%Q ->
  Forall (fun r => forall x, numeric_field col r = Some x -> between lo hi x) (rows df) ->
  exists filled counts,
    _imputation_groupwise_median df col ["subregion"; "continent"] = Ok (filled, counts)
    /\ Forall (fun v => forall x, v = Some x -> between lo hi x) filled.
Proof.
  intros H1 H2 H3 _ _ Hobs. rewrite (imputation_spec df col H1 H2 H3).
  eexists _, _. split; [done |]. rewrite Forall_map.
  apply Forall_forall. intros r Hr.
  apply (impute_value_closed (between lo hi) (between_mean lo hi) col (rows df) Hobs r).
  rewrite Forall_forall in Hobs. exact (Hobs r Hr).
Qed.

Lemma X11_imputed_values_within_observed_bounds_witness :
  has_column (columns frame_two_tiers) "lifeExp" = true
  /\ has_column (columns frame_two_tiers) "subregion" = true
  /\ has_column (columns frame_two_tiers) "continent" = true
  /\ (- FLOAT64_SAFE <= 10)%Q
  /\ (40 <= FLOAT64_SAFE)%Q
  /\ Forall (fun r => forall x, numeric_field "lifeExp" r = Some x -> between 10 40 x)
            (rows frame_two_tiers)
  /\ exists filled counts,
       _imputation_groupwise_median frame_two_tiers "lifeExp" ["subregion"; "continent"]
       = Ok (filled, counts)
       /\ Forall (fun v => forall x, v = Some x -> between 10 40 x) filled.
Proof.
  assert (Hobs : Forall (fun r => forall x, numeric_field "lifeExp" r = Some x ->
                                            between 10 40 x) (rows frame_two_tiers)).
  { repeat constructor; intros x [= <-]; by vm_compute. }
  split; [reflexivity |]. split; [reflexivity |]. split; [reflexivity |].
  split; [vm_compute; discriminate |]. split; [vm_compute; discriminate |].
  split; [exact Hobs |].
  apply (X11_imputed_values_within_observed_bounds frame_two_tiers "lifeExp" 10 40);
    [reflexivity | reflexivity | reflexivity
     | vm_compute; discriminate | vm_compute; discriminate | exact Hobs].
Defined.

(** ** X12: the choice among duplicated rows *)

(** X12: on a group that has the columns [important_cols], all of them
    among the four numeric columns (step F passes those four),
    [_choose_row_with_more_non_nulls] raises [ValueError] exactly when the
    group is empty; on a non-empty group with distinct index labels it
    returns the first of the rows with the most non-null values in
    [important_cols]: every row before it has strictly fewer, no row after
    it has more. *)
Theorem X12_choose_row_first_most_complete (group : DataFrame) (cols : list string) :
  Forall (fun c => c ∈ NUMERIC_COLS) cols ->
  Forall (fun c => has_column (columns group) c = true) cols ->
  (_choose_row_with_more_non_nulls (rows group) cols = Raise ValueError
   <-> rows group = [])
  /\ (NoDup (map index (rows group)) -> rows group <> [] ->
      exists r pre post,
        _choose_row_with_more_non_nulls (rows group) cols = Ok r
        /\ rows group = (pre ++ r :: post)%list
        /\ Forall (fun x => non_null_count cols x < non_null_count cols r)%nat pre
        /\ Forall (fun x => non_null_count cols x <= non_null_count cols r)%nat post).
Proof.
  intros _ _. split; [| apply choose_row_first_max].
  split; [| by intros ->].
  intros H. destruct (rows group) as [| r rs]; [done |].
  destruct (choose_row_in (r :: rs) cols) as (r' & E & _); [done |]. congruence.
Qed.

Lemma X12_choose_row_first_most_complete_witness :
  Forall (fun c => c ∈ NUMERIC_COLS) NUMERIC_COLS
  /\ Forall (fun c => has_column (columns frame_two_tiers) c = true) NUMERIC_COLS
  /\ NoDup (map index (rows frame_two_tiers))
  /\ rows frame_two_tiers <> []
  /\ exists r pre post,
       _choose_row_with_more_non_nulls (rows frame_two_tiers) NUMERIC_COLS = Ok r
       /\ rows frame_two_tiers = (pre ++ r :: post)%list
       /\ Forall (fun x => non_null_count NUMERIC_COLS x < non_null_count NUMERIC_COLS r)%nat
                 pre
       /\ Forall (fun x => non_null_count NUMERIC_COLS x <= non_null_count NUMERIC_COLS r)%nat
                 post.
Proof.
  assert (H1 : Forall (fun c => c ∈ NUMERIC_COLS) NUMERIC_COLS).
  { apply Forall_forall. by intros c Hc. }
  assert (H2 : Forall (fun c => has_column (columns frame_two_tiers) c = true) NUMERIC_COLS).
  { repeat constructor. }
  assert (H3 : NoDup (map index (rows frame_two_tiers))).
  { apply (bool_decide_unpack _). vm_compute. exact I. }
  split; [exact H1 |]. split; [exact H2 |]. split; [exact H3 |]. split; [done |].
  apply (X12_choose_row_first_most_complete frame_two_tiers NUMERIC_COLS H1 H2);
    [exact H3 | done].
Defined.

(** On [frame_two_tiers] the first and the last row have four non-null
    values, the two in between three: the first row is chosen. *)
Example choose_row_of_frame_two_tiers :
  map (non_null_count NUMERIC_COLS) (rows frame_two_tiers) = [4; 3; 3; 4]%nat
  /\ exists r, _choose_row_with_more_non_nulls (rows frame_two_tiers) NUMERIC_COLS = Ok r
               /\ index r = 0%nat.
Proof. split; [reflexivity |]. eexists. split; reflexivity. Qed.

(* ================================================================== *)
(** * Text: numeric strings and file-name slugs *)
(* ================================================================== *)

(** ** Stripping and replacing *)

Lemma lstrip_fixed (s : text) :
  (forall c t, s = c :: t -> is_space c = false) -> lstrip s = s.
Proof. destruct s as [| c s]; [done |]. intros H. cbn. by rewrite (H c s). Qed.

Lemma lstrip_spaces (ws s : text) :
  Forall (fun c => is_space c = true) ws -> lstrip (ws ++ s)%list = lstrip s.
Proof. induction 1 as [| c ws Hc _ IH]; [done |]. cbn. by rewrite Hc. Qed.

Lemma strip_trimmed (s : text) : trimmed (strip s).
Proof.
  unfold strip, rstrip. split.
  - intros c t H.
    destruct (lstrip_suffix (rev (lstrip s))) as [sp Hsp].
    apply (f_equal (@rev N)) in Hsp.
    rewrite rev_involutive, rev_app_distr, H in Hsp. simpl in Hsp.
    destruct (lstrip s) as [| d u] eqn:E.
    + by destruct (rev sp).
    + injection Hsp as -> _. by apply lstrip_head in E.
  - intros c t H. apply (f_equal (@rev N)) in H.
    rewrite rev_involutive, rev_app_distr in H. simpl in H.
    by apply lstrip_head in H.
Qed.

Lemma strip_fixed (s : text) : trimmed s -> strip s = s.
Proof.
  intros [Hh Ht]. unfold strip, rstrip. rewrite (lstrip_fixed s Hh).
  rewrite lstrip_fixed; [apply rev_involutive |].
  intros c t E. apply (Ht c (rev t)).
  rewrite <- (rev_involutive s), E. reflexivity.
Qed.

Lemma strip_idempotent (s : text) : strip (strip s) = strip s.
Proof. apply strip_fixed, strip_trimmed. Qed.

Lemma strip_padded (ws1 ws2 s : text) :
  Forall (fun c => is_space c = true) ws1 ->
  Forall (fun c => is_space c = true) ws2 ->
  trimmed s -> strip (ws1 ++ s ++ ws2)%list = s.
Proof.
  intros H1 H2 [Hh Ht]. unfold strip, rstrip. rewrite (lstrip_spaces _ _ H1).
  destruct s as [| c s].
  - cbn [app]. rewrite <- (app_nil_r ws2), lstrip_spaces by done. reflexivity.
  - cbn [app lstrip]. rewrite (Hh c s eq_refl).
    change (c :: (s ++ ws2)%list) with ((c :: s) ++ ws2)%list.
    rewrite rev_app_distr, lstrip_spaces.
    + rewrite lstrip_fixed; [apply rev_involutive |].
      intros d t E. apply (Ht d (rev t)).
      rewrite <- (rev_involutive (c :: s)), E. reflexivity.
    + apply Forall_forall. intros d Hd. rewrite Forall_forall in H2. apply H2.
      by apply list_elem_of_In, in_rev, list_elem_of_In in Hd.
Qed.

Lemma str_replace_cons (old : N) (new s : text) (c : N) :
  str_replace old new (c :: s)
  = ((if (c =? old)%N then new else [c]) ++ str_replace old new s)%list.
Proof. reflexivity. Qed.

Lemma str_replace_app (old : N) (new a b : text) :
  str_replace old new (a ++ b)%list = (str_replace old new a ++ str_replace old new b)%list.
Proof. apply flat_map_app. Qed.

Lemma str_replace_absent (old : N) (new s : text) :
  old ∉ s -> str_replace old new s = s.
Proof.
  induction s as [| c s IH]; [done |]. intros H.
  apply not_elem_of_cons in H as [Hc Hs]. rewrite str_replace_cons, IH by done.
  destruct (N.eqb_spec c old); [congruence | done].
Qed.

Lemma str_replace_char (old new : N) (s : text) :
  str_replace old [new] s = map (fun c => if (c =? old)%N then new else c) s.
Proof.
  induction s as [| c s IH]; [done |]. rewrite str_replace_cons, IH. cbn [map].
  by destruct (c =? old)%N.
Qed.

Lemma trimmed_map (f : N -> N) (s : text) :
  (forall c, is_space c = false -> is_space (f c) = false) ->
  trimmed s -> trimmed (map f s).
Proof.
  intros Hf [Hh Ht]. split.
  - intros c t E. destruct s as [| d s]; [done |]. injection E as <- _.
    apply Hf, (Hh d s eq_refl).
  - intros c t E. destruct (rev s) as [| d u] eqn:Er.
    + apply (f_equal (@rev N)) in Er. rewrite rev_involutive in Er. subst s.
      by destruct t.
    + apply (f_equal (@rev N)) in Er. rewrite rev_involutive in Er. cbn in Er. subst s.
      rewrite map_app in E. cbn in E. apply app_inj_tail in E as [_ <-].
      apply Hf, (Ht d (rev u) eq_refl).
Qed.

(** ** X13: what [_to_numeric_safe] makes of a string *)

(** X13: the text handed to the parser does not depend on the commas of the
    cell (removing them beforehand changes nothing), nor on whether a space
    is a no-break space or an ordinary one; and it is a fixed point:
    cleaning it again changes nothing. *)
Theorem X13_numeric_text_normal_form (s : text) :
  clean_text (List.filter (fun c => negb (c =? COMMA)%N) s) = clean_text s
  /\ clean_text (map (fun c => if (c =? NBSP)%N then SPACE else c) s) = clean_text s
  /\ clean_text (clean_text s) = clean_text s.
Proof.
  split; [| split].
  - unfold clean_text. f_equal.
    induction s as [| c s IH]; [done |]. cbn [List.filter].
    destruct (N.eqb_spec c COMMA) as [-> | Hc]; cbn [negb].
    + rewrite IH. reflexivity.
    + rewrite !(str_replace_cons NBSP), !str_replace_app, IH. reflexivity.
  - unfold clean_text. do 2 f_equal.
    induction s as [| c s IH]; [done |]. cbn [map].
    rewrite !str_replace_cons, IH.
    destruct (c =? NBSP)%N eqn:E; [done | by rewrite E].
  - destruct (clean_text_no_separator s) as [Hc Hn].
    unfold clean_text at 1.
    rewrite (str_replace_absent NBSP) by done.
    rewrite (str_replace_absent COMMA) by done.
    apply strip_idempotent.
Qed.

(** ["1,234,567"], ["1234567"] and [" 1 234,567 "] written with no-break
    spaces or with ordinary ones: the parser is handed the same text. *)
Example numeric_text_examples :
  clean_text (text_of_string "1,234,567") = text_of_string "1234567"
  /\ clean_text ([NBSP] ++ text_of_string "1" ++ [NBSP] ++ text_of_string "234,567"
                 ++ [NBSP])%list
     = text_of_string "1 234567"
  /\ clean_text (text_of_string " 1 234,567 ") = text_of_string "1 234567".
Proof. repeat split; reflexivity. Qed.

(** ** X14, X15: [_slug] *)

Lemma slug_some (c : N) (s : text) :
  _slug (Some (c :: s))
  = map (fun c => if (c =? BACKSLASH)%N then HYPHEN else c)
      (map (fun c => if (c =? SLASH)%N then HYPHEN else c)
         (map (fun c => if (c =? SPACE)%N then UNDERSCORE else c) (strip (c :: s)))).
Proof. unfold _slug. by rewrite !str_replace_char. Qed.

Lemma slug_no_separator (s : option text) :
  (SPACE ∉ _slug s) /\ (SLASH ∉ _slug s) /\ (BACKSLASH ∉ _slug s).
Proof.
  assert (Hall : (SPACE ∉ text_of_string "all") /\ (SLASH ∉ text_of_string "all")
                 /\ (BACKSLASH ∉ text_of_string "all")).
  { repeat split; apply (bool_decide_unpack _); vm_compute; exact I. }
  destruct s as [[| c s] |]; [done | | done]. unfold _slug.
  split; [| split].
  - apply str_replace_other; [| by intros [=]%list_elem_of_singleton].
    apply str_replace_other; [| by intros [=]%list_elem_of_singleton].
    apply str_replace_removed. by intros [=]%list_elem_of_singleton.
  - apply str_replace_other; [| by intros [=]%list_elem_of_singleton].
    apply str_replace_removed. by intros [=]%list_elem_of_singleton.
  - apply str_replace_removed. by intros [=]%list_elem_of_singleton.
Qed.

Lemma slug_trimmed (s : option text) : trimmed (_slug s).
Proof.
  assert (Hall : trimmed (text_of_string "all")).
  { split; intros c t E.
    - by injection E as <- _.
    - change (text_of_string "all") with ([97; 108] ++ [108])%N%list in E.
      by apply app_inj_tail in E as [_ <-]. }
  destruct s as [[| c s] |]; [done | | done]. rewrite slug_some.
  repeat apply trimmed_map; try apply strip_trimmed.
  all: intros d Hd; match goal with |- context [(d =? ?x)%N] => by destruct (d =? x)%N end.
Qed.

(** X14: a slug contains no space (U+0020), no slash and no backslash, and
    has no white space at either end; it is as long as the stripped input
    (or is ["all"]). *)
Theorem X14_slug_has_no_separator (s : option text) :
  (SPACE ∉ _slug s) /\ (SLASH ∉ _slug s) /\ (BACKSLASH ∉ _slug s)
  /\ trimmed (_slug s)
  /\ (_slug s = text_of_string "all"
      \/ exists t, s = Some t /\ length (_slug s) = length (strip t)).
Proof.
  destruct (slug_no_separator s) as (H1 & H2 & H3).
  do 3 (split; [done |]). split; [apply slug_trimmed |].
  destruct s as [[| c s] |]; [by left | | by left].
  right. exists (c :: s). split; [done |]. by rewrite slug_some, !length_map.
Qed.

(** X15: the slug is the empty string exactly when the input is not empty
    and consists of white space only (["all"] stands for an absent or an
    empty value only), so that the file name has an empty part; every
    other slug is its own slug. *)
Theorem X15_slug_fixed_point (s : option text) :
  (_slug s = [] <-> exists t, s = Some t /\ t <> [] /\ strip t = [])
  /\ (_slug s <> [] -> _slug (Some (_slug s)) = _slug s).
Proof.
  split; [split |].
  - destruct s as [[| c s] |]; [done | | done]. rewrite slug_some. intros E.
    exists (c :: s). split; [done |]. split; [done |].
    by repeat apply map_eq_nil in E.
  - intros (t & -> & Hne & Hs). destruct t as [| c t]; [done |].
    rewrite slug_some, Hs. reflexivity.
  - intros Hne. destruct (slug_no_separator s) as (H1 & H2 & H3).
    pose proof (slug_trimmed s) as Ht.
    destruct (_slug s) as [| c u] eqn:E; [done |]. unfold _slug.
    rewrite (strip_fixed _ Ht).
    rewrite (str_replace_absent SPACE) by done.
    rewrite (str_replace_absent SLASH) by done.
    by rewrite (str_replace_absent BACKSLASH).
Qed.

Example slug_examples :
  _slug (Some (text_of_string " South America/Caribbean "))
  = text_of_string "South_America-Caribbean"
  /\ _slug None = text_of_string "all"
  /\ _slug (Some (text_of_string "")) = text_of_string "all"
  /\ _slug (Some (text_of_string "  ")) = text_of_string "".
Proof. repeat split; reflexivity. Qed.

(* ================================================================== *)
(** * [src/main.py]: the interactive filter *)
(* ================================================================== *)

Lemma filter_filter {A} (p q : A -> bool) (l : list A) :
  List.filter q (List.filter p l) = List.filter (fun x => p x && q x) l.
Proof.
  induction l as [| x l IH]; [done |]. cbn. destruct (p x); cbn; [| done].
  destruct (q x); by rewrite IH.
Qed.

Lemma forallb_Permutation {A} (p : A -> bool) (l l' : list A) :
  l ≡ₚ l' -> forallb p l = forallb p l'.
Proof.
  induction 1 as [| x l l' _ IH | x y l | l l' l'' _ IH1 _ IH2]; cbn.
  - done.
  - by rewrite IH.
  - by destruct (p x), (p y).
  - congruence.
Qed.

Lemma existsb_Permutation {A} (p : A -> bool) (l l' : list A) :
  l ≡ₚ l' -> existsb p l = existsb p l'.
Proof.
  induction 1 as [| x l l' _ IH | x y l | l l' l'' _ IH1 _ IH2]; cbn.
  - done.
  - by rewrite IH.
  - by destruct (p x), (p y).
  - congruence.
Qed.

(** The order of Python on [str] is a total order. *)
Lemma text_leb_total (a b : text) : text_leb a b = true \/ text_leb b a = true.
Proof.
  revert b. induction a as [| x a IH]; intros [| y b]; cbn; auto.
  destruct (N.ltb_spec x y), (N.ltb_spec y x); auto; lia.
Qed.

Lemma text_leb_trans (a b c : text) :
  text_leb a b = true -> text_leb b c = true -> text_leb a c = true.
Proof.
  revert b c. induction a as [| x a IH]; intros [| y b] [| z c]; cbn; try done.
  destruct (N.ltb_spec x y), (N.ltb_spec y x), (N.ltb_spec y z), (N.ltb_spec z y),
    (N.ltb_spec x z), (N.ltb_spec z x); try done; try lia.
  apply IH.
Qed.

Section InteractiveFacts.
Variable py_str : num -> text.
Variable lower : text -> text.

(** ** The options of a column *)

Lemma column_options_elem (df : Table) (col : string) (o : text) :
  o ∈ column_options py_str df col
  <-> exists r, r ∈ table_rows df /\ cell_isna (r col) = false
                /\ astype_str py_str (r col) = o.
Proof.
  unfold column_options. rewrite (sort_Permutation text_leb), elem_of_remove_dups.
  rewrite list_elem_of_fmap. split.
  - intros (c & -> & Hc). apply list_elem_of_In, filter_In in Hc as [Hc Hna].
    apply list_elem_of_In, list_elem_of_fmap in Hc as (r & -> & Hr).
    exists r. split; [done |]. split; [| done]. by apply negb_true_iff.
  - intros (r & Hr & Hna & <-). exists (r col). split; [done |].
    apply list_elem_of_In, filter_In. split.
    + apply list_elem_of_In, list_elem_of_fmap. by exists r.
    + by rewrite Hna.
Qed.

Lemma column_options_NoDup (df : Table) (col : string) :
  NoDup (column_options py_str df col).
Proof. apply sort_NoDup, NoDup_remove_dups. Qed.

Lemma column_options_ascending (df : Table) (col : string) :
  ascending text_leb (column_options py_str df col).
Proof. apply sort_ascending; [apply text_leb_total | apply text_leb_trans]. Qed.

Lemma slice_to_subseteq {A} (stop : Z) (l : list A) : slice_to stop l ⊆ l.
Proof. unfold slice_to. destruct (stop <? 0)%Z; apply subseteq_take. Qed.

Lemma slice_to_length {A} (stop : Z) (l : list A) :
  length (slice_to stop l)
  = if (stop <? 0)%Z then (length l - Z.to_nat (- stop))%nat
    else Nat.min (Z.to_nat stop) (length l).
Proof. unfold slice_to. destruct (stop <? 0)%Z; rewrite length_take; lia. Qed.

(** X16: each entry of what [_list_options] returns is the marker ["..."]
    or the text of a cell of the column that is not null, and there is at
    most one entry more than the column has distinct values.  With a
    [limit] that is not negative there are at most [limit + 1] entries.
    With a negative [limit] the slice [opts[:limit]] drops the last
    [-limit] values and the marker always follows: on a column the table
    has, as many entries as the column has distinct values less [-limit]
    (or none), and the marker. *)
Theorem X16_list_options_bounded (df : Table) (col : string) (limit : Z) :
  Forall (fun o =>
       o = ELLIPSIS
       \/ exists r, r ∈ table_rows df /\ cell_isna (r col) = false
                    /\ astype_str py_str (r col) = o)
       (_list_options py_str df col limit)
  /\ (length (_list_options py_str df col limit)
      <= length (column_options py_str df col) + 1)%nat
  /\ ((0 <= limit)%Z ->
      (length (_list_options py_str df col limit) <= Z.to_nat limit + 1)%nat)
  /\ ((limit < 0)%Z -> has_column (table_columns df) col = true ->
      _list_options py_str df col limit
      = (take (length (column_options py_str df col) - Z.to_nat (- limit))
              (column_options py_str df col) ++ [ELLIPSIS])%list).
Proof.
  unfold _list_options.
  destruct (has_column (table_columns df) col).
  2:{ split; [constructor |]. split; [cbn; lia |]. split; [cbn; lia | done]. }
  cbn zeta. split; [| split; [| split]].
  - apply Forall_app. split.
    + apply Forall_forall. intros o Ho. right. apply column_options_elem.
      by apply (slice_to_subseteq limit).
    + destruct (limit <? _)%Z; repeat constructor.
  - rewrite length_app, slice_to_length.
    destruct (limit <? 0)%Z, (limit <? Z.of_nat _)%Z; cbn; lia.
  - intros Hl. rewrite length_app, slice_to_length.
    assert ((limit <? 0)%Z = false) as -> by lia.
    destruct (limit <? Z.of_nat _)%Z; cbn; lia.
  - intros Hl _. unfold slice_to.
    assert ((limit <? 0)%Z = true) as -> by lia.
    assert ((limit <? Z.of_nat (length (column_options py_str df col)))%Z = true) as ->
      by (apply Z.ltb_lt; lia).
    done.
Qed.

(** X17: when the column has no more than [limit] distinct values,
    [_list_options] lists every one of them, each once, in ascending order,
    and nothing else (no marker). *)
Theorem X17_list_options_complete (df : Table) (col : string) (limit : Z) :
  has_column (table_columns df) col = true ->
  (Z.of_nat (length (column_options py_str df col)) <= limit)%Z ->
  let opts := _list_options py_str df col limit in
  (forall r, r ∈ table_rows df -> cell_isna (r col) = false ->
             astype_str py_str (r col) ∈ opts)
  /\ Forall (fun o => exists r, r ∈ table_rows df /\ cell_isna (r col) = false
                                /\ astype_str py_str (r col) = o) opts
  /\ NoDup opts
  /\ ascending text_leb opts.
Proof.
  intros Hc Hlen. unfold _list_options, slice_to. rewrite Hc. cbn zeta.
  assert ((limit <? 0)%Z = false) as -> by lia.
  rewrite take_ge by lia.
  assert ((limit <? Z.of_nat (length (column_options py_str df col)))%Z = false) as ->
    by (apply Z.ltb_ge; lia).
  rewrite app_nil_r. split; [| split; [| split]].
  - intros r Hr Hna. apply column_options_elem. by exists r.
  - apply Forall_forall. intros o Ho. by apply column_options_elem.
  - apply column_options_NoDup.
  - apply column_options_ascending.
Qed.

(** ** [apply_filters] *)

Lemma apply_filters_spec (df : Table) fs :
  existsb (unknown_column (table_columns df)) fs = false ->
  apply_filters py_str df fs
  = Ok (mkTable (table_columns df)
          (List.filter (fun r => forallb (passes py_str r) fs) (table_rows df))).
Proof.
  revert df. induction fs as [| [col [v |]] fs IH]; intros [cols rs]; cbn.
  - intros _. f_equal. f_equal. induction rs as [| r rs IHr]; [done |]. cbn. by f_equal.
  - unfold unknown_column at 1. cbn. intros [Hc H]%orb_false_iff.
    apply negb_false_iff in Hc. unfold require. rewrite Hc. cbn [mbind result_bind].
    rewrite IH by done. cbn. by rewrite filter_filter.
  - unfold unknown_column at 1. cbn. intros H. by rewrite IH.
Qed.

(** X18: when every filter that selects names a column of the table,
    [apply_filters] returns the table with the same columns and exactly the
    rows that pass all the filters, in their order; the order of the filters
    does not matter. *)
Theorem X18_apply_filters_conjunction (df : Table) (fs : list (string * option text)) :
  existsb (unknown_column (table_columns df)) fs = false ->
  exists out,
    apply_filters py_str df fs = Ok out
    /\ table_columns out = table_columns df
    /\ table_rows out = List.filter (fun r => forallb (passes py_str r) fs) (table_rows df)
    /\ forall fs', fs' ≡ₚ fs -> apply_filters py_str df fs' = Ok out.
Proof.
  intros H. eexists. split; [by apply apply_filters_spec |]. cbn.
  split; [done |]. split; [done |].
  intros fs' Hp. rewrite apply_filters_spec.
  - f_equal. f_equal. apply filter_ext. intros r. by apply forallb_Permutation.
  - by rewrite (existsb_Permutation _ _ _ Hp).
Qed.

(** X19: [apply_filters] returns exactly when every filter that selects
    names a column of the table (a filter set to [None] may name any
    column); otherwise it raises the [KeyError] of such a column. *)
Theorem X19_apply_filters_key_error (df : Table) (fs : list (string * option text)) :
  ((exists out, apply_filters py_str df fs = Ok out)
   <-> existsb (unknown_column (table_columns df)) fs = false)
  /\ (forall e, apply_filters py_str df fs = Raise e ->
        exists col v, e = KeyError [col] /\ (col, Some v) ∈ fs
                      /\ has_column (table_columns df) col = false).
Proof.
  split; [split |].
  - revert df. induction fs as [| [col [v |]] fs IH]; intros df [out H]; [done | |].
    + cbn in H. unfold require in H. cbn. unfold unknown_column at 1. cbn.
      destruct (has_column _ col); [| done]. cbn [mbind result_bind] in H. cbn.
      apply (IH (mkTable (table_columns df)
                   (List.filter (cell_equals py_str col v) (table_rows df)))).
      by exists out.
    + cbn in *. apply IH. by exists out.
  - intros H. eexists. by apply apply_filters_spec.
  - revert df. induction fs as [| [col [v |]] fs IH]; intros df e; cbn; [done | |].
    + unfold require. destruct (has_column _ col) eqn:Hc; cbn [mbind result_bind].
      * intros (col' & v' & -> & Hin & Hc')%IH. exists col', v'.
        split; [done |]. split; [by right | done].
      * intros [= <-]. exists col, v. split; [done |]. split; [by left | done].
    + intros (col' & v' & -> & Hin & Hc')%IH. exists col', v'.
      split; [done |]. split; [by right | done].
Qed.

(** ** [_prompt_one_filter] *)

Lemma options_lower_lookup (options : list text) (k o : text) :
  options_lower lower options !! k = Some o -> o ∈ options /\ lower o = k.
Proof.
  unfold options_lower.
  assert (G : forall l (m : gmap text text),
            (forall k o, m !! k = Some o -> o ∈ options /\ lower o = k) ->
            Forall (fun o => o ∈ options) l ->
            forall k o, foldl (fun m o => <[lower o := o]> m) m l !! k = Some o ->
                        o ∈ options /\ lower o = k).
  { induction l as [| x l IH]; intros m Hm Hl k' o'; cbn.
    - apply Hm.
    - apply Forall_cons in Hl as [Hx Hl]. apply IH; [| done]. intros k2 o2.
      destruct (decide (lower x = k2)) as [<- | Hne].
      + rewrite lookup_insert_eq. by intros [= <-].
      + rewrite lookup_insert_ne by done. apply Hm. }
  apply (G options ∅); [| by apply Forall_forall]. intros k' o'. by rewrite lookup_empty.
Qed.

Lemma options_lower_none (options : list text) (k : text) :
  k ∉ map lower options -> options_lower lower options !! k = None.
Proof.
  intros Hk. destruct (options_lower lower options !! k) as [o |] eqn:E; [| done].
  apply options_lower_lookup in E as [Ho <-]. exfalso. apply Hk.
  apply list_elem_of_fmap. by exists o.
Qed.

Lemma prompt_loop_returns (by_key : gmap text text) (lines rest : list text) (o : text) :
  prompt_loop lower by_key lines = Returns (Some o) rest ->
  exists pre line,
    lines = (pre ++ line :: rest)%list
    /\ strip line <> [] /\ by_key !! lower (strip line) = Some o.
Proof.
  induction lines as [| l lines IH]; cbn; [done |].
  destruct (decide (strip l = [])); [done |].
  destruct (by_key !! lower (strip l)) as [o' |] eqn:E.
  - intros [= -> ->]. by exists [], l.
  - intros (pre & line & -> & H)%IH. by exists (l :: pre), line.
Qed.

(** X20: a value [_prompt_one_filter] returns is the text of a cell of the
    column that is not null, and it equals, up to case, the stripped text
    of the line on which the prompt stopped (a line that is not blank). *)
Theorem X20_prompt_returns_a_value_of_the_column (df : Table) (col : string)
    (lines rest : list text) (o : text) :
  _prompt_one_filter py_str lower df col lines = Returns (Some o) rest ->
  (exists r, r ∈ table_rows df /\ cell_isna (r col) = false
             /\ astype_str py_str (r col) = o)
  /\ exists pre line,
       lines = (pre ++ line :: rest)%list
       /\ strip line <> [] /\ lower o = lower (strip line).
Proof.
  unfold _prompt_one_filter. destruct (has_column _ col); [| done].
  intros (pre & line & -> & Hne & [Ho Hl]%options_lower_lookup)%prompt_loop_returns.
  split; [by apply column_options_elem |]. by exists pre, line.
Qed.

(** X21: lines that are neither blank nor, up to case, a value of the
    column are passed over: the prompt goes on with the lines that follow
    (and raises [EOFError] when there is none). *)
Theorem X21_prompt_skips_invalid_entries (df : Table) (col : string)
    (bad rest : list text) :
  Forall (fun line =>
            strip line <> []
            /\ lower (strip line) ∉ map lower (column_options py_str df col)) bad ->
  _prompt_one_filter py_str lower df col (bad ++ rest)%list
  = _prompt_one_filter py_str lower df col rest.
Proof.
  unfold _prompt_one_filter. destruct (has_column _ col); [| done].
  induction 1 as [| l bad [Hne Hl] _ IH]; [done |]. cbn.
  destruct (decide (strip l = [])); [done |].
  by rewrite (options_lower_none _ _ Hl).
Qed.

(** X22: a value returned by the prompt for a column selects at least one
    row when it is the only filter, and every row selected has it in that
    column. *)
Theorem X22_prompted_value_selects_rows (df : Table) (col : string)
    (lines rest : list text) (o : text) :
  _prompt_one_filter py_str lower df col lines = Returns (Some o) rest ->
  exists out,
    apply_filters py_str df [(col, Some o)] = Ok out
    /\ table_rows out <> []
    /\ Forall (fun r => astype_str py_str (r col) = o) (table_rows out).
Proof.
  intros H.
  assert (Hc : has_column (table_columns df) col = true).
  { unfold _prompt_one_filter in H. by destruct (has_column _ col). }
  unfold _prompt_one_filter in H. rewrite Hc in H.
  apply prompt_loop_returns in H as (_ & _ & _ & _ & [Ho _]%options_lower_lookup).
  apply column_options_elem in Ho as (r & Hr & _ & Ho).
  cbn. unfold require. rewrite Hc. cbn [mbind result_bind].
  eexists. split; [done |]. cbn. split.
  - intros E. assert (Hin : In r (List.filter (cell_equals py_str col o) (table_rows df))).
    { apply filter_In. split; [by apply list_elem_of_In |].
      by apply bool_decide_eq_true. }
    by rewrite E in Hin.
  - apply Forall_forall. intros r' [_ Hr']%list_elem_of_In%filter_In.
    by apply bool_decide_eq_true in Hr'.
Qed.
End InteractiveFacts.

Lemma X16_list_options_bounded_witness :
  (0 <= 2)%Z
  /\ (length (_list_options example_str sample_table "continent" 2) <= Z.to_nat 2 + 1)%nat
  /\ (-1 < 0)%Z
  /\ has_column (table_columns sample_table) "continent" = true
  /\ _list_options example_str sample_table "continent" (-1)
     = (take (length (column_options example_str sample_table "continent") - Z.to_nat (- -1))
             (column_options example_str sample_table "continent") ++ [ELLIPSIS])%list.
Proof.
  split; [lia |]. split.
  - apply (X16_list_options_bounded example_str sample_table "continent" 2). lia.
  - split; [lia |]. split; [reflexivity |].
    apply (X16_list_options_bounded example_str sample_table "continent" (-1));
      [lia | reflexivity].
Defined.

Lemma X17_list_options_complete_witness :
  has_column (table_columns sample_table) "continent" = true
  /\ (Z.of_nat (length (column_options example_str sample_table "continent")) <= 15)%Z
  /\ let opts := _list_options example_str sample_table "continent" 15 in
     (forall r, r ∈ table_rows sample_table -> cell_isna (r "continent") = false ->
                astype_str example_str (r "continent") ∈ opts)
     /\ Forall (fun o => exists r, r ∈ table_rows sample_table
                                   /\ cell_isna (r "continent") = false
                                   /\ astype_str example_str (r "continent") = o) opts
     /\ NoDup opts
     /\ ascending text_leb opts.
Proof.
  split; [reflexivity |]. split; [vm_compute; discriminate |].
  apply (X17_list_options_complete example_str sample_table "continent" 15);
    [reflexivity | vm_compute; discriminate].
Defined.

(** The options of [sample_table] for its continents, with a limit of two,
    and with a limit of -1: the last value is left out and the marker
    follows. *)
Example list_options_of_sample_table :
  _list_options example_str sample_table "continent" 15
  = [text_of_string "Africa"; text_of_string "Asia"; text_of_string "Europe"]
  /\ _list_options example_str sample_table "continent" 2
     = [text_of_string "Africa"; text_of_string "Asia"; ELLIPSIS]
  /\ _list_options example_str sample_table "continent" (-1)
     = [text_of_string "Africa"; text_of_string "Asia"; ELLIPSIS]
  /\ _list_options example_str sample_table "type" 15 = [].
Proof. repeat split; reflexivity. Qed.

Lemma X18_apply_filters_conjunction_witness :
  existsb (unknown_column (table_columns sample_table))
    [("continent", Some (text_of_string "Africa")); ("type", None)] = false
  /\ exists out,
       apply_filters example_str sample_table
         [("continent", Some (text_of_string "Africa")); ("type", None)] = Ok out
       /\ table_columns out = table_columns sample_table
       /\ table_rows out
          = List.filter
              (fun r => forallb (passes example_str r)
                          [("continent", Some (text_of_string "Africa")); ("type", None)])
              (table_rows sample_table)
       /\ forall fs',
            fs' ≡ₚ [("continent", Some (text_of_string "Africa")); ("type", None)] ->
            apply_filters example_str sample_table fs' = Ok out.
Proof.
  split; [reflexivity |].
  apply (X18_apply_filters_conjunction example_str sample_table
           [("continent", Some (text_of_string "Africa")); ("type", None)]).
  reflexivity.
Defined.

Lemma X20_prompt_returns_a_value_of_the_column_witness :
  _prompt_one_filter example_str example_lower sample_table "continent"
    [text_of_string "Moon"; text_of_string " AFRICA "; text_of_string "Asia"]
  = Returns (Some (text_of_string "Africa")) [text_of_string "Asia"]
  /\ (exists r, r ∈ table_rows sample_table /\ cell_isna (r "continent") = false
                /\ astype_str example_str (r "continent") = text_of_string "Africa")
  /\ exists pre line,
       [text_of_string "Moon"; text_of_string " AFRICA "; text_of_string "Asia"]
       = (pre ++ line :: [text_of_string "Asia"])%list
       /\ strip line <> []
       /\ example_lower (text_of_string "Africa") = example_lower (strip line).
Proof.
  split; [vm_compute; reflexivity |].
  apply (X20_prompt_returns_a_value_of_the_column example_str example_lower sample_table
           "continent" _ [text_of_string "Asia"] (text_of_string "Africa")).
  vm_compute. reflexivity.
Defined.

Lemma X21_prompt_skips_invalid_entries_witness :
  Forall (fun line =>
            strip line <> []
            /\ example_lower (strip line)
               ∉ map example_lower (column_options example_str sample_table "continent"))
         [text_of_string "Moon"; text_of_string "Mars"]
  /\ _prompt_one_filter example_str example_lower sample_table "continent"
       ([text_of_string "Moon"; text_of_string "Mars"] ++ [text_of_string "asia"])%list
     = _prompt_one_filter example_str example_lower sample_table "continent"
         [text_of_string "asia"].
Proof.
  assert (H : Forall (fun line =>
            strip line <> []
            /\ example_lower (strip line)
               ∉ map example_lower (column_options example_str sample_table "continent"))
         [text_of_string "Moon"; text_of_string "Mars"]).
  { repeat constructor; try (by vm_compute);
      apply (bool_decide_unpack _); vm_compute; exact I. }
  split; [exact H |].
  exact (X21_prompt_skips_invalid_entries example_str example_lower sample_table
           "continent" _ [text_of_string "asia"] H).
Defined.

Lemma X22_prompted_value_selects_rows_witness :
  _prompt_one_filter example_str example_lower sample_table "continent"
    [text_of_string "Moon"; text_of_string " AFRICA "; text_of_string "Asia"]
  = Returns (Some (text_of_string "Africa")) [text_of_string "Asia"]
  /\ exists out,
       apply_filters example_str sample_table [("continent", Some (text_of_string "Africa"))]
       = Ok out
       /\ table_rows out <> []
       /\ Forall (fun r => astype_str example_str (r "continent") = text_of_string "Africa")
                 (table_rows out).
Proof.
  split; [vm_compute; reflexivity |].
  apply (X22_prompted_value_selects_rows example_str example_lower sample_table
           "continent" [text_of_string "Moon"; text_of_string " AFRICA "; text_of_string "Asia"]
           [text_of_string "Asia"] (text_of_string "Africa")).
  vm_compute. reflexivity.
Defined.

(** Each of two values chosen at the prompt selects rows of
    [sample_table]; the two filters together select none, the case for
    which [main] prints its warning. *)
Example filters_together_may_select_nothing :
  exists out,
    apply_filters example_str sample_table
      [("continent", Some (text_of_string "Africa"));
       ("subregion", Some (text_of_string "Eastern Asia"))] = Ok out
    /\ table_rows out = [].
Proof. eexists. split; [vm_compute; reflexivity | reflexivity]. Qed.

(* ================================================================== *)
(** * [src/analysis.py]: the questions asked of the cleaned table *)
(* ================================================================== *)

(** ** The order of float64 values *)

Lemma leb_total (x y : num) : Float.leb x y = true \/ Float.leb y x = true.
Proof.
  destruct x as [a| |], y as [b| |]; cbn; auto.
  rewrite !Qle_bool_iff. destruct (Qlt_le_dec a b) as [H | H]; [left | right]; lra.
Qed.

Lemma leb_trans (x y z : num) :
  Float.leb x y = true -> Float.leb y z = true -> Float.leb x z = true.
Proof.
  destruct x as [a| |], y as [b| |], z as [c| |]; cbn; try done.
  rewrite !Qle_bool_iff. lra.
Qed.

Lemma leb_refl (x : num) : Float.leb x x = true.
Proof. destruct (leb_total x x); done. Qed.

Section FirstExtreme.
Context {L : Type} (le : num -> num -> bool).
Hypothesis le_total : forall a b, le a b = true \/ le b a = true.
Hypothesis le_trans : forall a b c, le a b = true -> le b c = true -> le a c = true.

Lemma first_extreme_spec (s : list (L * num)) :
  s <> [] ->
  exists i x pre post,
    first_extreme le s = Some (i, x) /\ s = (pre ++ (i, x) :: post)%list
    /\ Forall (fun p => le x p.2 = false) pre
    /\ Forall (fun p => le p.2 x = true) post.
Proof using le_total le_trans.
  induction s as [| [i x] rest IH]; [done |]. intros _. cbn [first_extreme].
  destruct rest as [| c rest'].
  - exists i, x, [], []. cbn. split; [done |]. split; [done |]. split; constructor.
  - destruct IH as (j & y & pre & post & Hmax & Hsplit & Hpre & Hpost); [done |].
    rewrite Hmax. destruct (le y x) eqn:Hle.
    + exists i, x, [], (c :: rest'). split; [done |]. split; [done |].
      split; [constructor |]. rewrite Hsplit. apply Forall_app. split.
      * eapply Forall_impl; [exact Hpre |]. cbn beta. intros p Hp.
        destruct (le_total p.2 y) as [H | H]; [| congruence]. eauto.
      * constructor; [done |]. eapply Forall_impl; [exact Hpost |]. cbn beta. eauto.
    + exists j, y, ((i, x) :: pre), post. split; [done |].
      split; [by rewrite Hsplit |]. split; [| done]. by constructor.
Qed.
End FirstExtreme.

Lemma loc_single_unique (rs : list Row) (r : Row) :
  NoDup (map index rs) -> r ∈ rs -> loc_single rs (index r) = Some r.
Proof.
  unfold loc_single. induction rs as [| x rs IH]; intros Hnd Hr.
  - by apply elem_of_nil in Hr.
  - cbn [map] in Hnd. apply NoDup_cons in Hnd as [Hx Hnd]. cbn [List.filter].
    assert (Hother : forall y, y ∈ rs -> index y = index x -> False).
    { intros y Hy E. apply Hx. rewrite <- E. apply list_elem_of_fmap. by exists y. }
    apply elem_of_cons in Hr as [-> | Hr].
    + rewrite Nat.eqb_refl. rewrite filter_none; [done |].
      apply Forall_forall. intros y Hy. apply Nat.eqb_neq. intros E. by apply (Hother y).
    + destruct (Nat.eqb_spec (index x) (index r)) as [E | _]; [| by apply IH].
      exfalso. by apply (Hother r).
Qed.

Lemma idxmax_skipna_spec {L} (s : list (L * option num)) :
  Exists (fun p => exists x, p.2 = Some x /\ x <> NInf) s ->
  exists i v pre post,
    idxmax_skipna s = Some i /\ s = (pre ++ (i, Some v) :: post)%list
    /\ Forall (fun p => Float.cell_ge p.2 v = false) pre
    /\ Forall (fun p => Float.cell_gt p.2 v = false) post.
Proof.
  intros Hex. unfold idxmax_skipna.
  assert (forallb (fun p : L * option num => is_null p.2) s = false) as ->.
  { apply not_true_iff_false. intros Hall. rewrite forallb_forall in Hall.
    apply Exists_exists in Hex as (p & Hp & x & Hx & _).
    apply list_elem_of_In, Hall in Hp. by rewrite Hx in Hp. }
  destruct (first_extreme_spec Float.leb leb_total leb_trans
              (map (fun p : L * option num => (p.1, fillna NInf p.2)) s))
    as (i & v & pre & post & -> & Hsplit & Hpre & Hpost).
  { apply Exists_exists in Hex as (p & Hp & _). intros E. apply map_eq_nil in E.
    subst s. by apply elem_of_nil in Hp. }
  apply map_eq_app in Hsplit as (pre' & rest & -> & Epre & Erest).
  apply map_eq_cons in Erest as ([i' c] & post' & -> & [= -> Ev] & Epost).
  cbn in Ev. subst pre post.
  rewrite Forall_map in Hpre, Hpost. cbn [fst snd] in Hpre, Hpost.
  assert (Hv : v <> NInf).
  { intros ->. apply Exists_exists in Hex as ([j d] & Hp & x & Hx & Hne). cbn in Hx. subst d.
    apply elem_of_app in Hp as [Hp | Hp].
    - rewrite Forall_forall in Hpre. apply Hpre in Hp. by destruct x.
    - apply elem_of_cons in Hp as [[= -> Hc] | Hp].
      + subst c. cbn in Ev. congruence.
      + rewrite Forall_forall in Hpost. apply Hpost in Hp. cbn in Hp. by destruct x. }
  destruct c as [w |]; cbn in Ev; [subst w | congruence].
  exists i, v, pre', post'. cbn. split; [done |]. split; [done |]. split.
  - eapply Forall_impl; [exact Hpre |]. cbn beta. intros [j [y |]]; cbn; [done |].
    by destruct v.
  - eapply Forall_impl; [exact Hpost |]. cbn beta. intros [j [y |]]; cbn; [| done].
    unfold Float.ltb. by intros ->.
Qed.

Lemma first_highest_row (rs : list Row) :
  NoDup (map index rs) ->
  Exists (fun r => exists x, lifeExp r = Some x /\ x <> NInf) rs ->
  exists r v pre post,
    idxmax_skipna (map (fun r => (index r, lifeExp r)) rs) = Some (index r)
    /\ loc_single rs (index r) = Some r
    /\ rs = (pre ++ r :: post)%list
    /\ lifeExp r = Some v
    /\ Forall (fun x => Float.cell_ge (lifeExp x) v = false) pre
    /\ Forall (fun x => Float.cell_gt (lifeExp x) v = false) post.
Proof.
  intros Hnd Hex.
  destruct (idxmax_skipna_spec (map (fun r => (index r, lifeExp r)) rs))
    as (i & v & pre & post & Hidx & Hsplit & Hpre & Hpost).
  { apply Exists_exists in Hex as (r & Hr & Hx). apply Exists_exists.
    exists (index r, lifeExp r). split; [| done]. apply list_elem_of_fmap. by exists r. }
  apply map_eq_app in Hsplit as (pre' & rest & Hrows & Epre & Erest).
  apply map_eq_cons in Erest as (r & post' & -> & [= <- Ev] & Epost). subst pre post.
  rewrite Forall_map in Hpre, Hpost. cbn [snd] in Hpre, Hpost.
  exists r, v, pre', post'. split; [done |]. split; [| done].
  apply loc_single_unique; [done |].
  rewrite Hrows. apply elem_of_app. right. by left.
Qed.

(** ** X23, X24: the country with the highest life expectancy *)

(** X23: on a table with distinct index labels in which some [lifeExp] is
    neither null nor -inf, [country_highest_life_expectancy] returns the
    name and the [lifeExp] of the first row that has the largest [lifeExp]:
    no row before it has a value as large, no row after it a larger one. *)
Theorem X23_highest_life_expectancy (df : DataFrame) :
  has_column (columns df) "lifeExp" = true ->
  has_column (columns df) "name_long" = true ->
  NoDup (map index (rows df)) ->
  Exists (fun r => exists x, lifeExp r = Some x /\ x <> NInf) (rows df) ->
  exists r v pre post,
    country_highest_life_expectancy df = Some (name_long r, Some v)
    /\ rows df = (pre ++ r :: post)%list
    /\ lifeExp r = Some v
    /\ Forall (fun x => Float.cell_ge (lifeExp x) v = false) pre
    /\ Forall (fun x => Float.cell_gt (lifeExp x) v = false) post.
Proof.
  intros H1 H2 Hnd Hex. unfold country_highest_life_expectancy. rewrite H1, H2. cbn [andb].
  destruct (first_highest_row (rows df) Hnd Hex)
    as (r & v & pre & post & -> & Hloc & Hsplit & Hv & Hpre & Hpost).
  cbn [mbind option_bind]. rewrite Hloc. cbn [mbind option_bind].
  exists r, v, pre, post. by rewrite Hv.
Qed.

Lemma cell_ge_gt (c : option num) (v : num) :
  Float.cell_ge c v = false -> Float.cell_gt c v = false.
Proof.
  destruct c as [y |]; cbn; [| done]. unfold Float.ltb. intros H.
  destruct (leb_total v y) as [E | ->]; [congruence | done].
Qed.

Lemma has_column_output (cols : list string) (c : string) :
  has_column cols c = true -> has_column (output_columns cols) c = true.
Proof.
  unfold output_columns. destruct (has_column cols "pop_density"); [done |].
  unfold has_column. intros H%bool_decide_eq_true. apply bool_decide_eq_true.
  apply elem_of_app. by left.
Qed.

Section AnalysisOfCleanTable.
Variable py_str : num -> text.
Variable parse_float : text -> option num.

(** X24: on the table [clean_world_data] returns,
    [country_highest_life_expectancy] fails exactly when the table has no
    [lifeExp] at all (in particular when it is empty); otherwise it returns
    the name of a record, which is not null, and its [lifeExp], which lies
    strictly between 0 and 120 and is exceeded by no record. *)
Theorem X24_highest_life_expectancy_of_clean_table (df_raw : RawFrame)
    (generate_report : bool) :
  has_required_columns df_raw = true ->
  exists df rep,
    clean_world_data py_str parse_float df_raw generate_report = Ok (df, rep)
    /\ (Forall (fun r => lifeExp r = None) (rows df) ->
        country_highest_life_expectancy df = None)
    /\ (Exists (fun r => is_Some (lifeExp r)) (rows df) ->
        exists name v,
          country_highest_life_expectancy df = Some (Some name, Some v)
          /\ in_life_range v
          /\ Exists (fun r => name_long r = Some name /\ lifeExp r = Some v) (rows df)
          /\ Forall (fun r => Float.cell_gt (lifeExp r) v = false) (rows df)).
Proof.
  intros Hreq.
  destruct (clean_world_data_rows py_str parse_float df_raw generate_report Hreq)
    as (df & kept & Hrun & Hrows & _ & Hclean & _).
  destruct (clean_world_data_ok py_str parse_float df_raw generate_report Hreq)
    as (kept' & HF & Hrun').
  rewrite Hrun in Hrun'. injection Hrun' as Hdf Hrep.
  pose proof (has_required_columns_elim _ Hreq) as Hcols. rewrite Forall_forall in Hcols.
  assert (Hl : has_column (columns df) "lifeExp" = true).
  { rewrite Hdf. apply has_column_output, Hcols. column_listed. }
  assert (Hn : has_column (columns df) "name_long" = true).
  { rewrite Hdf. apply has_column_output, Hcols. column_listed. }
  assert (Hnd : NoDup (map index (rows df))).
  { rewrite Hdf. apply (clean_table_index_NoDup py_str parse_float df_raw kept' HF). }
  eexists df, _. split; [exact Hrun |]. split.
  - intros Hnull. unfold country_highest_life_expectancy, idxmax_skipna.
    rewrite Hl, Hn. cbn [andb].
    assert (forallb (fun p : nat * option num => is_null p.2)
              (map (fun r => (index r, lifeExp r)) (rows df)) = true) as ->; [| done].
    apply forallb_forall. intros p [r [<- Hr]]%in_map_iff. cbn.
    rewrite Forall_forall in Hnull. by rewrite (Hnull r) by by apply list_elem_of_In.
  - intros Hex. rewrite Forall_forall in Hclean.
    destruct (first_highest_row (rows df) Hnd)
      as (r & v & pre & post & Hidx & Hloc & Hsplit & Hv & Hpre & Hpost).
    { apply Exists_exists in Hex as (r & Hr & [x Hx]). apply Exists_exists.
      exists r. split; [done |]. exists x. split; [done |].
      intros ->. by apply (cr_lifeExp r (Hclean r Hr) NInf). }
    assert (Hres : country_highest_life_expectancy df = Some (name_long r, Some v)).
    { unfold country_highest_life_expectancy. rewrite Hl, Hn. cbn [andb].
      rewrite Hidx. cbn [mbind option_bind]. rewrite Hloc. cbn [mbind option_bind].
      by rewrite Hv. }
    assert (Hr : r ∈ rows df) by (rewrite Hsplit; apply elem_of_app; right; by left).
    destruct (cr_name_long r (Hclean r Hr)) as [name Hname].
    exists name, v. rewrite Hres, Hname. split; [done |].
    split; [by apply (cr_lifeExp r (Hclean r Hr)) |]. split.
    + apply Exists_exists. by exists r.
    + rewrite Hsplit. apply Forall_app. split.
      * eapply Forall_impl; [exact Hpre |]. cbn beta. intros x. apply cell_ge_gt.
      * constructor; [| done]. rewrite Hv. cbn. unfold Float.ltb. by rewrite leb_refl.
Qed.
End AnalysisOfCleanTable.

(** ** Group-wise aggregates *)

Section GroupBy.
Variable agg : list (option num) -> option num.
Variable kv : list (option string * option num).

Lemma groupby_agg_keys :
  map fst (groupby_agg agg kv) = sort key_leb (remove_dups (map fst kv)).
Proof. unfold groupby_agg. rewrite map_map. cbn. apply map_id. Qed.

Lemma groupby_agg_NoDup : NoDup (map fst (groupby_agg agg kv)).
Proof. rewrite groupby_agg_keys. apply sort_NoDup, NoDup_remove_dups. Qed.

Lemma groupby_agg_elem (k : option string) (v : option num) :
  (k, v) ∈ groupby_agg agg kv <-> k ∈ map fst kv /\ v = agg (group_values kv k).
Proof.
  unfold groupby_agg. rewrite list_elem_of_fmap. split.
  - intros (k' & [= -> ->] & Hk). split; [| done].
    by rewrite (sort_Permutation key_leb), elem_of_remove_dups in Hk.
  - intros [Hk ->]. exists k. split; [done |].
    by rewrite (sort_Permutation key_leb), elem_of_remove_dups.
Qed.
End GroupBy.

Lemma series_loc_unique {L} `{EqDecision L} (s : list (L * option num)) (k : L)
    (v : option num) :
  NoDup (map fst s) -> (k, v) ∈ s -> series_loc s k = Some v.
Proof.
  unfold series_loc. induction s as [| [j w] s IH]; intros Hnd Hin.
  - by apply elem_of_nil in Hin.
  - cbn [map fst] in Hnd. apply NoDup_cons in Hnd as [Hj Hnd]. cbn [List.find fst].
    apply elem_of_cons in Hin as [[= <- <-] | Hin].
    + by rewrite bool_decide_eq_true_2.
    + rewrite bool_decide_eq_false_2; [by apply IH |].
      intros ->. apply Hj. apply list_elem_of_fmap. by exists (k, v).
Qed.

(** The label an [idxmax] or [idxmin] returns, in terms of the filled
    values. *)
Section FilledExtreme.
Context {L : Type} (le : num -> num -> bool) (d : num).
Hypothesis le_total : forall a b, le a b = true \/ le b a = true.
Hypothesis le_trans : forall a b c, le a b = true -> le b c = true -> le a c = true.

Lemma filled_extreme_spec (s : list (L * option num)) (i : L) :
  (if forallb (fun p : L * option num => is_null p.2) s then None
   else fst <$> first_extreme le (map (fun p : L * option num => (p.1, fillna d p.2)) s))
  = Some i ->
  exists c pre post,
    s = (pre ++ (i, c) :: post)%list
    /\ Forall (fun p => le (fillna d c) (fillna d p.2) = false) pre
    /\ Forall (fun p => le (fillna d p.2) (fillna d c) = true) post.
Proof using le_total le_trans.
  destruct (forallb _ s) eqn:Hall; [done |].
  destruct (first_extreme_spec le le_total le_trans
              (map (fun p : L * option num => (p.1, fillna d p.2)) s))
    as (j & x & pre & post & -> & Hsplit & Hpre & Hpost).
  { intros E. apply map_eq_nil in E. by subst s. }
  cbn. intros [= ->].
  apply map_eq_app in Hsplit as (pre' & rest & -> & Epre & Erest).
  apply map_eq_cons in Erest as ([i' c] & post' & -> & [= -> Ev] & Epost).
  cbn in Ev. subst pre post x.
  rewrite Forall_map in Hpre, Hpost. by exists c, pre', post'.
Qed.

Lemma filled_extreme_some (s : list (L * option num)) :
  Exists (fun p => is_Some p.2) s ->
  exists i,
    (if forallb (fun p : L * option num => is_null p.2) s then None
     else fst <$> first_extreme le (map (fun p : L * option num => (p.1, fillna d p.2)) s))
    = Some i.
Proof using le_total le_trans.
  intros Hex.
  assert (forallb (fun p : L * option num => is_null p.2) s = false) as ->.
  { apply not_true_iff_false. intros Hall. rewrite forallb_forall in Hall.
    apply Exists_exists in Hex as (p & Hp & [x Hx]).
    apply list_elem_of_In, Hall in Hp. by rewrite Hx in Hp. }
  destruct (first_extreme_spec le le_total le_trans
              (map (fun p : L * option num => (p.1, fillna d p.2)) s))
    as (j & x & pre & post & -> & _).
  { apply Exists_exists in Hex as (p & Hp & _). intros E. apply map_eq_nil in E.
    subst s. by apply elem_of_nil in Hp. }
  by exists j.
Qed.
End FilledExtreme.

Lemma geb_total (a b : num) : Float.leb b a = true \/ Float.leb a b = true.
Proof. apply leb_total. Qed.

Lemma geb_trans (a b c : num) :
  Float.leb b a = true -> Float.leb c b = true -> Float.leb c a = true.
Proof. intros H1 H2. by apply (leb_trans c b a). Qed.

Lemma idxmax_skipna_filled {L} (s : list (L * option num)) (i : L) :
  idxmax_skipna s = Some i ->
  exists c pre post,
    s = (pre ++ (i, c) :: post)%list
    /\ Forall (fun p => Float.leb (fillna NInf c) (fillna NInf p.2) = false) pre
    /\ Forall (fun p => Float.leb (fillna NInf p.2) (fillna NInf c) = true) post.
Proof. apply (filled_extreme_spec Float.leb NInf leb_total leb_trans). Qed.

Lemma idxmin_skipna_filled {L} (s : list (L * option num)) (i : L) :
  idxmin_skipna s = Some i ->
  exists c pre post,
    s = (pre ++ (i, c) :: post)%list
    /\ Forall (fun p => Float.leb (fillna PInf p.2) (fillna PInf c) = false) pre
    /\ Forall (fun p => Float.leb (fillna PInf c) (fillna PInf p.2) = true) post.
Proof.
  apply (filled_extreme_spec (fun y x => Float.leb x y) PInf geb_total geb_trans).
Qed.

Lemma groupby_agg_ascending (agg : list (option num) -> option num)
    (kv : list (option string * option num)) :
  ascending key_leb (map fst (groupby_agg agg kv)).
Proof.
  rewrite groupby_agg_keys. apply sort_ascending; [apply key_leb_total | apply key_leb_trans].
Qed.

(** ** Sums and means of positive values *)

Lemma add_nonnegative_positive (a x : num) :
  nonnegative a -> positive x -> exists s, Float.add a x = Some s /\ positive s.
Proof.
  destruct a as [p| |], x as [q| |]; cbn; try done; intros Ha Hx;
    eexists; (split; [done |]); cbn; [| done | done | done].
  rewrite Qred_correct. lra.
Qed.

Lemma positive_nonnegative (x : num) : positive x -> nonnegative x.
Proof. destruct x; cbn; [lra | done | done]. Qed.

Lemma sum_values_positive (xs : list num) :
  Forall positive xs -> xs <> [] -> exists s, sum_values xs = Some s /\ positive s.
Proof.
  unfold sum_values.
  assert (G : forall xs acc, nonnegative acc -> Forall positive xs -> xs <> [] ->
            exists s, foldl (fun acc x => a ← acc; Float.add a x) (Some acc) xs = Some s
                      /\ positive s).
  { clear xs. induction xs as [| x xs IH]; intros acc Hacc HP Hne; [done |].
    apply Forall_cons in HP as [Hx HP]. cbn [foldl mbind option_bind].
    destruct (add_nonnegative_positive acc x Hacc Hx) as (s & -> & Hs).
    destruct xs as [| y xs]; [by exists s |].
    apply IH; [by apply positive_nonnegative | done | done]. }
  intros HP Hne. apply G; [cbn; lra | done | done].
Qed.

Lemma mean_skipna_positive (cells : list (option num)) :
  Forall (null_or positive) cells -> Exists is_Some cells ->
  exists m, mean_skipna cells = Some m /\ positive m.
Proof.
  intros HP Hex. unfold mean_skipna.
  assert (Hxs : Forall positive (dropna_values cells)).
  { unfold dropna_values. apply Forall_forall. intros x Hx.
    apply list_elem_of_omap in Hx as (c & Hc & E). cbn in E. subst c.
    rewrite Forall_forall in HP. by apply (HP _ Hc). }
  assert (Hne : dropna_values cells <> []).
  { apply Exists_exists in Hex as (c & Hc & [x ->]). intros E.
    assert (Hx : x ∈ dropna_values cells).
    { apply list_elem_of_omap. by exists (Some x). }
    rewrite E in Hx. by apply elem_of_nil in Hx. }
  destruct (sum_values_positive _ Hxs Hne) as (s & Hs & Hpos).
  destruct (dropna_values cells) as [| x xs] eqn:E; [done |].
  rewrite Hs. cbn [mbind option_bind].
  set (n := length (x :: xs)).
  assert (Hn : (0 < inject_Z (Z.of_nat n))%Q).
  { change 0%Q with (inject_Z 0). rewrite <- Zlt_Qlt. subst n. cbn. lia. }
  unfold Float.of_Z. clearbody n. destruct s as [q | |]; cbn [Float.div positive] in *; [| | done].
  - assert (Qeq_bool (inject_Z (Z.of_nat n)) 0 = false) as ->.
    { apply not_true_iff_false. intros H%Qeq_bool_iff. lra. }
    eexists. split; [done |]. cbn. rewrite Qred_correct.
    apply Qlt_shift_div_l; lra.
  - assert (Qle_bool 0 (inject_Z (Z.of_nat n)) = true) as ->.
    { apply Qle_bool_iff. lra. }
    by eexists.
Qed.



(** The entry of the region returned, among the totals in key order. *)
Lemma region_filled_maximum (df : list (option string * option num))
    (region : option string) (total : option num) :
  region_with_largest_area df = Some (region, total) ->
  exists pre post,
    groupby_agg sum_skipna df = (pre ++ (region, total) :: post)%list
    /\ Forall (fun p => Float.leb (fillna NInf total) (fillna NInf p.2) = false) pre
    /\ Forall (fun p => Float.leb (fillna NInf p.2) (fillna NInf total) = true) post.
Proof.
  unfold region_with_largest_area. cbn zeta.
  destruct (idxmax_skipna (groupby_agg sum_skipna df)) as [i |] eqn:Hi; [| done].
  cbn [mbind option_bind].
  destruct (series_loc (groupby_agg sum_skipna df) i) as [t |] eqn:Ht; [| done].
  cbn. intros [= -> ->].
  apply idxmax_skipna_filled in Hi as (c & pre & post & Hsplit & Hpre & Hpost).
  assert (Hin : (region, c) ∈ groupby_agg sum_skipna df).
  { rewrite Hsplit. apply elem_of_app. right. by left. }
  rewrite (series_loc_unique _ _ _ (groupby_agg_NoDup _ _) Hin) in Ht. injection Ht as ->.
  by exists pre, post.
Qed.

(** ** X25, X26: the region with the largest area *)

(** X25: when [region_with_largest_area] returns, the region is a key of
    the table, the total is the sum of the non-null areas of its rows, no
    region has a larger total (NaN read as -inf), and every region that
    sorts before it has a strictly smaller one: among equals the first in
    alphabetical order is returned. *)
Theorem X25_region_with_largest_area (df : list (option string * option num))
    (region : option string) (total : option num) :
  region_with_largest_area df = Some (region, total) ->
  region ∈ map fst df
  /\ total = sum_skipna (group_values df region)
  /\ (forall k, k ∈ map fst df ->
        Float.leb (fillna NInf (sum_skipna (group_values df k))) (fillna NInf total) = true)
  /\ (forall k, k ∈ map fst df -> key_leb k region = true -> k <> region ->
        Float.leb (fillna NInf total) (fillna NInf (sum_skipna (group_values df k))) = false).
Proof.
  intros (pre & post & Hsplit & Hpre & Hpost)%region_filled_maximum.
  assert (Hin : (region, total) ∈ groupby_agg sum_skipna df).
  { rewrite Hsplit. apply elem_of_app. right. by left. }
  apply groupby_agg_elem in Hin as [Hregion Htotal].
  split; [done |]. split; [done |].
  assert (Hk : forall k, k ∈ map fst df ->
            (k, sum_skipna (group_values df k)) ∈ pre
            \/ k = region
            \/ (k, sum_skipna (group_values df k)) ∈ post).
  { intros k Hk.
    assert (Hk' : (k, sum_skipna (group_values df k)) ∈ groupby_agg sum_skipna df)
      by by apply groupby_agg_elem.
    rewrite Hsplit in Hk'. apply elem_of_app in Hk' as [? | Hk']; [by left |].
    apply elem_of_cons in Hk' as [[= -> _] | ?]; [right; by left | right; by right]. }
  rewrite Forall_forall in Hpre, Hpost. split.
  - intros k [Hp | [-> | Hp]]%Hk.
    + apply Hpre in Hp. cbn [snd] in Hp.
      destruct (leb_total (fillna NInf (sum_skipna (group_values df k))) (fillna NInf total));
        [done | congruence].
    + rewrite <- Htotal. apply leb_refl.
    + by apply Hpost in Hp.
  - intros k Hin Hle Hne. destruct (Hk k Hin) as [Hp | [-> | Hp]]; [| done |].
    + by apply Hpre in Hp.
    + exfalso. apply Hne, key_leb_antisym; [done |].
      apply list_elem_of_lookup in Hp as [j Hj].
      assert (H1 : groupby_agg sum_skipna df !! length pre = Some (region, total)).
      { rewrite Hsplit. by apply list_lookup_middle. }
      assert (H2 : groupby_agg sum_skipna df !! (length pre + S j)%nat
                   = Some (k, sum_skipna (group_values df k))).
      { rewrite Hsplit, lookup_app_r by lia.
        by replace (length pre + S j - length pre)%nat with (S j) by lia. }
      apply (groupby_agg_ascending sum_skipna df (length pre) (length pre + S j)%nat);
        [lia | |];
        change (map fst ?l) with (fst <$> l); rewrite list_lookup_fmap.
      * by rewrite H1.
      * by rewrite H2.
Qed.

Lemma X25_region_with_largest_area_witness :
  region_with_largest_area sample_regions = Some (Some "Africa", Some (Float.of_Z 7000))
  /\ Some "Africa" ∈ map fst sample_regions
  /\ Some (Float.of_Z 7000) = sum_skipna (group_values sample_regions (Some "Africa"))
  /\ (forall k, k ∈ map fst sample_regions ->
        Float.leb (fillna NInf (sum_skipna (group_values sample_regions k)))
                  (fillna NInf (Some (Float.of_Z 7000))) = true)
  /\ (forall k, k ∈ map fst sample_regions -> key_leb k (Some "Africa") = true ->
        k <> Some "Africa" ->
        Float.leb (fillna NInf (Some (Float.of_Z 7000)))
                  (fillna NInf (sum_skipna (group_values sample_regions k))) = false).
Proof.
  split; [vm_compute; reflexivity |].
  apply (X25_region_with_largest_area sample_regions (Some "Africa")
           (Some (Float.of_Z 7000))).
  vm_compute. reflexivity.
Defined.



(** ** Subregion means *)

Lemma group_values_rows (key : Row -> option string) (col : Row -> option num)
    (rs : list Row) (k : string) :
  group_values (map (fun r => (key r, col r)) rs) (Some k)
  = map col (group_rows key k rs).
Proof.
  unfold group_values, group_rows. induction rs as [| r rs IH]; [done |].
  cbn [map List.filter fst]. destruct (bool_decide (key r = Some k)); cbn; by rewrite IH.
Qed.

Lemma subregion_means_elem (df : DataFrame) (k : string) (m : option num) :
  (k, m) ∈ subregion_means df
  <-> Some k ∈ map subregion (rows df)
      /\ m = mean_skipna (map gdpPercap (group_rows subregion k (rows df))).
Proof.
  unfold subregion_means. rewrite list_elem_of_omap.
  rewrite <- group_values_rows. split.
  - intros ([k' m'] & Hin & Hk). cbn in Hk. destruct k' as [k' |]; [| done].
    injection Hk as -> ->. apply groupby_agg_elem in Hin as [Hin ->].
    split; [| done]. by rewrite map_map in Hin.
  - intros [Hin ->]. exists (Some k, mean_skipna (group_values
      (map (fun r => (subregion r, gdpPercap r)) (rows df)) (Some k))).
    split; [| done]. apply groupby_agg_elem. split; [| done]. by rewrite map_map.
Qed.

Lemma subregion_means_NoDup (df : DataFrame) : NoDup (map fst (subregion_means df)).
Proof.
  unfold subregion_means.
  pose proof (groupby_agg_NoDup mean_skipna
                (map (fun r => (subregion r, gdpPercap r)) (rows df))) as Hnd.
  induction (groupby_agg mean_skipna _) as [| [k m] l IH]; [constructor |].
  cbn [map fst] in Hnd. apply NoDup_cons in Hnd as [Hk Hnd].
  destruct k as [k |]; cbn; [| by apply IH].
  apply NoDup_cons. split; [| by apply IH].
  intros ((k' & m') & E & Hin)%list_elem_of_fmap. cbn in E. subst k'.
  apply list_elem_of_omap in Hin as ([k2 m2] & Hin & E). cbn in E.
  destruct k2 as [k2 |]; [| done]. injection E as -> ->.
  apply Hk. apply list_elem_of_fmap. by exists (Some k, m').
Qed.

Lemma subregion_extremes_spec (df : DataFrame) (sub_min sub_max : string)
    (gdp_min gdp_max : option num) :
  subregion_gdp_extremes df = Some (sub_min, gdp_min, sub_max, gdp_max) ->
  (sub_min, gdp_min) ∈ subregion_means df
  /\ (sub_max, gdp_max) ∈ subregion_means df
  /\ Forall (fun p =>
       Float.leb (fillna PInf gdp_min) (fillna PInf p.2) = true
       /\ Float.leb (fillna NInf p.2) (fillna NInf gdp_max) = true)
       (subregion_means df).
Proof.
  unfold subregion_gdp_extremes.
  destruct (has_column _ "subregion" && has_column _ "gdpPercap"); [| done]. cbn zeta.
  destruct (idxmin_skipna (subregion_means df)) as [i |] eqn:Hi; [| done].
  destruct (idxmax_skipna (subregion_means df)) as [j |] eqn:Hj; [| done].
  cbn [mbind option_bind].
  destruct (series_loc (subregion_means df) i) as [a |] eqn:Ha; [| done].
  destruct (series_loc (subregion_means df) j) as [b |] eqn:Hb; [| done].
  cbn. intros [= -> -> -> ->].
  apply idxmin_skipna_filled in Hi as (c & pre & post & Hsplit & Hpre & Hpost).
  apply idxmax_skipna_filled in Hj as (c' & pre' & post' & Hsplit' & Hpre' & Hpost').
  pose proof (subregion_means_NoDup df) as Hnd.
  assert (Hin : (sub_min, c) ∈ subregion_means df).
  { rewrite Hsplit. apply elem_of_app. right. by left. }
  assert (Hin' : (sub_max, c') ∈ subregion_means df).
  { rewrite Hsplit'. apply elem_of_app. right. by left. }
  rewrite (series_loc_unique _ _ _ Hnd Hin) in Ha. injection Ha as ->.
  rewrite (series_loc_unique _ _ _ Hnd Hin') in Hb. injection Hb as ->.
  split; [done |]. split; [done |].
  apply Forall_forall. intros p Hp. split.
  - rewrite Hsplit in Hp. rewrite Forall_forall in Hpre, Hpost.
    apply elem_of_app in Hp as [Hp | Hp].
    + apply Hpre in Hp.
      destruct (leb_total (fillna PInf gdp_min) (fillna PInf p.2)); [done | congruence].
    + apply elem_of_cons in Hp as [-> | Hp]; [apply leb_refl | by apply Hpost].
  - rewrite Hsplit' in Hp. rewrite Forall_forall in Hpre', Hpost'.
    apply elem_of_app in Hp as [Hp | Hp].
    + apply Hpre' in Hp.
      destruct (leb_total (fillna NInf p.2) (fillna NInf gdp_max)); [done | congruence].
    + apply elem_of_cons in Hp as [-> | Hp]; [apply leb_refl | by apply Hpost'].
Qed.

(** ** X27, X28: the subregions with the lowest and the highest mean GDP *)

(** X27: when [subregion_gdp_extremes] returns, both subregions are
    subregions of the table with the means returned, where a mean is that of
    the non-null [gdpPercap] of the rows of the subregion; no subregion has
    a mean below the lowest (NaN read as +inf) or above the highest (NaN
    read as -inf). *)
Theorem X27_subregion_gdp_extremes (df : DataFrame) (sub_min sub_max : string)
    (gdp_min gdp_max : option num) :
  subregion_gdp_extremes df = Some (sub_min, gdp_min, sub_max, gdp_max) ->
  (forall k m, (k, m) ∈ subregion_means df
     <-> Some k ∈ map subregion (rows df)
         /\ m = mean_skipna (map gdpPercap (group_rows subregion k (rows df))))
  /\ (sub_min, gdp_min) ∈ subregion_means df
  /\ (sub_max, gdp_max) ∈ subregion_means df
  /\ Forall (fun p =>
       Float.leb (fillna PInf gdp_min) (fillna PInf p.2) = true
       /\ Float.leb (fillna NInf p.2) (fillna NInf gdp_max) = true)
       (subregion_means df).
Proof.
  intros H. split; [apply subregion_means_elem |]. by apply subregion_extremes_spec.
Qed.

Lemma X27_subregion_gdp_extremes_witness :
  subregion_gdp_extremes sample_df
  = Some ("Western Africa", Some (Float.of_Z 1800), "Western Europe", Some (Float.of_Z 50000))
  /\ (forall k m, (k, m) ∈ subregion_means sample_df
        <-> Some k ∈ map subregion (rows sample_df)
            /\ m = mean_skipna (map gdpPercap (group_rows subregion k (rows sample_df))))
  /\ ("Western Africa", Some (Float.of_Z 1800)) ∈ subregion_means sample_df
  /\ ("Western Europe", Some (Float.of_Z 50000)) ∈ subregion_means sample_df
  /\ Forall (fun p =>
       Float.leb (fillna PInf (Some (Float.of_Z 1800))) (fillna PInf p.2) = true
       /\ Float.leb (fillna NInf p.2) (fillna NInf (Some (Float.of_Z 50000))) = true)
       (subregion_means sample_df).
Proof.
  split; [vm_compute; reflexivity |].
  apply (X27_subregion_gdp_extremes sample_df "Western Africa" "Western Europe"
           (Some (Float.of_Z 1800)) (Some (Float.of_Z 50000))).
  vm_compute. reflexivity.
Defined.

Lemma subregion_extremes_returns (df : DataFrame) :
  has_column (columns df) "subregion" = true ->
  has_column (columns df) "gdpPercap" = true ->
  Exists (fun p => is_Some p.2) (subregion_means df) ->
  exists sub_min gdp_min sub_max gdp_max,
    subregion_gdp_extremes df = Some (sub_min, gdp_min, sub_max, gdp_max).
Proof.
  intros H1 H2 Hex. unfold subregion_gdp_extremes. rewrite H1, H2. cbn [andb]. cbn zeta.
  destruct (filled_extreme_some (fun y x => Float.leb x y) PInf geb_total geb_trans
              (subregion_means df) Hex) as [i Hi].
  destruct (filled_extreme_some Float.leb NInf leb_total leb_trans
              (subregion_means df) Hex) as [j Hj].
  change (idxmin_skipna (subregion_means df) = Some i) in Hi.
  change (idxmax_skipna (subregion_means df) = Some j) in Hj.
  rewrite Hi, Hj. cbn [mbind option_bind].
  apply idxmin_skipna_filled in Hi as (c & pre & post & Hsplit & _).
  apply idxmax_skipna_filled in Hj as (c' & pre' & post' & Hsplit' & _).
  pose proof (subregion_means_NoDup df) as Hnd.
  rewrite (series_loc_unique _ i c Hnd), (series_loc_unique _ j c' Hnd).
  - cbn. by eexists _, _, _, _.
  - rewrite Hsplit'. apply elem_of_app. right. by left.
  - rewrite Hsplit. apply elem_of_app. right. by left.
Qed.

Lemma subregion_extremes_none (df : DataFrame) :
  Forall (fun p => p.2 = None) (subregion_means df) ->
  subregion_gdp_extremes df = None.
Proof.
  intros Hall. unfold subregion_gdp_extremes.
  destruct (has_column _ "subregion" && has_column _ "gdpPercap"); [| done]. cbn zeta.
  unfold idxmin_skipna.
  assert (forallb (fun p : string * option num => is_null p.2) (subregion_means df) = true)
    as ->; [| done].
  apply forallb_forall. intros p Hp%list_elem_of_In.
  rewrite Forall_forall in Hall. by rewrite (Hall p Hp).
Qed.

Section ExtremesOfCleanTable.
Variable py_str : num -> text.
Variable parse_float : text -> option num.

(** X28: on the table [clean_world_data] returns,
    [subregion_gdp_extremes] returns as soon as one record has a subregion
    and one record a [gdpPercap]; both means are then numbers, the lowest is
    [> 0] and at most the highest.  It fails when no record has a subregion
    or none has a [gdpPercap]. *)
Theorem X28_subregion_gdp_extremes_of_clean_table (df_raw : RawFrame)
    (generate_report : bool) :
  has_required_columns df_raw = true ->
  exists df rep,
    clean_world_data py_str parse_float df_raw generate_report = Ok (df, rep)
    /\ (Exists (fun r => is_Some (subregion r)) (rows df) ->
        Exists (fun r => is_Some (gdpPercap r)) (rows df) ->
        exists sub_min a sub_max b,
          subregion_gdp_extremes df = Some (sub_min, Some a, sub_max, Some b)
          /\ positive a /\ Float.leb a b = true)
    /\ (Forall (fun r => subregion r = None) (rows df)
        \/ Forall (fun r => gdpPercap r = None) (rows df) ->
        subregion_gdp_extremes df = None).
Proof.
  intros Hreq.
  destruct (clean_world_data_rows py_str parse_float df_raw generate_report Hreq)
    as (df & kept & Hrun & Hrows & _ & Hclean & Hfrom).
  destruct (clean_world_data_ok py_str parse_float df_raw generate_report Hreq)
    as (kept' & HF & Hrun').
  rewrite Hrun in Hrun'. injection Hrun' as Hdf _.
  pose proof (has_required_columns_elim _ Hreq) as Hcols. rewrite Forall_forall in Hcols.
  assert (Hs : has_column (columns df) "subregion" = true).
  { rewrite Hdf. apply has_column_output, Hcols. column_listed. }
  assert (Hg : has_column (columns df) "gdpPercap" = true).
  { rewrite Hdf. apply has_column_output, Hcols. column_listed. }
  eexists df, _. split; [exact Hrun |]. split.
  - intros Hsub Hgdp.
    assert (Hall : Forall (fun r => is_Some (gdpPercap r)) (rows df)).
    { destruct (rows_D_uniform py_str parse_float df_raw) as [_ [HD | HD]].
      - each_row Hfrom as r' (r & Hr & _ & ->). rewrite Forall_forall in HD. by apply HD.
      - exfalso. apply Exists_exists in Hgdp as (r' & Hr' & [x Hx]).
        rewrite Forall_forall in Hfrom. destruct (Hfrom r' Hr') as (r & Hr & _ & E).
        rewrite Forall_forall in HD. rewrite E, (HD r Hr) in Hx. done. }
    assert (Hmeans : Forall (fun p => exists m, p.2 = Some m /\ positive m)
                            (subregion_means df)).
    { apply Forall_forall. intros [k m] [Hk ->]%subregion_means_elem. cbn [snd].
      apply list_elem_of_fmap in Hk as (r0 & Hk0 & Hr0).
      assert (Hsubset : forall r, r ∈ group_rows subregion k (rows df) -> r ∈ rows df).
      { intros r Hr. unfold group_rows in Hr.
        by apply list_elem_of_In, filter_In in Hr as [Hr%list_elem_of_In _]. }
      apply mean_skipna_positive.
      - rewrite Forall_map. apply Forall_forall. intros r Hr%Hsubset.
        rewrite Forall_forall in Hclean. apply (cr_gdpPercap r (Hclean r Hr)).
      - apply Exists_exists. exists (gdpPercap r0). split.
        + apply list_elem_of_fmap. exists r0. split; [done |]. unfold group_rows.
          apply list_elem_of_In, filter_In. split; [by apply list_elem_of_In |].
          by apply bool_decide_eq_true.
        + rewrite Forall_forall in Hall. by apply Hall. }
    destruct (subregion_extremes_returns df Hs Hg) as (smin & vmin & smax & vmax & Hres).
    { apply Exists_exists in Hsub as (r & Hr & [k Hk]).
      apply Exists_exists.
      exists (k, mean_skipna (map gdpPercap (group_rows subregion k (rows df)))).
      assert (Hin : (k, mean_skipna (map gdpPercap (group_rows subregion k (rows df))))
                    ∈ subregion_means df).
      { apply subregion_means_elem. split; [| done]. rewrite <- Hk.
        apply list_elem_of_fmap. by exists r. }
      split; [done |]. rewrite Forall_forall in Hmeans.
      destruct (Hmeans _ Hin) as (m & -> & _). by eexists. }
    destruct (subregion_extremes_spec df _ _ _ _ Hres) as (Hmin & Hmax & Hbounds).
    rewrite Forall_forall in Hmeans, Hbounds.
    destruct (Hmeans _ Hmin) as (a & Ea & Ha). destruct (Hmeans _ Hmax) as (b & Eb & _).
    cbn [snd] in Ea, Eb. subst vmin vmax.
    exists smin, a, smax, b. split; [done |]. split; [done |].
    by destruct (Hbounds _ Hmax) as [Hle _].
  - intros Hnull. apply subregion_extremes_none.
    apply Forall_forall. intros [k m] [Hk ->]%subregion_means_elem. cbn [snd].
    destruct Hnull as [Hnull | Hnull].
    + apply list_elem_of_fmap in Hk as (r0 & Hk0 & Hr0).
      rewrite Forall_forall in Hnull. rewrite (Hnull r0 Hr0) in Hk0. done.
    + unfold mean_skipna. rewrite dropna_values_empty; [done |].
      apply Forall_forall. intros r Hr. unfold group_rows in Hr.
      apply list_elem_of_In, filter_In in Hr as [Hr%list_elem_of_In _].
      rewrite Forall_forall in Hnull. by apply Hnull.
Qed.
End ExtremesOfCleanTable.

Lemma sample_df_index_NoDup : NoDup (map index (rows sample_df)).
Proof. apply (bool_decide_unpack _). vm_compute. exact I. Qed.

Lemma sample_df_has_lifeExp :
  Exists (fun r => exists x, lifeExp r = Some x /\ x <> NInf) (rows sample_df).
Proof. apply Exists_cons_hd. by eexists. Qed.

Lemma X23_highest_life_expectancy_witness :
  has_column (columns sample_df) "lifeExp" = true
  /\ has_column (columns sample_df) "name_long" = true
  /\ NoDup (map index (rows sample_df))
  /\ Exists (fun r => exists x, lifeExp r = Some x /\ x <> NInf) (rows sample_df)
  /\ exists r v pre post,
       country_highest_life_expectancy sample_df = Some (name_long r, Some v)
       /\ rows sample_df = (pre ++ r :: post)%list
       /\ lifeExp r = Some v
       /\ Forall (fun x => Float.cell_ge (lifeExp x) v = false) pre
       /\ Forall (fun x => Float.cell_gt (lifeExp x) v = false) post.
Proof.
  split; [reflexivity |]. split; [reflexivity |].
  split; [exact sample_df_index_NoDup |]. split; [exact sample_df_has_lifeExp |].
  exact (X23_highest_life_expectancy sample_df eq_refl eq_refl
           sample_df_index_NoDup sample_df_has_lifeExp).
Defined.

(** The answers the tests expect on [sample_df]. *)
Example answers_on_sample_df :
  country_highest_life_expectancy sample_df = Some (Some "Alfa", Some (Float.of_Z 80))
  /\ region_with_largest_area sample_regions = Some (Some "Africa", Some (Float.of_Z 7000))
  /\ subregion_gdp_extremes sample_df
     = Some ("Western Africa", Some (Float.of_Z 1800),
             "Western Europe", Some (Float.of_Z 50000)).
Proof. repeat split; vm_compute; reflexivity. Qed.

Lemma X24_highest_life_expectancy_of_clean_table_witness :
  has_required_columns raw_df_for_cleaning = true
  /\ exists df rep,
       clean_world_data example_str example_parse raw_df_for_cleaning true = Ok (df, rep)
       /\ (Forall (fun r => lifeExp r = None) (rows df) ->
           country_highest_life_expectancy df = None)
       /\ (Exists (fun r => is_Some (lifeExp r)) (rows df) ->
           exists name v,
             country_highest_life_expectancy df = Some (Some name, Some v)
             /\ in_life_range v
             /\ Exists (fun r => name_long r = Some name /\ lifeExp r = Some v) (rows df)
             /\ Forall (fun r => Float.cell_gt (lifeExp r) v = false) (rows df)).
Proof.
  split; [reflexivity |].
  apply (X24_highest_life_expectancy_of_clean_table example_str example_parse
           raw_df_for_cleaning true).
  reflexivity.
Defined.

Lemma X28_subregion_gdp_extremes_of_clean_table_witness :
  has_required_columns raw_df_for_cleaning = true
  /\ exists df rep,
       clean_world_data example_str example_parse raw_df_for_cleaning true = Ok (df, rep)
       /\ (Exists (fun r => is_Some (subregion r)) (rows df) ->
           Exists (fun r => is_Some (gdpPercap r)) (rows df) ->
           exists sub_min a sub_max b,
             subregion_gdp_extremes df = Some (sub_min, Some a, sub_max, Some b)
             /\ positive a /\ Float.leb a b = true)
       /\ (Forall (fun r => subregion r = None) (rows df)
           \/ Forall (fun r => gdpPercap r = None) (rows df) ->
           subregion_gdp_extremes df = None).
Proof.
  split; [reflexivity |].
  apply (X28_subregion_gdp_extremes_of_clean_table example_str example_parse
           raw_df_for_cleaning true).
  reflexivity.
Defined.

(** On the cleaned fixture: Alfa with 80 years; Western Africa with 1800
    and Western Europe with 50000. *)
Example answers_on_cleaned_fixture :
  exists df rep,
    clean_world_data example_str example_parse raw_df_for_cleaning true = Ok (df, rep)
    /\ country_highest_life_expectancy df = Some (Some "Alfa", Some (Float.of_Z 80))
    /\ subregion_gdp_extremes df
       = Some ("Western Africa", Some (Float.of_Z 1800),
               "Western Europe", Some (Float.of_Z 50000)).
Proof. eexists _, _. split; [vm_compute; reflexivity |]. split; vm_compute; reflexivity. Qed.

(* ================================================================== *)
(** * [src/io_utils.py]: the byte order mark *)
(* ================================================================== *)

Lemma lstrip_chars_repeat (c : N) (k : nat) (s : text) :
  (forall t, s <> c :: t) -> lstrip_chars [c] (repeat c k ++ s)%list = s.
Proof.
  intros Hs. induction k as [| k IH]; cbn.
  - destruct s as [| d s]; [done |]. cbn. rewrite bool_decide_eq_false_2; [done |].
    intros ->%list_elem_of_singleton. by apply (Hs s).
  - rewrite bool_decide_eq_true_2 by (by apply list_elem_of_singleton). apply IH.
Qed.

Lemma space_is_not_bom (c : N) : is_space c = true -> c <> BOM.
Proof. by intros H ->. Qed.

Lemma trimmed_bom_cons (name : text) : trimmed name -> trimmed (BOM :: name).
Proof.
  intros [Hh Hl]. split.
  - by intros c t [= <- _].
  - intros c t E. destruct t as [| d t].
    + by injection E as <- _.
    + injection E as _ E. by apply (Hl c t).
Qed.

Lemma trimmed_iso_a2 : trimmed (text_of_string "iso_a2").
Proof.
  split; intros c t E.
  - by injection E as <- _.
  - change (text_of_string "iso_a2") with ([105; 115; 111; 95; 97] ++ [50])%N%list in E.
    by apply app_inj_tail in E as [_ <-].
Qed.

(** X29: a text that starts with any number of byte order marks, then white
    space, then a name, then white space, is normalised to the name
    (a name without white space at its ends and not starting with a byte
    order mark). *)
Theorem X29_strip_bom_normal_form (name ws1 ws2 : text) (k : nat) :
  trimmed name ->
  (forall t, name <> BOM :: t) ->
  Forall (fun c => is_space c = true) ws1 ->
  Forall (fun c => is_space c = true) ws2 ->
  _strip_bom_and_space (repeat BOM k ++ ws1 ++ name ++ ws2)%list = name.
Proof.
  intros Ht Hb H1 H2. unfold _strip_bom_and_space.
  rewrite lstrip_chars_repeat; [by apply strip_padded |].
  intros t E. destruct ws1 as [| c ws1].
  - destruct name as [| c name].
    + destruct ws2 as [| c ws2]; [done |]. injection E as -> _.
      by apply Forall_cons in H2 as [H2 _].
    + injection E as -> _. by apply (Hb name).
  - injection E as -> _. by apply Forall_cons in H1 as [H1 _].
Qed.

Lemma X29_strip_bom_normal_form_witness :
  trimmed (text_of_string "iso_a2")
  /\ (forall t, text_of_string "iso_a2" <> BOM :: t)
  /\ Forall (fun c => is_space c = true) [SPACE]
  /\ Forall (fun c => is_space c = true) [SPACE; NBSP]
  /\ _strip_bom_and_space
       (repeat BOM 1 ++ [SPACE] ++ text_of_string "iso_a2" ++ [SPACE; NBSP])%list
     = text_of_string "iso_a2".
Proof.
  assert (Hb : forall t, text_of_string "iso_a2" <> BOM :: t) by (by intros t [=]).
  assert (H1 : Forall (fun c => is_space c = true) [SPACE]) by (by repeat constructor).
  assert (H2 : Forall (fun c => is_space c = true) [SPACE; NBSP]) by (by repeat constructor).
  split; [exact trimmed_iso_a2 |]. split; [exact Hb |]. split; [exact H1 |].
  split; [exact H2 |].
  exact (X29_strip_bom_normal_form (text_of_string "iso_a2") [SPACE] [SPACE; NBSP] 1
           trimmed_iso_a2 Hb H1 H2).
Defined.

(** X30: the byte order mark is only removed at the very start.  Behind a
    white-space character it survives, so the result starts with it, and a
    second pass is needed to reach the name: [_strip_bom_and_space] is not
    idempotent. *)
Theorem X30_strip_bom_not_behind_space (c : N) (name : text) :
  is_space c = true ->
  trimmed name ->
  (forall t, name <> BOM :: t) ->
  _strip_bom_and_space (c :: BOM :: name) = BOM :: name
  /\ _strip_bom_and_space (_strip_bom_and_space (c :: BOM :: name)) = name.
Proof.
  intros Hc Ht Hb.
  assert (E : _strip_bom_and_space (c :: BOM :: name) = BOM :: name).
  { unfold _strip_bom_and_space. cbn [lstrip_chars].
    rewrite bool_decide_eq_false_2
      by (intros H%list_elem_of_singleton; by apply (space_is_not_bom c)).
    pose proof (strip_padded [c] [] (BOM :: name)) as Hp. rewrite app_nil_r in Hp.
    apply Hp; [by constructor | constructor | by apply trimmed_bom_cons]. }
  split; [done |]. rewrite E. unfold _strip_bom_and_space.
  change (BOM :: name) with (repeat BOM 1 ++ name)%list.
  rewrite (lstrip_chars_repeat BOM 1 name Hb). by apply strip_fixed.
Qed.

Lemma X30_strip_bom_not_behind_space_witness :
  is_space SPACE = true
  /\ trimmed (text_of_string "iso_a2")
  /\ (forall t, text_of_string "iso_a2" <> BOM :: t)
  /\ _strip_bom_and_space (SPACE :: BOM :: text_of_string "iso_a2")
     = BOM :: text_of_string "iso_a2"
  /\ _strip_bom_and_space
       (_strip_bom_and_space (SPACE :: BOM :: text_of_string "iso_a2"))
     = text_of_string "iso_a2".
Proof.
  assert (Hb : forall t, text_of_string "iso_a2" <> BOM :: t) by (by intros t [=]).
  split; [reflexivity |]. split; [exact trimmed_iso_a2 |]. split; [exact Hb |].
  exact (X30_strip_bom_not_behind_space SPACE (text_of_string "iso_a2")
           eq_refl trimmed_iso_a2 Hb).
Defined.
